(** * TeslaSmartChargeApp: the charging decision engine of functions/index.js

    A shallow embedding of the Cloud Functions
    [fetchEnergyPrices], [calculateOptimalWindow], [telemetryWebhook],
    [manageChargingLogic] and of the helper [sendTeslaChargeCommand],
    followed by the properties of the specification proved about them.

    Modelling conventions.
    - JavaScript numbers that carry prices are IEEE 754 doubles
      ([PrimFloat.float]): sums, divisions and comparisons round and
      treat [NaN] and [Infinity] as the language does.  Hours, battery
      percentages and durations are integers ([Z]); instants are integer
      milliseconds, and where the source computes on them with doubles
      the rounding is written out ([Js.round]).
    - A user document has the shape of the data model: the [vehicle] map
      with its four fields is present, [settings] and [chargeOverride]
      may be missing.
    - Firestore is an explicit store threaded through a state-and-exception
      monad [M]; [logger] calls append to a log kept in the same store.
    - The clock and Tesla's token endpoint are read from an environment
      record; the local time zone of the runtime is UTC. *)

From stdpp Require Import base gmap strings list fin_maps.
From Stdlib Require Import ZArith QArith Lia Sorted Floats.

Local Open Scope Z_scope.

(** * JavaScript values *)

Module Js.

(** The double nearest to an integer, ties to even: the Number that an
    integer literal or an integer field denotes. *)
Definition of_Z (z : Z) : float :=
  SF2Prim (binary_normalize prec emax z 0 false).

(** The exact value of a finite double (0 for [NaN] and the infinities). *)
Definition to_Q (x : float) : Q :=
  match Prim2SF x with
  | S754_finite s m e => (inject_Z (cond_Zopp s (Z.pos m)) * Qpower 2 e)%Q
  | _ => 0%Q
  end.

(** The same rounding on integers: an integer result of double arithmetic
    is the rounded exact result.  Up to [2^53] every integer is a double;
    above, 53 significant bits are kept.  (Beyond the range of doubles
    the Number is [Infinity]; here it is a large integer, which every
    later range check rejects as it rejects [Infinity].) *)
Definition round (z : Z) : Z :=
  if Z.abs z <=? 2 ^ 53 then z
  else
    let e := Z.log2 (Z.abs z) - 52 in
    let q := Z.abs z / 2 ^ e in
    let r := Z.abs z mod 2 ^ e in
    let half := 2 ^ (e - 1) in
    let q' :=
      if r <? half then q
      else if half <? r then q + 1
      else if Z.even q then q else q + 1 in
    Z.sgn z * (q' * 2 ^ e).

(** A Number read from the feed that is used as an integer: the element
    may be missing, the parse may give [NaN], or it gives an integer. *)
Inductive Field := Missing | NaN | Num (z : Z).

#[global] Instance Field_eq_dec : EqDecision Field.
Proof. solve_decision. Defined.

(** An optional integer stands for a number that may be [undefined]; any
    arithmetic on [undefined] gives [NaN], and any comparison with [NaN]
    is false. *)
Definition add (a b : option Z) : option Z :=
  match a, b with
  | Some x, Some y => Some (x + y)
  | _, _ => None
  end.

Definition geb (a : Z) (b : option Z) : bool :=
  match b with Some y => y <=? a | None => false end.

Definition lt_opt (a : Z) (b : option Z) : bool :=
  match b with Some y => a <? y | None => false end.

(** Truthiness of strings and of integers. *)
Definition truthy_str (s : option string) : bool :=
  match s with
  | Some s => negb (String.eqb s "")
  | None => false
  end.

Definition truthy_int (n : option Z) : bool :=
  match n with
  | Some n => negb (n =? 0)
  | None => false
  end.

(** [x === true] and [x === false] on a field that may be unset. *)
Definition is_true (x : option bool) : bool :=
  match x with Some true => true | _ => false end.

Definition is_false (x : option bool) : bool :=
  match x with Some false => true | _ => false end.

(** [Array.prototype.slice(start, end)]: a negative index counts from the
    end, and both indices are clamped to the array. *)
Definition rel_index (len k : Z) : Z :=
  if k <? 0 then Z.max (len + k) 0 else Z.min k len.

Definition slice {A} (l : list A) (start end_ : Z) : list A :=
  let len := Z.of_nat (length l) in
  let k := rel_index len start in
  let final := rel_index len end_ in
  firstn (Z.to_nat (final - k)) (skipn (Z.to_nat k) l).

(** [arr.reduce((a, b) => a + b, 0)] *)
Definition sum (l : list float) : float := fold_left PrimFloat.add l 0%float.

(** A plain object with integer keys, kept in property enumeration
    order: array-index keys (0 to 2^32 - 2) ascending, then the other
    keys in insertion order. *)
Definition obj (V : Type) := list (Z * V).

Definition is_index (k : Z) : bool := (0 <=? k) && (k <? 4294967295).

Fixpoint set {V} (o : obj V) (k : Z) (v : V) : obj V :=
  match o with
  | [] => [(k, v)]
  | (k', v') :: o' =>
      if k' =? k then (k, v) :: o'
      else if is_index k && (negb (is_index k') || (k <? k'))
      then (k, v) :: (k', v') :: o'
      else (k', v') :: set o' k v
  end.

Fixpoint get {V} (o : obj V) (k : Z) : option V :=
  match o with
  | [] => None
  | (k', v) :: o' => if k' =? k then Some v else get o' k
  end.

Definition values {V} (o : obj V) : list V := map snd o.

(** Time values of [Date]: milliseconds since the epoch, in UTC. *)
Definition msPerDay : Z := 86400000.
Definition msPerHour : Z := 3600000.
Definition msPerMinute : Z := 60000.
Definition msPerSecond : Z := 1000.

Definition Day (t : Z) : Z := t / msPerDay.
Definition HourFromTime (t : Z) : Z := (t / msPerHour) mod 24.
Definition MinFromTime (t : Z) : Z := (t / msPerMinute) mod 60.
Definition SecFromTime (t : Z) : Z := (t / msPerSecond) mod 60.
Definition msFromTime (t : Z) : Z := t mod msPerSecond.

(** [MakeTime] and [MakeDate] compute on doubles. *)
Definition MakeTime (hour min sec ms : Z) : Z :=
  round (round (round (round (hour * msPerHour) + min * msPerMinute)
                + sec * msPerSecond) + ms).

Definition MakeDate (day time : Z) : Z := round (day * msPerDay + time).

(** [TimeClip]: [None] is the invalid Date. *)
Definition TimeClip (time : Z) : option Z :=
  if Z.abs time <=? 8640000000000000 then Some time else None.

(** [new Date(s)] for a string that parses to the instant [z]. *)
Definition newDate (s : Field) : option Z :=
  match s with
  | Num z => TimeClip z
  | _ => None
  end.

(** [date.getHours()] and [date.setHours(hour)] on a valid Date. *)
Definition getHours (t : Z) : Z := HourFromTime t.

Definition setHours (t : Z) (hour : Z) : option Z :=
  TimeClip
    (MakeDate (Day t)
       (MakeTime hour (MinFromTime t) (SecFromTime t) (msFromTime t))).

End Js.

(** * The Window Selector (loop of [calculateOptimalWindow]) *)

(** [bestStartHour] and [lowestAveragePrice], the two variables the loop
    updates. *)
Record Best := { bestStartHour : Z; lowestAveragePrice : float }.

Definition averagePrice (prices : list float) (hoursNeeded startHour : Z) : float :=
  let windowPrices := Js.slice prices startHour (startHour + hoursNeeded) in
  (Js.sum windowPrices / Js.of_Z hoursNeeded)%float.

Definition window_step (prices : list float) (hoursNeeded startHour : Z) (b : Best) : Best :=
  let avg := averagePrice prices hoursNeeded startHour in
  if (avg <? lowestAveragePrice b)%float
  then {| bestStartHour := startHour; lowestAveragePrice := avg |}
  else b.

(** [for (startHour = ...; startHour <= prices.length - hoursNeeded; startHour++)]
    with [iters] iterations left. *)
Fixpoint window_loop (prices : list float) (hoursNeeded : Z) (iters : nat)
    (startHour : Z) (b : Best) : Best :=
  match iters with
  | O => b
  | S k =>
      window_loop prices hoursNeeded k (startHour + 1)
        (window_step prices hoursNeeded startHour b)
  end.

(** The loop started at [startHour = 0] with [bestStartHour = -1] and
    [lowestAveragePrice = Infinity]; the number of iterations is that of
    the loop condition, [prices.length - hoursNeeded + 1] when this is
    positive and none otherwise.  [hoursNeeded] is never zero here: the
    caller skips a falsy [chargingDuration]. *)
Definition selectWindow (prices : list float) (hoursNeeded : Z) : Z :=
  bestStartHour
    (window_loop prices hoursNeeded
       (Z.to_nat (Z.of_nat (length prices) - hoursNeeded + 1)) 0
       {| bestStartHour := -1; lowestAveragePrice := infinity |}).

(** The mean of [prices[s .. s+d)] in double arithmetic, written index by
    index: the prices are added one after the other to 0, from [s]
    upwards, and the sum is divided by [d]. *)
Fixpoint sum_from (prices : list float) (s d : nat) (acc : float) : float :=
  match d with
  | O => acc
  | S d' => sum_from prices (S s) d' (acc + nth s prices 0)%float
  end.

Definition mean (prices : list float) (s d : Z) : float :=
  (sum_from prices (Z.to_nat s) (Z.to_nat d) 0 / Js.of_Z d)%float.

(** The arithmetic mean of the same prices in exact arithmetic. *)
Fixpoint exact_sum (prices : list float) (s d : nat) : Q :=
  match d with
  | O => 0
  | S d' => Js.to_Q (nth s prices 0%float) + exact_sum prices (S s) d'
  end%Q.

Definition exact_mean (prices : list float) (s d : Z) : Q :=
  (exact_sum prices (Z.to_nat s) (Z.to_nat d) / inject_Z d)%Q.

(** * Data model: the Firestore documents *)

Inductive Decision := START | STOP.

(** [users/{userId}.settings] *)
Record Settings := {
  chargingDuration : option Z;
  emergencyThreshold : Z;
  targetBattery : Z;
  optimalStartHour : option Z
}.

(** [users/{userId}.vehicle]; [isPluggedIn] is compared with [===], so an
    unset field is kept apart from [false]. *)
Record Vehicle := {
  vin : string;
  isCharging : bool;
  isPluggedIn : option bool;
  batteryLevel : Z
}.

(** [users/{userId}] *)
Record UserDoc := {
  settings : option Settings;
  vehicle : Vehicle;
  teslaRefreshToken : string;
  chargeOverride : option bool
}.

(** One entry of [hourlyRates]; [time] is the instant in milliseconds that
    the document stores as an ISO string. *)
Record Rate := { price : float; time : Z }.

(** [energy_prices/NL] *)
Record PriceDoc := {
  lastUpdated : Z;
  hourlyRates : option (Js.obj Rate)
}.

(** Field updates passed to Firestore's [update].  The nested field
    ['settings.optimalStartHour'] is only written for a user whose
    [settings] exist. *)
Definition set_optimalStartHour (h : Z) (d : UserDoc) : UserDoc :=
  {| settings :=
       match settings d with
       | Some s =>
           Some {| chargingDuration := chargingDuration s;
                   emergencyThreshold := emergencyThreshold s;
                   targetBattery := targetBattery s;
                   optimalStartHour := Some h |}
       | None => None
       end;
     vehicle := vehicle d;
     teslaRefreshToken := teslaRefreshToken d;
     chargeOverride := chargeOverride d |}.

Definition set_chargeOverride (b : bool) (d : UserDoc) : UserDoc :=
  {| settings := settings d; vehicle := vehicle d;
     teslaRefreshToken := teslaRefreshToken d;
     chargeOverride := Some b |}.

Definition set_vehicle (v : Vehicle) (d : UserDoc) : UserDoc :=
  {| settings := settings d; vehicle := v;
     teslaRefreshToken := teslaRefreshToken d;
     chargeOverride := chargeOverride d |}.

(** * Effects *)

Inductive Error :=
| NoTimeSeries          (* 'No TimeSeries data found in the API response.' *)
| NoPricePoints         (* 'No price points found in the relevant TimeSeries.' *)
| EnergyPricesNotFound  (* 'Energy prices not found.' *)
| TypeError             (* a property read on undefined *)
| RangeError            (* toISOString on an invalid Date *)
| RequestFailed         (* a rejected HTTP request *)
| NotFound.             (* Firestore update of a missing document *)

(** The rule of the decision logic that fired. *)
Inductive Rule := Emergency | Bonus | OptimalWindow | OutsideWindow.

(** The calls of [logger], one constructor per message. *)
Inductive LogEntry :=
| LogFetchRunning
| LogFetching
| LogPricesSaved (numberOfRates : nat)
| LogFetchError (e : Error)
| LogWindowRunning
| LogNoHourlyRates
| LogNoUsers
| LogUserSkipped (userId : string)
| LogOptimalWindow (userId : string) (hoursNeeded start : Z)
| LogWindowFinished
| LogTelemetryReceived
| LogInvalidTelemetry
| LogUnknownVin (v : string)
| LogVehicleUpdated (userId : string)
| LogTelemetryError (v : string) (e : Error)
| LogOverrideDetected (userId : string)
| LogOverrideReset (userId : string)
| LogOverrideError (userId : string) (e : Error)
| LogPluggedIn (userId : string)
| LogDecision (userId : string) (d : Decision) (r : Rule)
| LogChargingError (userId : string) (e : Error)
| LogSendingCommand (action v : string)
| LogSendFailed (v : string) (e : Error).

(** The state the functions act on: the two Firestore collections, the
    log, and the record of the calls of [sendTeslaChargeCommand]
    (refresh token, VIN, command). *)
Record World := {
  users : gmap string UserDoc;
  energy_prices : option PriceDoc;
  logs : list LogEntry;
  dispatched : list (string * string * Decision)
}.

(** What the functions read from outside: [new Date()] as an instant and
    as an hour of the day, and the answer of Tesla's token endpoint to a
    refresh token. *)
Record Env := {
  now : Z;
  getHours : Z;
  tokenEndpoint : string -> option string
}.

Inductive Result (A : Type) :=
| Ok (a : A)
| Throw (e : Error).
Arguments Ok {A} a.
Arguments Throw {A} e.

Definition M (A : Type) : Type := World -> Result A * World.

Definition ret {A} (a : A) : M A := fun w => (Ok a, w).

Definition bind {A B} (m : M A) (k : A -> M B) : M B :=
  fun w =>
    match m w with
    | (Ok a, w') => k a w'
    | (Throw e, w') => (Throw e, w')
    end.

Definition throw {A} (e : Error) : M A := fun w => (Throw e, w).

(** [try { body } catch (error) { handler }] *)
Definition try_catch {A} (body : M A) (handler : Error -> M A) : M A :=
  fun w =>
    match body w with
    | (Ok a, w') => (Ok a, w')
    | (Throw e, w') => handler e w'
    end.

Declare Scope m_scope.
Delimit Scope m_scope with M.
Notation "'let*' x ':=' c 'in' k" := (bind c (fun x => k))
  (at level 10, x name, c at level 100, k at level 200) : m_scope.
Notation "c ;; k" := (bind c (fun _ => k))
  (at level 100, k at level 200, right associativity) : m_scope.
Local Open Scope m_scope.

Definition log (e : LogEntry) : M unit :=
  fun w =>
    (Ok tt, {| users := users w; energy_prices := energy_prices w;
               logs := logs w ++ [e]; dispatched := dispatched w |}).

Definition record_dispatch (t v : string) (c : Decision) : M unit :=
  fun w =>
    (Ok tt, {| users := users w; energy_prices := energy_prices w;
               logs := logs w; dispatched := dispatched w ++ [(t, v, c)] |}).

(** [db.collection('users').get()] *)
Definition get_users : M (list (string * UserDoc)) :=
  fun w => (Ok (map_to_list (users w)), w).

(** [ref.update(fields)]: rejected when the document does not exist. *)
Definition update_user (userId : string) (f : UserDoc -> UserDoc) : M unit :=
  fun w =>
    match users w !! userId with
    | Some d =>
        (Ok tt, {| users := <[userId := f d]> (users w);
                   energy_prices := energy_prices w;
                   logs := logs w; dispatched := dispatched w |})
    | None => (Throw NotFound, w)
    end.

(** [db.collection('energy_prices').doc('NL').get()] *)
Definition get_prices : M (option PriceDoc) :=
  fun w => (Ok (energy_prices w), w).

(** [db.collection('energy_prices').doc('NL').set(priceData)] *)
Definition set_prices (p : PriceDoc) : M unit :=
  fun w =>
    (Ok tt, {| users := users w; energy_prices := Some p;
               logs := logs w; dispatched := dispatched w |}).

(** [arr.forEach(f)] where the callback updates a local variable of the
    enclosing function, threaded here as an accumulator. *)
Fixpoint forEach {A S} (l : list A) (f : S -> A -> M S) (s : S) : M S :=
  match l with
  | [] => ret s
  | x :: l' => let* s' := f s x in forEach l' f s'
  end.

(** * [Function A] fetchEnergyPrices: the Price Normalizer *)

(** The parsed ENTSO-E document.  [position] is [Js.Missing] when the
    point has no [position] element, and otherwise the result of
    [parseInt(point.position[0], 10)]; [price_amount] is [None] when the
    point has no [price.amount] element, and otherwise the result of
    [parseFloat(point['price.amount'][0])], which may be [NaN];
    [timeInterval_start] is [Js.Missing] when the period has no
    [timeInterval] or it has no [start], [Js.NaN] when the text is not a
    date, and otherwise the instant it denotes. *)
Record RawPoint := { position : Js.Field; price_amount : option float }.

Record RawPeriod := {
  timeInterval_start : Js.Field;
  Point : option (list RawPoint)
}.

Record RawTimeSeries := { Period : list RawPeriod }.

Record MarketDocument := { TimeSeries : option (list RawTimeSeries) }.

(** [toISOString] throws on an invalid Date. *)
Definition toISOString (t : option Z) : M Z :=
  match t with
  | Some t => ret t
  | None => throw RangeError
  end.

(** [pointTime.setHours(pointTime.getHours() + hour)]; an invalid Date
    stays invalid. *)
Definition addHours (t : option Z) (hour : Z) : option Z :=
  match t with
  | Some t => Js.setHours t (Js.round (Js.getHours t + hour))
  | None => None
  end.

(** The callback of [points.forEach].  Reading [position[0]] or
    ['price.amount'][0] of a missing element is a [TypeError]; a [NaN]
    hour makes [pointTime] invalid, and [toISOString] throws before the
    assignment to [hourlyRates]. *)
Definition addPoint (periodStartTime : option Z) (hourlyRates : Js.obj Rate)
    (point : RawPoint) : M (Js.obj Rate) :=
  match position point with
  | Js.Missing => throw TypeError
  | pos =>
      match price_amount point with
      | None => throw TypeError
      | Some amount =>
          match pos with
          | Js.Num z =>
              let hour := Js.round (Js.round z - 1) in
              let price := (amount / 1000)%float in
              let* t := toISOString (addHours periodStartTime hour) in
              ret (Js.set hourlyRates hour {| price := price; time := t |})
          | _ => throw RangeError
          end
      end
  end.

(** From [parsedData] to the write of [energy_prices/NL]. *)
Definition normalizePrices (env : Env) (parsedData : MarketDocument) : M unit :=
  match TimeSeries parsedData with
  | None | Some [] => throw NoTimeSeries
  | Some (ts0 :: tss) =>
      let relevantTimeSeries := List.last tss ts0 in
      match Period relevantTimeSeries with
      | [] => throw TypeError
      | period :: _ =>
          match Point period with
          | None | Some [] => throw NoPricePoints
          | Some points =>
              match timeInterval_start period with
              | Js.Missing => throw TypeError
              | start =>
                  let periodStartTime := Js.newDate start in
                  let* hourlyRates :=
                    forEach points (addPoint periodStartTime) [] in
                  set_prices {| lastUpdated := now env;
                                hourlyRates := Some hourlyRates |};;
                  log (LogPricesSaved (length hourlyRates))
              end
          end
      end
  end.

(** [response] is the outcome of the HTTP request and of the XML parse. *)
Definition fetchEnergyPrices (env : Env) (response : Result MarketDocument) : M unit :=
  log LogFetchRunning;;
  try_catch
    (log LogFetching;;
     let* parsedData :=
       match response with Ok d => ret d | Throw e => throw e end in
     normalizePrices env parsedData)
    (fun error => log (LogFetchError error)).

(** * [Function B] calculateOptimalWindow *)

(** The callback of [usersSnapshot.forEach]; [batch] collects the
    [settings.optimalStartHour] updates. *)
Definition windowForUser (prices : list float) (batch : list (string * Z))
    (userDoc : string * UserDoc) : M (list (string * Z)) :=
  let '(id, userData) := userDoc in
  match settings userData with
  | None => log (LogUserSkipped id);; ret batch
  | Some userSettings =>
      match chargingDuration userSettings with
      | None => log (LogUserSkipped id);; ret batch
      | Some hoursNeeded =>
          if negb (Js.truthy_int (Some hoursNeeded))
          then log (LogUserSkipped id);; ret batch
          else
            let bestStartHour := selectWindow prices hoursNeeded in
            if negb (bestStartHour =? -1)
            then log (LogOptimalWindow id hoursNeeded bestStartHour);;
                 ret (batch ++ [(id, bestStartHour)])
            else ret batch
      end
  end.

(** [batch.commit()] *)
Definition commit (batch : list (string * Z)) : M unit :=
  forEach batch
    (fun _ op => update_user (fst op) (set_optimalStartHour (snd op))) tt.

Definition calculateOptimalWindow (priceData : PriceDoc) : M unit :=
  log LogWindowRunning;;
  match hourlyRates priceData with
  | None => log LogNoHourlyRates
  | Some hourlyRates =>
      let prices := map price (Js.values hourlyRates) in
      let* usersSnapshot := get_users in
      match usersSnapshot with
      | [] => log LogNoUsers
      | _ =>
          let* batch := forEach usersSnapshot (windowForUser prices) [] in
          commit batch;;
          log LogWindowFinished
      end
  end.

(** * [Function C] telemetryWebhook: the Vehicle State Tracker *)

Record TelemetryData := {
  charging_state : option string;
  charge_port_latch : option string;
  battery_level : option Z
}.

Record Body := { body_vin : option string; data : option TelemetryData }.

Record Response := { status : Z; sent : string }.

(** The object [vehicleUpdate]: a key is present when its field is
    [Some]. *)
Record VehicleUpdate := {
  upd_isCharging : option bool;
  upd_isPluggedIn : option bool;
  upd_batteryLevel : option Z
}.

Definition vehicleUpdate (data : TelemetryData) : VehicleUpdate :=
  {| upd_isCharging :=
       if Js.truthy_str (charging_state data)
       then Some (bool_decide (charging_state data = Some "Charging"%string))
       else None;
     upd_isPluggedIn :=
       if Js.truthy_str (charge_port_latch data)
       then Some (bool_decide (charge_port_latch data = Some "Engaged"%string))
       else None;
     upd_batteryLevel :=
       if Js.truthy_int (battery_level data)
       then battery_level data
       else None |}.

Definition keys_length (u : VehicleUpdate) : nat :=
  ((if upd_isCharging u is Some _ then 1 else 0)
   + (if upd_isPluggedIn u is Some _ then 1 else 0)
   + (if upd_batteryLevel u is Some _ then 1 else 0))%nat.

(** The merge that [update] performs on the fields of [vehicle]. *)
Definition applyVehicleUpdate (u : VehicleUpdate) (d : UserDoc) : UserDoc :=
  set_vehicle
    {| vin := vin (vehicle d);
       isCharging := default (isCharging (vehicle d)) (upd_isCharging u);
       isPluggedIn :=
         match upd_isPluggedIn u with
         | Some b => Some b
         | None => isPluggedIn (vehicle d)
         end;
       batteryLevel := default (batteryLevel (vehicle d)) (upd_batteryLevel u) |}
    d.

(** [usersRef.where('vehicle.vin', '==', vin).limit(1).get()] *)
Definition find_by_vin (v : string) : M (option (string * UserDoc)) :=
  fun w =>
    (Ok (List.find (fun ud => String.eqb (vin (vehicle (snd ud))) v)
           (map_to_list (users w))), w).

Definition telemetryWebhook (body : Body) : M Response :=
  log LogTelemetryReceived;;
  match body_vin body, data body with
  | Some v, Some data =>
      if negb (Js.truthy_str (Some v))
      then log LogInvalidTelemetry;;
           ret {| status := 400; sent := "Bad Request" |}
      else
        try_catch
          (let* snapshot := find_by_vin v in
           match snapshot with
           | None =>
               log (LogUnknownVin v);;
               ret {| status := 200; sent := "OK" |}
           | Some userDoc =>
               let userId := fst userDoc in
               let vehicleUpdate := vehicleUpdate data in
               (if (0 <? keys_length vehicleUpdate)%nat
                then update_user userId (applyVehicleUpdate vehicleUpdate);;
                     log (LogVehicleUpdated userId)
                else ret tt);;
               ret {| status := 200; sent := "OK" |}
           end)
          (fun error =>
             log (LogTelemetryError v error);;
             ret {| status := 500; sent := "Internal Server Error" |})
  | _, _ =>
      log LogInvalidTelemetry;;
      ret {| status := 400; sent := "Bad Request" |}
  end.

(** * The Command Dispatcher *)

Definition getTeslaAccessToken (env : Env) (refreshToken : string) : M string :=
  match tokenEndpoint env refreshToken with
  | Some access_token => ret access_token
  | None => throw RequestFailed
  end.

(** The request to the command endpoint is commented out in the source:
    the function obtains an access token and logs the action. *)
Definition sendTeslaChargeCommand (env : Env) (refreshToken v : string)
    (command : Decision) : M unit :=
  record_dispatch refreshToken v command;;
  try_catch
    (let* accessToken := getTeslaAccessToken env refreshToken in
     let action :=
       match command with
       | START => "charge_start"%string
       | STOP => "charge_stop"%string
       end in
     log (LogSendingCommand action v))
    (fun error => log (LogSendFailed v error)).

(** * [Function D] manageChargingLogic: Override Gate and Decision Policy *)

(** The [if / else if / else] chain of the decision logic. *)
Definition decisionRule (batteryLevel emergencyThreshold : Z) (currentPrice : float)
    (currentHour : Z) (optimalStartHour chargingDuration : option Z)
    (targetBattery : Z) : Rule :=
  if batteryLevel <? emergencyThreshold then Emergency
  else if (currentPrice <? 0)%float then Bonus
  else if Js.geb currentHour optimalStartHour
          && Js.lt_opt currentHour (Js.add optimalStartHour chargingDuration)
          && (batteryLevel <? targetBattery)
  then OptimalWindow
  else OutsideWindow.

(** The value of [decision] after the chain. *)
Definition decisionOf (r : Rule) : Decision :=
  match r with
  | OutsideWindow => STOP
  | _ => START
  end.

Definition decision (batteryLevel emergencyThreshold : Z) (currentPrice : float)
    (currentHour : Z) (optimalStartHour chargingDuration : option Z)
    (targetBattery : Z) : Decision :=
  decisionOf
    (decisionRule batteryLevel emergencyThreshold currentPrice currentHour
       optimalStartHour chargingDuration targetBattery).

(** The event of [onDocumentUpdated('users/{userId}')]. *)
Record Event := { before : UserDoc; after : UserDoc; userId : string }.

(** [afterData.chargeOverride === true && beforeData.chargeOverride !== true] *)
Definition overrideRequested (beforeData afterData : UserDoc) : bool :=
  Js.is_true (chargeOverride afterData)
  && negb (Js.is_true (chargeOverride beforeData)).

(** [beforeData.vehicle.isPluggedIn === false &&
     afterData.vehicle.isPluggedIn === true] *)
Definition justPluggedIn (beforeData afterData : UserDoc) : bool :=
  Js.is_false (isPluggedIn (vehicle beforeData))
  && Js.is_true (isPluggedIn (vehicle afterData)).

(** The smart-charging branch, after the plug-in check. *)
Definition smartCharging (env : Env) (afterData : UserDoc) (userId : string) : M unit :=
  log (LogPluggedIn userId);;
  match settings afterData with
  | None => throw TypeError
  | Some settings =>
      let vehicle := vehicle afterData in
      try_catch
        (let* priceDoc := get_prices in
         match priceDoc with
         | None => throw EnergyPricesNotFound
         | Some priceDoc =>
             match hourlyRates priceDoc with
             | None => throw TypeError
             | Some prices =>
                 let currentHour := getHours env in
                 match Js.get prices currentHour with
                 | None => throw TypeError
                 | Some rate =>
                     let currentPrice := price rate in
                     let rule :=
                       decisionRule (batteryLevel vehicle)
                         (emergencyThreshold settings) currentPrice currentHour
                         (optimalStartHour settings) (chargingDuration settings)
                         (targetBattery settings) in
                     log (LogDecision userId (decisionOf rule) rule);;
                     sendTeslaChargeCommand env (teslaRefreshToken afterData)
                       (vin vehicle) (decisionOf rule)
                 end
             end
         end)
        (fun error => log (LogChargingError userId error))
  end.

Definition manageChargingLogic (env : Env) (event : Event) : M unit :=
  let beforeData := before event in
  let afterData := after event in
  let userId := userId event in
  if overrideRequested beforeData afterData
  then
    log (LogOverrideDetected userId);;
    try_catch
      (sendTeslaChargeCommand env (teslaRefreshToken afterData)
         (vin (vehicle afterData)) START;;
       update_user userId (set_chargeOverride false);;
       log (LogOverrideReset userId))
      (fun error =>
         log (LogOverrideError userId error);;
         update_user userId (set_chargeOverride false))
  else if justPluggedIn beforeData afterData
  then smartCharging env afterData userId
  else ret tt.

(** * Auxiliary definitions for the statements *)

(** The final store and the outcome of a run. *)
Definition run {A} (m : M A) (w : World) : World := snd (m w).
Definition outcome {A} (m : M A) (w : World) : Result A := fst (m w).

(** The log entries written between two states of the store. *)
Definition new_logs (w w' : World) : list LogEntry :=
  drop (length (logs w)) (logs w').

(** The plug-in transition notification is the message
    [`Car plugged in for user ...`]. *)
Definition is_plug_in_notification (e : LogEntry) : bool :=
  match e with LogPluggedIn _ => true | _ => false end.

(** A message of the decision logic. *)
Definition is_decision_log (e : LogEntry) : bool :=
  match e with LogDecision _ _ _ => true | _ => false end.

Definition notifications (l : list LogEntry) : nat :=
  length (List.filter is_plug_in_notification l).

Definition decisions_logged (l : list LogEntry) : nat :=
  length (List.filter is_decision_log l).

(** Invariant of the window loop once the start hours below [k] have been
    tried, for the averages [f], when one of them was below [Infinity]:
    no average is below the best one, and the averages before it are
    above it or [NaN]. *)
Definition tried (f : Z -> float) (k : Z) (b : Best) : Prop :=
  0 <= bestStartHour b < k /\
  lowestAveragePrice b = f (bestStartHour b) /\
  (f (bestStartHour b) <? infinity)%float = true /\
  (forall j, 0 <= j < k -> (f j <? f (bestStartHour b))%float = false) /\
  (forall j, 0 <= j < bestStartHour b ->
     (f (bestStartHour b) <? f j)%float = true \/ is_nan (f j) = true).

(** The state of the loop as long as no average was below [Infinity]. *)
Definition fresh (f : Z -> float) (k : Z) (b : Best) : Prop :=
  b = {| bestStartHour := -1; lowestAveragePrice := infinity |} /\
  (forall j, 0 <= j < k -> (f j <? infinity)%float = false).

(** The price list that [calculateOptimalWindow] derives from the price
    document. *)
Definition prices_of (priceData : PriceDoc) : list float :=
  match hourlyRates priceData with
  | Some hourlyRates => map price (Js.values hourlyRates)
  | None => []
  end.

(** A user for whom no window is written: no settings, a falsy
    [chargingDuration], or a duration longer than the series. *)
Definition no_window (prices : list float) (d : UserDoc) : Prop :=
  match settings d with
  | None => True
  | Some s =>
      match chargingDuration s with
      | None => True
      | Some h => h = 0 \/ Z.of_nat (length prices) < h
      end
  end.

(** [currentHour] lies in
    [[optimalStartHour, optimalStartHour + chargingDuration)]. *)
Definition in_window (currentHour : Z) (optimalStartHour chargingDuration : option Z) : Prop :=
  exists o d, optimalStartHour = Some o /\ chargingDuration = Some d /\
              o <= currentHour < o + d.

(** The telemetry data with every falsy field removed. *)
Definition strip_falsy (data : TelemetryData) : TelemetryData :=
  {| charging_state :=
       if Js.truthy_str (charging_state data) then charging_state data else None;
     charge_port_latch :=
       if Js.truthy_str (charge_port_latch data) then charge_port_latch data else None;
     battery_level :=
       if Js.truthy_int (battery_level data) then battery_level data else None |}.

(** The positions of the points are exactly 1..N, N the number of points. *)
Definition contiguous_positions (points : list RawPoint) : bool :=
  forallb
    (fun i => existsb (fun pt => bool_decide (position pt = Js.Num (Z.of_nat i))) points)
    (seq 1 (length points)).

(** The period and the non-empty list of points that the normalizer
    reads, when the document has them. *)
Definition relevant_points (parsedData : MarketDocument) : option (Js.Field * list RawPoint) :=
  match TimeSeries parsedData with
  | None | Some [] => None
  | Some (ts0 :: tss) =>
      match Period (List.last tss ts0) with
      | [] => None
      | period :: _ =>
          match Point period with
          | None | Some [] => None
          | Some points => Some (timeInterval_start period, points)
          end
      end
  end.

(** A point on which the callback throws: the position or the price
    element is missing, the position is not a number, or the time of the
    point is not a valid Date. *)
Definition bad_point (periodStartTime : option Z) (pt : RawPoint) : Prop :=
  position pt = Js.Missing \/ position pt = Js.NaN \/
  price_amount pt = None \/
  exists z, position pt = Js.Num z /\
            addHours periodStartTime (Js.round (Js.round z - 1)) = None.

(** The feeds the normalizer rejects: no TimeSeries, Period or point, a
    period start that is missing or not a Date, or a point on which the
    callback throws. *)
Definition rejected (parsedData : MarketDocument) : Prop :=
  match relevant_points parsedData with
  | None => True
  | Some (periodStart, points) =>
      Js.newDate periodStart = None \/
      Exists (bad_point (Js.newDate periodStart)) points
  end.

(** The rejection condition of the specification. *)
Definition malformed_feed (parsedData : MarketDocument) : Prop :=
  match relevant_points parsedData with
  | None => True
  | Some (periodStart, points) =>
      Js.newDate periodStart = None \/ contiguous_positions points = false
  end.

(** Feeds of the usual kind: the period starts at or after the epoch at
    the instant [t], every point has a position of at least 1 and a
    price, and its time [t + (position - 1) hours] is within the range
    of Date. *)
Definition publishable (t : Z) (points : list RawPoint) : Prop :=
  0 <= t /\
  Forall (fun pt => exists p amount,
            position pt = Js.Num p /\ price_amount pt = Some amount /\
            1 <= p /\ t + (p - 1) * 3600000 <= 8640000000000000) points.

(** The log entry that [sendTeslaChargeCommand] writes: the action when the
    token exchange succeeds, the failure otherwise. *)
Definition dispatch_log (env : Env) (refreshToken v : string) (command : Decision) : LogEntry :=
  match tokenEndpoint env refreshToken with
  | Some _ =>
      LogSendingCommand
        (match command with
         | START => "charge_start"%string
         | STOP => "charge_stop"%string
         end) v
  | None => LogSendFailed v RequestFailed
  end.

(** The price of the current hour as the smart-charging branch reads it,
    or the error it throws. *)
Definition currentPrice (env : Env) (w : World) : Result float :=
  match energy_prices w with
  | None => Throw EnergyPricesNotFound
  | Some priceDoc =>
      match hourlyRates priceDoc with
      | None => Throw TypeError
      | Some prices =>
          match Js.get prices (getHours env) with
          | None => Throw TypeError
          | Some rate => Ok (price rate)
          end
      end
  end.

(** The store with further log entries. *)
Definition add_logs (w : World) (l : list LogEntry) : World :=
  {| users := users w; energy_prices := energy_prices w;
     logs := logs w ++ l; dispatched := dispatched w |}.

(** * [Function E] exchangeAuthCodeForToken *)

Module Callable.

(** What the callable throws.  Each [throw new functions.https.HttpsError(...)]
    of the source first evaluates the identifier [functions], which the
    file never declares: a [ReferenceError].  Reading [request.data.code]
    when the caller sent no payload is a [TypeError]. *)
Inductive Thrown := ReferenceError | TypeError.

(** What the [try] block can raise: an error of the store or of the HTTP
    request, or ['Refresh token not found in Tesla response.']. *)
Inductive Failure :=
| Raised (e : Error)
| RefreshTokenMissing.

(** The calls of [logger] of this function. *)
Inductive CallLog :=
| LogExchanging (userId : string)
| LogTokenStored (userId : string)
| LogExchangeError (userId : string) (f : Failure).

(** [request.auth.uid], [request.data] and [request.data.code]. *)
Record Payload := { code : option string }.

Record Request := { auth : option string; data : option Payload }.

Record Reply := { success : bool; message : string }.

Definition set_teslaRefreshToken (t : string) (d : UserDoc) : UserDoc :=
  {| settings := settings d; vehicle := vehicle d;
     teslaRefreshToken := t;
     chargeOverride := chargeOverride d |}.

(** [tokenRequest] is the answer of Tesla's token endpoint to an
    authorization code: the field [refresh_token] of the response, or the
    failure of the request. *)
Definition exchangeAuthCodeForToken (tokenRequest : string -> Result (option string))
    (request : Request) (w : World) : (Reply + Thrown) * World * list CallLog :=
  match auth request with
  | None => (inr ReferenceError, w, [])
  | Some userId =>
      match data request with
      | None => (inr TypeError, w, [])
      | Some payload =>
          if negb (Js.truthy_str (code payload))
          then (inr ReferenceError, w, [])
          else
            let authCode := default ""%string (code payload) in
            match tokenRequest authCode with
            | Throw e =>
                (inr ReferenceError, w,
                 [LogExchanging userId; LogExchangeError userId (Raised e)])
            | Ok refresh_token =>
                if negb (Js.truthy_str refresh_token)
                then
                  (inr ReferenceError, w,
                   [LogExchanging userId;
                    LogExchangeError userId RefreshTokenMissing])
                else
                  let refreshToken := default ""%string refresh_token in
                  match update_user userId (set_teslaRefreshToken refreshToken) w with
                  | (Ok _, w') =>
                      (inl {| success := true;
                              message := "Tesla account connected!" |},
                       w', [LogExchanging userId; LogTokenStored userId])
                  | (Throw e, w') =>
                      (inr ReferenceError, w',
                       [LogExchanging userId; LogExchangeError userId (Raised e)])
                  end
            end
      end
  end.

(** The three components of the result. *)
Definition reply (r : (Reply + Thrown) * World * list CallLog) : Reply + Thrown :=
  r.1.1.

Definition store_after (r : (Reply + Thrown) * World * list CallLog) : World :=
  r.1.2.

Definition call_logs (r : (Reply + Thrown) * World * list CallLog) : list CallLog :=
  r.2.

End Callable.

(** * Further definitions for the statements *)

(** The start hour that [calculateOptimalWindow] writes for a user, if it
    writes one. *)
Definition windowOf (prices : list float) (d : UserDoc) : option Z :=
  match settings d with
  | None => None
  | Some s =>
      match chargingDuration s with
      | None => None
      | Some h =>
          if (h =? 0) || (selectWindow prices h =? -1) then None
          else Some (selectWindow prices h)
      end
  end.

Definition withWindow (prices : list float) (d : UserDoc) : UserDoc :=
  match windowOf prices d with
  | Some h => set_optimalStartHour h d
  | None => d
  end.

(** The batch entry of a user. *)
Definition batchOp (prices : list float) (userDoc : string * UserDoc) : option (string * Z) :=
  match windowOf prices (snd userDoc) with
  | Some h => Some (fst userDoc, h)
  | None => None
  end.

(** The entry that the callback adds for a point, when it does not
    throw: the hour and the rate. *)
Definition point_entry (periodStartTime : option Z) (pt : RawPoint) : option (Z * Rate) :=
  match position pt, price_amount pt with
  | Js.Num z, Some amount =>
      let hour := Js.round (Js.round z - 1) in
      match addHours periodStartTime hour with
      | Some t => Some (hour, {| price := (amount / 1000)%float; time := t |})
      | None => None
      end
  | _, _ => None
  end.

(** The object that the loop over the points builds on [acc]. *)
Definition entriesOf (periodStartTime : option Z) (points : list RawPoint)
    (acc : Js.obj Rate) : Js.obj Rate :=
  fold_left
    (fun o pt =>
       match point_entry periodStartTime pt with
       | Some (hour, rate) => Js.set o hour rate
       | None => o
       end)
    points acc.

(** The rate published for a point at [position] with the raw price
    [amount], for the period start [t]: the price divided by 1000, at
    [position - 1] hours after the start. *)
Definition rateOf (t : Z) (position : Z) (amount : float) : Rate :=
  {| price := (amount / 1000)%float; time := t + (position - 1) * 3600000 |}.

(** The object with each point stored under hour = position - 1. *)
Definition ratesOf (t : Z) (points : list RawPoint) (acc : Js.obj Rate) : Js.obj Rate :=
  fold_left
    (fun o pt =>
       match position pt, price_amount pt with
       | Js.Num p, Some amount => Js.set o (p - 1) (rateOf t p amount)
       | _, _ => o
       end)
    points acc.

(** A day of 25 hours (the end of daylight saving time), cheapest at its
    last two hours. *)
Definition long_day : list float :=
  map Js.of_Z
    [9; 9; 9; 9; 9; 9; 9; 9; 9; 9; 9; 9; 9; 9; 9; 9; 9; 9; 9; 9; 9; 9; 9; 2; 2].

(** A day whose windows of three hours starting at 0 and at 2 hold the
    same prices, 0.1, 0.2 and 0.3, in opposite orders (the literals are
    the doubles nearest to the decimal prices). *)
Definition tie_day : list float :=
  [0x1.999999999999ap-4; 0x1.999999999999ap-3; 0x1.3333333333333p-2;
   0x1.999999999999ap-3; 0x1.999999999999ap-4]%float
  ++ repeat 0x1.ccccccccccccdp-1%float 19.

(** A feed of three points in document order. *)
Definition ordered_feed : MarketDocument :=
  {| TimeSeries :=
       Some [ {| Period :=
                   [ {| timeInterval_start := Js.Num 0;
                        Point := Some [ {| position := Js.Num 1; price_amount := Some 50%float |};
                                        {| position := Js.Num 2; price_amount := Some 70%float |};
                                        {| position := Js.Num 3; price_amount := Some 60%float |} ] |} ] |} ] |}.

(** * Sample data *)

Definition sample_env (hour : Z) (exchange_ok : bool) : Env :=
  {| now := 1700000000000;
     getHours := hour;
     tokenEndpoint := fun _ => if exchange_ok then Some "access"%string else None |}.

Definition sample_settings : Settings :=
  {| chargingDuration := Some 4; emergencyThreshold := 20;
     targetBattery := 80; optimalStartHour := Some 2 |}.

Definition sample_user (plugged : option bool) (level : Z) (override : option bool) : UserDoc :=
  {| settings := Some sample_settings;
     vehicle := {| vin := "5YJ3E1EA7KF000001"; isCharging := false;
                   isPluggedIn := plugged; batteryLevel := level |};
     teslaRefreshToken := "refresh";
     chargeOverride := override |}.

(** A day of prices, all equal to [p]. *)
Definition flat_rates (p : float) : Js.obj Rate :=
  map (fun h => (Z.of_nat h, {| price := p; time := Z.of_nat h * 3600000 |}))
    (seq 0 24).

Definition sample_world (d : UserDoc) (p : float) : World :=
  {| users := {[ "u1"%string := d ]};
     energy_prices := Some {| lastUpdated := 0; hourlyRates := Some (flat_rates p) |};
     logs := [];
     dispatched := [] |}.

(** A feed whose two points have the positions 1 and 3. *)
Definition gap_feed : MarketDocument :=
  {| TimeSeries :=
       Some [ {| Period :=
                   [ {| timeInterval_start := Js.Num 0;
                        Point := Some [ {| position := Js.Num 1; price_amount := Some 50%float |};
                                        {| position := Js.Num 3; price_amount := Some 70%float |} ] |} ] |} ] |}.

(** The update events of a plug-in and of an override request. *)
Definition plug_in_event (level : Z) : Event :=
  {| before := sample_user (Some false) level None;
     after := sample_user (Some true) level None;
     userId := "u1" |}.

Definition override_event (plugged_before : option bool) (level : Z) : Event :=
  {| before := sample_user plugged_before level None;
     after := sample_user (Some true) level (Some true);
     userId := "u1" |}.

(** A user who asks for thirty hours of charging. *)
Definition long_duration_user : UserDoc :=
  {| settings :=
       Some {| chargingDuration := Some 30; emergencyThreshold := 20;
               targetBattery := 80; optimalStartHour := Some 7 |};
     vehicle := vehicle (sample_user None 50 None);
     teslaRefreshToken := "refresh";
     chargeOverride := None |}.

Definition telemetry (state latch : option string) (level : option Z) : Body :=
  {| body_vin := Some "5YJ3E1EA7KF000001"%string;
     data := Some {| charging_state := state; charge_port_latch := latch;
                     battery_level := level |} |}.

(** * Properties of JavaScript numbers *)

Section Doubles.

Local Ltac cmp :=
  repeat match goal with
  | |- context [Pos.compare_cont Eq ?a ?b] =>
      change (Pos.compare_cont Eq a b) with (Pos.compare a b);
      destruct (Pos.compare_spec a b)
  | |- context [Z.compare ?a ?b] => destruct (Z.compare_spec a b)
  | H : context [Pos.compare_cont Eq ?a ?b] |- _ =>
      change (Pos.compare_cont Eq a b) with (Pos.compare a b) in H;
      destruct (Pos.compare_spec a b)
  | H : context [Z.compare ?a ?b] |- _ => destruct (Z.compare_spec a b)
  end.

Lemma SFltb_irrefl x : SFltb x x = false.
Proof.
  unfold SFltb, SFcompare. destruct x as [[]|[]| |[] m e]; simpl; try done;
    rewrite Z.compare_refl, Pos.compare_cont_refl; done.
Qed.

Lemma SFltb_trans x y z :
  SFltb x y = true -> SFltb y z = true -> SFltb x z = true.
Proof.
  unfold SFltb, SFcompare.
  destruct x as [[]|[]| |[] mx ex], y as [[]|[]| |[] my ey],
           z as [[]|[]| |[] mz ez];
    simpl; try done; intros H1 H2; cmp; simpl in *; try done; try lia.
Qed.

Lemma SFltb_cotrans x y z :
  SFltb x y = true -> SFltb z y = false -> z = S754_nan \/ SFltb x z = true.
Proof.
  unfold SFltb, SFcompare.
  destruct x as [[]|[]| |[] mx ex], y as [[]|[]| |[] my ey],
           z as [[]|[]| |[] mz ez];
    simpl; try done; intros H1 H2; try (by left); right; cmp; simpl in *;
    try done; try lia.
Qed.

Lemma SFltb_below_infinity x y :
  SFltb x y = true -> SFltb x (S754_infinity false) = true.
Proof.
  unfold SFltb, SFcompare.
  destruct x as [[]|[]| |[] mx ex], y as [[]|[]| |[] my ey]; simpl; done.
Qed.

Lemma SFltb_infinity_false x y :
  SFltb x (S754_infinity false) = false -> SFltb x y = false.
Proof.
  unfold SFltb, SFcompare.
  destruct x as [[]|[]| |[] mx ex], y as [[]|[]| |[] my ey]; simpl; done.
Qed.

Lemma SFltb_infinity_above x y :
  SFltb x (S754_infinity false) = false ->
  SFltb y (S754_infinity false) = true ->
  SFltb y x = true \/ x = S754_nan.
Proof.
  unfold SFltb, SFcompare.
  destruct x as [[]|[]| |[] mx ex], y as [[]|[]| |[] my ey]; simpl;
    try done; intros _ _; try (by left); by right.
Qed.

Lemma SFeqb_refl_nan x : SFeqb x x = false <-> x = S754_nan.
Proof.
  unfold SFeqb, SFcompare. destruct x as [[]|[]| |[] m e]; simpl; split;
    try done; rewrite Z.compare_refl, Pos.compare_cont_refl; done.
Qed.

(** [x] is [NaN]. *)
Lemma is_nan_spec (x : float) : is_nan x = true <-> Prim2SF x = S754_nan.
Proof.
  unfold is_nan. rewrite eqb_spec, negb_true_iff. apply SFeqb_refl_nan.
Qed.

(** [<] on doubles is a strict order in which [NaN] is below and above
    nothing. *)
Lemma ltb_irrefl (x : float) : (x <? x)%float = false.
Proof. rewrite ltb_spec. apply SFltb_irrefl. Qed.

Lemma ltb_trans (x y z : float) :
  (x <? y)%float = true -> (y <? z)%float = true -> (x <? z)%float = true.
Proof. rewrite !ltb_spec. apply SFltb_trans. Qed.

Lemma ltb_cotrans (x y z : float) :
  (x <? y)%float = true -> (z <? y)%float = false ->
  (x <? z)%float = true \/ is_nan z = true.
Proof.
  rewrite !ltb_spec, is_nan_spec. intros H1 H2.
  destruct (SFltb_cotrans _ _ _ H1 H2); [by right | by left].
Qed.

Lemma ltb_below_infinity (x y : float) :
  (x <? y)%float = true -> (x <? infinity)%float = true.
Proof. rewrite !ltb_spec. apply SFltb_below_infinity. Qed.

Lemma ltb_infinity_false (x y : float) :
  (x <? infinity)%float = false -> (x <? y)%float = false.
Proof. rewrite !ltb_spec. apply SFltb_infinity_false. Qed.

Lemma ltb_infinity_above (x y : float) :
  (x <? infinity)%float = false -> (y <? infinity)%float = true ->
  (y <? x)%float = true \/ is_nan x = true.
Proof. rewrite !ltb_spec, is_nan_spec. apply SFltb_infinity_above. Qed.

Lemma nan_ltb (x y : float) : is_nan x = true -> (x <? y)%float = false.
Proof.
  rewrite is_nan_spec, ltb_spec. intros ->. reflexivity.
Qed.

(** [NaN] propagates through [+] and [/]. *)
Lemma add_nan_l (x y : float) : is_nan x = true -> is_nan (x + y) = true.
Proof.
  rewrite !is_nan_spec, add_spec. intros ->. reflexivity.
Qed.

Lemma add_nan_r (x y : float) : is_nan y = true -> is_nan (x + y) = true.
Proof.
  rewrite !is_nan_spec, add_spec. intros ->.
  by destruct (Prim2SF x) as [[]|[]| |].
Qed.

Lemma div_nan_l (x y : float) : is_nan x = true -> is_nan (x / y) = true.
Proof.
  rewrite !is_nan_spec, div_spec. intros ->. reflexivity.
Qed.

(** Integers up to [2^53] are doubles; rounding a larger one does not
    bring it below [2^53]. *)
Lemma round_small (z : Z) : Z.abs z <= 9007199254740992 -> Js.round z = z.
Proof.
  change 9007199254740992 with (2 ^ 53).
  intros Hz. unfold Js.round. by destruct (Z.leb_spec (Z.abs z) (2 ^ 53)); [|lia].
Qed.

Lemma round_ge (z : Z) : 0 <= z -> Z.min z 9007199254740992 <= Js.round z.
Proof.
  change 9007199254740992 with (2 ^ 53).
  intros Hz. unfold Js.round.
  destruct (Z.leb_spec (Z.abs z) (2 ^ 53)) as [|Hbig]; [lia|].
  rewrite Z.abs_eq in * by lia.
  assert (Hlog : 53 <= Z.log2 z) by (apply Z.log2_le_pow2; lia).
  set (e := Z.log2 z - 52).
  assert (He : 1 <= e) by (unfold e; lia).
  assert (Hpow : 2 ^ 52 * 2 ^ e <= z).
  { rewrite <- Z.pow_add_r by lia. replace (52 + e) with (Z.log2 z) by (unfold e; lia).
    apply Z.log2_spec. lia. }
  assert (H2e : 2 <= 2 ^ e).
  { change 2 with (2 ^ 1) at 1. apply Z.pow_le_mono_r; lia. }
  assert (Hq : 2 ^ 52 <= z / 2 ^ e) by (apply Z.div_le_lower_bound; lia).
  set (q := z / 2 ^ e) in *.
  set (q' := if z mod 2 ^ e <? 2 ^ (e - 1) then q
             else if 2 ^ (e - 1) <? z mod 2 ^ e then q + 1
             else if Z.even q then q else q + 1).
  assert (Hq' : q <= q').
  { unfold q'. repeat case_match; lia. }
  rewrite Z.sgn_pos by lia.
  rewrite Z.min_r by lia.
  change (2 ^ 53) with (2 ^ 52 * 2).
  nia.
Qed.

End Doubles.

(** * Properties of the Window Selector *)

Example slice_window_example :
  Js.slice [1; 2; 3; 4; 5] 1 (1 + 3) = [2; 3; 4].
Proof. reflexivity. Qed.

Example slice_negative_end : Js.slice [1; 2; 3; 4; 5] 1 (-1) = [2; 3; 4].
Proof. reflexivity. Qed.

Example slice_past_the_end : Js.slice [1; 2; 3] 2 7 = [3].
Proof. reflexivity. Qed.

Example set_keeps_enumeration_order :
  map fst (Js.set (Js.set (Js.set (Js.set [] 2 true) (-1) true) 0 false) 2 false)
  = [0; 2; -1].
Proof. reflexivity. Qed.

Example set_beyond_array_indices :
  map fst (Js.set (Js.set (Js.set [] 4294967295 true) 7 true) 4294967294 true)
  = [7; 4294967294; 4294967295].
Proof. reflexivity. Qed.

Example round_is_the_rounding_of_doubles :
  map Js.of_Z (map Js.round [2 ^ 53 + 1; 2 ^ 53 + 3; - (2 ^ 54 + 2); 2 ^ 60 + 2 ^ 7 + 1])
  = map Js.of_Z [2 ^ 53 + 1; 2 ^ 53 + 3; - (2 ^ 54 + 2); 2 ^ 60 + 2 ^ 7 + 1] /\
  map Js.round [2 ^ 53 + 1; 2 ^ 53 + 3; - (2 ^ 54 + 2)]
  = [2 ^ 53; 2 ^ 53 + 4; - 2 ^ 54].
Proof. split; vm_compute; reflexivity. Qed.

Example selectWindow_first_of_ties :
  selectWindow (map Js.of_Z [3; 1; 2; 1; 2; 1]) 2 = 1.
Proof. vm_compute. reflexivity. Qed.

Example selectWindow_too_long : selectWindow (map Js.of_Z [3; 1; 2]) 4 = -1.
Proof. vm_compute. reflexivity. Qed.

(** The prices of [tie_day] are 0.1, 0.2, 0.3, 0.2, 0.1 and then 0.9, as
    doubles. *)
Example tie_day_prices :
  tie_day =
  map (fun k => (Js.of_Z k / 10)%float)
    ([1; 2; 3; 2; 1] ++ repeat 9 19).
Proof. vm_compute. reflexivity. Qed.

(** Rounding depends on the order of the additions. *)
Example mean_depends_on_order :
  (mean tie_day 2 3 <? mean tie_day 0 3)%float = true /\
  (exact_mean tie_day 2 3 == exact_mean tie_day 0 3)%Q.
Proof. split; vm_compute; reflexivity. Qed.

(** A price of [Infinity] or [NaN] in every window leaves the loop without
    a start hour. *)
Example selectWindow_no_finite_mean :
  selectWindow (repeat infinity 24) 1 = -1 /\
  selectWindow (repeat nan 24) 1 = -1.
Proof. split; vm_compute; reflexivity. Qed.

Example decision_bonus :
  decision 50 20 (-0.0625)%float 10 (Some 2) (Some 4) 80 = START.
Proof. reflexivity. Qed.

Example decision_unset_window :
  decision 50 20 0.25%float 3 None (Some 4) 80 = STOP.
Proof. reflexivity. Qed.

(** A [NaN] price is not negative: the bonus rule does not fire. *)
Example decision_nan_price :
  decisionRule 50 20 nan 3 (Some 2) (Some 4) 80 = OptimalWindow /\
  decisionRule 50 20 nan 9 (Some 2) (Some 4) 80 = OutsideWindow.
Proof. split; reflexivity. Qed.

Section WindowSelector.

Lemma slice_window {A} (l : list A) (s d : Z) :
  0 <= s -> 0 <= d -> s + d <= Z.of_nat (length l) ->
  Js.slice l s (s + d) = firstn (Z.to_nat d) (skipn (Z.to_nat s) l).
Proof.
  intros Hs Hd Hlen. unfold Js.slice, Js.rel_index.
  destruct (Z.ltb_spec s 0); [lia|].
  destruct (Z.ltb_spec (s + d) 0); [lia|].
  rewrite !Z.min_l by lia.
  by replace (s + d - s) with d by lia.
Qed.

(** [reduce] adds the prices of the window in the order of the indices. *)
Lemma sum_window (l : list float) (d s : nat) (acc : float) :
  (s + d <= length l)%nat ->
  fold_left PrimFloat.add (firstn d (skipn s l)) acc = sum_from l s d acc.
Proof.
  revert s acc. induction d as [|d IH]; intros s acc Hlen.
  - reflexivity.
  - destruct (lookup_lt_is_Some_2 l s) as [x Hx]; [lia|].
    rewrite (drop_S l x s Hx). simpl.
    rewrite (nth_lookup_Some _ _ _ _ Hx).
    apply IH. lia.
Qed.

Lemma averagePrice_mean (prices : list float) (d s : Z) :
  0 <= s -> 0 <= d -> s + d <= Z.of_nat (length prices) ->
  averagePrice prices d s = mean prices s d.
Proof.
  intros Hs Hd Hlen. unfold averagePrice, mean, Js.sum.
  rewrite slice_window by lia.
  by rewrite sum_window by lia.
Qed.

(** A [NaN] price makes the sum of its window, and so its mean, [NaN]. *)
Lemma sum_from_nan_acc (l : list float) (d s : nat) (acc : float) :
  is_nan acc = true -> is_nan (sum_from l s d acc) = true.
Proof.
  revert s acc. induction d as [|d IH]; intros s acc Hacc; [done|].
  simpl. apply IH. by apply add_nan_l.
Qed.

Lemma sum_from_nan (l : list float) (d s i : nat) (acc : float) :
  (s <= i < s + d)%nat -> is_nan (nth i l 0%float) = true ->
  is_nan (sum_from l s d acc) = true.
Proof.
  revert s acc. induction d as [|d IH]; intros s acc Hi Hnan; [lia|].
  simpl. destruct (decide (i = s)) as [->|Hne].
  - apply sum_from_nan_acc. by apply add_nan_r.
  - apply IH; [lia | done].
Qed.

Lemma mean_nan (prices : list float) (s d i : Z) :
  0 <= s -> s <= i < s + d -> is_nan (nth (Z.to_nat i) prices 0%float) = true ->
  is_nan (mean prices s d) = true.
Proof.
  intros Hs Hi Hnan. unfold mean. apply div_nan_l.
  apply (sum_from_nan _ _ _ (Z.to_nat i)); [lia | done].
Qed.

Variable prices : list float.
Variable hoursNeeded : Z.

Let f := averagePrice prices hoursNeeded.
Let inv (k : Z) (b : Best) : Prop := fresh f k b \/ tried f k b.

Lemma window_step_inv (k : Z) (b : Best) :
  0 <= k -> inv k b -> inv (k + 1) (window_step prices hoursNeeded k b).
Proof.
  intros Hk [[-> Hnone] | (Hr & Hl & Hfin & Hmin & Hfirst)];
    unfold window_step; simpl; fold f.
  - destruct (f k <? infinity)%float eqn:E.
    + right. split; [simpl; lia|]. split; [done|]. split; [done|]. split; simpl.
      * intros j Hj. destruct (decide (j = k)) as [->|Hne].
        -- apply ltb_irrefl.
        -- apply ltb_infinity_false. apply Hnone. lia.
      * intros j Hj. apply ltb_infinity_above; [|done]. apply Hnone. lia.
    + left. split; [done|].
      intros j Hj. destruct (decide (j = k)) as [->|Hne]; [done|].
      apply Hnone. lia.
  - rewrite Hl.
    destruct (f k <? f (bestStartHour b))%float eqn:E.
    + right. split; [simpl; lia|]. split; [done|]. simpl. split; [|split].
      * by apply (ltb_below_infinity _ _ E).
      * intros j Hj. destruct (decide (j = k)) as [->|Hne].
        -- apply ltb_irrefl.
        -- destruct (f j <? f k)%float eqn:Ejk; [|done].
           rewrite <- (Hmin j) by lia. symmetry.
           by apply (ltb_trans _ _ _ Ejk E).
      * intros j Hj.
        destruct (Z_lt_le_dec j (bestStartHour b)) as [Hlt|Hge].
        -- destruct (Hfirst j) as [Hbj|Hnan]; [lia | | by right].
           left. by apply (ltb_trans _ _ _ E Hbj).
        -- apply (ltb_cotrans _ _ _ E). apply Hmin. lia.
    + right. split; [lia|]. split; [done|]. split; [done|]. split; [|done].
      intros j Hj. destruct (decide (j = k)) as [->|Hne]; [done|].
      apply Hmin. lia.
Qed.

Lemma window_loop_inv (n : nat) (k : Z) (b : Best) :
  0 <= k -> inv k b ->
  inv (k + Z.of_nat n) (window_loop prices hoursNeeded n k b).
Proof.
  revert k b. induction n as [|n IH]; intros k b Hk Hpre.
  - simpl. by rewrite Z.add_0_r.
  - simpl window_loop.
    replace (k + Z.of_nat (S n)) with (k + 1 + Z.of_nat n) by lia.
    apply IH; [lia|]. by apply window_step_inv.
Qed.

(** The state of the loop at its exit. *)
Lemma selectWindow_inv :
  let n := Z.to_nat (Z.of_nat (length prices) - hoursNeeded + 1) in
  inv (Z.of_nat n)
    (window_loop prices hoursNeeded n 0
       {| bestStartHour := -1; lowestAveragePrice := infinity |}).
Proof.
  intros n. change (Z.of_nat n) with (0 + Z.of_nat n).
  apply window_loop_inv; [lia|]. left. split; [done|]. intros j Hj. lia.
Qed.

(** With no admissible start hour the loop body never runs. *)
Lemma selectWindow_none :
  Z.of_nat (length prices) < hoursNeeded ->
  selectWindow prices hoursNeeded = -1.
Proof.
  intros Hd. unfold selectWindow.
  by replace (Z.to_nat (Z.of_nat (length prices) - hoursNeeded + 1)) with O by lia.
Qed.

(** The result of the loop in terms of the averages it computes. *)
Lemma selectWindow_averages :
  let n := Z.of_nat (length prices) in
  let s := selectWindow prices hoursNeeded in
  (s = -1 /\
   forall j, 0 <= j <= n - hoursNeeded -> (f j <? infinity)%float = false) \/
  (0 <= s <= n - hoursNeeded /\
   (f s <? infinity)%float = true /\
   (forall j, 0 <= j <= n - hoursNeeded -> (f j <? f s)%float = false) /\
   (forall j, 0 <= j < s -> (f s <? f j)%float = true \/ is_nan (f j) = true)).
Proof.
  intros n s. unfold s, selectWindow.
  destruct selectWindow_inv as [[-> Hnone] | (Hr & _ & Hfin & Hmin & Hfirst)].
  - left. split; [done|]. intros j Hj. apply Hnone. lia.
  - right. split; [lia|]. split; [done|]. split; [|done].
    intros j Hj. apply Hmin. lia.
Qed.

End WindowSelector.

(** The selected start hour for a duration that fits the series, in terms
    of the means of the windows. *)
Lemma selectWindow_general (prices : list float) (d : Z) :
  let n := Z.of_nat (length prices) in
  1 <= d <= n ->
  let s := selectWindow prices d in
  (s = -1 /\
   forall s', 0 <= s' <= n - d -> (mean prices s' d <? infinity)%float = false) \/
  (0 <= s <= n - d /\
   (mean prices s d <? infinity)%float = true /\
   (forall s', 0 <= s' <= n - d ->
      (mean prices s' d <? mean prices s d)%float = false) /\
   (forall s', 0 <= s' < s ->
      (mean prices s d <? mean prices s' d)%float = true \/
      is_nan (mean prices s' d) = true)).
Proof.
  intros n Hd s.
  assert (Heq : forall j, 0 <= j <= n - d ->
            averagePrice prices d j = mean prices j d).
  { intros j Hj. apply averagePrice_mean; lia. }
  pose proof (selectWindow_averages prices d) as H. cbv zeta in H.
  change (selectWindow prices d) with s in H.
  change (Z.of_nat (length prices)) with n in H.
  destruct H as [[Hs Hnone] | (Hs & Hfin & Hmin & Hfirst)].
  - left. split; [done|]. intros s' Hs'. rewrite <- Heq by lia. by apply Hnone.
  - right. split; [done|]. rewrite <- (Heq s) by lia. split; [done|]. split.
    + intros s' Hs'. rewrite <- Heq by lia. by apply Hmin.
    + intros s' Hs'. rewrite <- Heq by lia. by apply Hfirst.
Qed.

(** C1 as stated fails: on [tie_day] with d = 3 the loop returns 2, while
    start hour 0 has the least arithmetic mean of all valid start hours
    (the windows at 0 and at 2 hold the same three prices): the returned
    hour is not the smallest minimizing one. *)
Lemma selectWindow_rounding_breaks_tie :
  let s := selectWindow tie_day 3 in
  length tie_day = 24%nat /\
  s = 2 /\
  (forall s', 0 <= s' <= 24 - 3 ->
     (exact_mean tie_day 0 3 <= exact_mean tie_day s' 3)%Q) /\
  0 < s.
Proof.
  intros s.
  assert (Hs : s = 2) by (vm_compute; reflexivity).
  split; [reflexivity|]. split; [exact Hs|]. split; [|lia].
  intros s' Hs'.
  assert (Hall : forallb
            (fun j => Qle_bool (exact_mean tie_day 0 3)
                        (exact_mean tie_day (Z.of_nat j) 3))
            (seq 0 22) = true) by (vm_compute; reflexivity).
  rewrite forallb_forall in Hall.
  apply Qle_bool_iff. replace s' with (Z.of_nat (Z.to_nat s')) by lia.
  apply Hall. apply in_seq. lia.
Qed.

(** C1, as the code has it: on a series of 24 prices and a duration
    1 <= d <= 24, with the mean of a window taken as the loop computes it (the prices
    added to 0 in the order of the hours, the sum divided by d, in double
    arithmetic): the loop returns -1 exactly when no window has a mean
    below [Infinity]; otherwise the selected start hour is a valid one, no
    valid start hour has a mean below that of the selected one, and every
    earlier start hour has a mean above it or a [NaN] mean. *)
Theorem selectWindow_cheapest_first (prices : list float) (d : Z) :
  length prices = 24%nat -> 1 <= d <= 24 ->
  let s := selectWindow prices d in
  (s = -1 <->
   forall s', 0 <= s' <= 24 - d -> (mean prices s' d <? infinity)%float = false) /\
  (s <> -1 ->
   0 <= s <= 24 - d /\
   (mean prices s d <? infinity)%float = true /\
   (forall s', 0 <= s' <= 24 - d ->
      (mean prices s' d <? mean prices s d)%float = false) /\
   (forall s', 0 <= s' < s ->
      (mean prices s d <? mean prices s' d)%float = true \/
      is_nan (mean prices s' d) = true)).
Proof.
  intros Hlen Hd s.
  assert (HL : Z.of_nat (length prices) = 24) by lia.
  pose proof (selectWindow_general prices d) as H.
  cbv zeta in H. rewrite HL in H. specialize (H Hd).
  change (selectWindow prices d) with s in H.
  destruct H as [[Hs Hnone] | (Hs & Hfin & Hmin & Hfirst)].
  - split; [done|]. intros Hne. done.
  - split.
    + split; [lia|]. intros Hnone. rewrite Hnone in Hfin by lia. done.
    + intros _. done.
Qed.

Lemma selectWindow_cheapest_first_witness :
  selectWindow tie_day 3 = 2 /\
  (forall s', 0 <= s' <= 24 - 3 ->
     (mean tie_day s' 3 <? mean tie_day (selectWindow tie_day 3) 3)%float = false).
Proof.
  assert (Hs : selectWindow tie_day 3 = 2) by (vm_compute; reflexivity).
  split; [exact Hs|].
  apply (selectWindow_cheapest_first tie_day 3); [reflexivity | lia | lia].
Defined.

(** * Properties of the Command Dispatcher and of manageChargingLogic *)

Section ChargingLogic.

Variable env : Env.

(** The dispatcher records the call, logs one entry and never throws. *)
Lemma sendTeslaChargeCommand_run (t v : string) (c : Decision) (w : World) :
  sendTeslaChargeCommand env t v c w =
  (Ok tt, {| users := users w; energy_prices := energy_prices w;
             logs := logs w ++ [dispatch_log env t v c];
             dispatched := dispatched w ++ [(t, v, c)] |}).
Proof.
  unfold sendTeslaChargeCommand, dispatch_log, getTeslaAccessToken,
    record_dispatch, try_catch, bind, log, throw, ret.
  simpl. by destruct (tokenEndpoint env t).
Qed.

(** The override branch, in closed form. *)
Lemma manageChargingLogic_override (ev : Event) (w : World) :
  overrideRequested (before ev) (after ev) = true ->
  manageChargingLogic env ev w =
  let t := teslaRefreshToken (after ev) in
  let v := vin (vehicle (after ev)) in
  let uid := userId ev in
  match users w !! uid with
  | Some d =>
      (Ok tt,
       {| users := <[uid := set_chargeOverride false d]> (users w);
          energy_prices := energy_prices w;
          logs := logs w ++ [LogOverrideDetected uid; dispatch_log env t v START;
                             LogOverrideReset uid];
          dispatched := dispatched w ++ [(t, v, START)] |})
  | None =>
      (Throw NotFound,
       {| users := users w;
          energy_prices := energy_prices w;
          logs := logs w ++ [LogOverrideDetected uid; dispatch_log env t v START;
                             LogOverrideError uid NotFound];
          dispatched := dispatched w ++ [(t, v, START)] |})
  end.
Proof.
  intros Hov. unfold manageChargingLogic. rewrite Hov.
  unfold bind at 1. unfold log at 1.
  unfold try_catch, bind. rewrite sendTeslaChargeCommand_run.
  unfold update_user, log; simpl.
  destruct (users w !! userId ev) eqn:E; simpl.
  - by rewrite <- !app_assoc.
  - rewrite E. by rewrite <- !app_assoc.
Qed.

Lemma manageChargingLogic_no_override (ev : Event) (w : World) :
  overrideRequested (before ev) (after ev) = false ->
  manageChargingLogic env ev w =
  if justPluggedIn (before ev) (after ev)
  then smartCharging env (after ev) (userId ev) w
  else (Ok tt, w).
Proof.
  intros Hov. unfold manageChargingLogic. rewrite Hov. simpl.
  by destruct (justPluggedIn (before ev) (after ev)).
Qed.

(** The smart-charging branch, in closed form. *)
Lemma smartCharging_run (d : UserDoc) (uid : string) (w : World) :
  smartCharging env d uid w =
  match settings d with
  | None =>
      (Throw TypeError,
       {| users := users w; energy_prices := energy_prices w;
          logs := logs w ++ [LogPluggedIn uid];
          dispatched := dispatched w |})
  | Some st =>
      match currentPrice env w with
      | Throw e =>
          (Ok tt,
           {| users := users w; energy_prices := energy_prices w;
              logs := logs w ++ [LogPluggedIn uid; LogChargingError uid e];
              dispatched := dispatched w |})
      | Ok p =>
          let c :=
            decision (batteryLevel (vehicle d)) (emergencyThreshold st) p
              (getHours env) (optimalStartHour st) (chargingDuration st)
              (targetBattery st) in
          let r :=
            decisionRule (batteryLevel (vehicle d)) (emergencyThreshold st) p
              (getHours env) (optimalStartHour st) (chargingDuration st)
              (targetBattery st) in
          let t := teslaRefreshToken d in
          let v := vin (vehicle d) in
          (Ok tt,
           {| users := users w; energy_prices := energy_prices w;
              logs := logs w ++ [LogPluggedIn uid; LogDecision uid c r;
                                 dispatch_log env t v c];
              dispatched := dispatched w ++ [(t, v, c)] |})
      end
  end.
Proof.
  unfold smartCharging, currentPrice, decision.
  unfold bind at 1. unfold log at 1.
  destruct (settings d) as [st|]; [|done].
  unfold try_catch, bind, get_prices, throw, log; simpl.
  destruct (energy_prices w) as [pd|]; simpl; [|by rewrite <- !app_assoc].
  destruct (hourlyRates pd) as [prices|]; simpl; [|by rewrite <- !app_assoc].
  destruct (Js.get prices (getHours env)) as [rate|]; simpl;
    [|by rewrite <- !app_assoc].
  rewrite sendTeslaChargeCommand_run. simpl. by rewrite <- !app_assoc.
Qed.

(** Every run of the handler only appends to the log. *)
Lemma manageChargingLogic_logs (ev : Event) (w : World) :
  logs (run (manageChargingLogic env ev) w) =
  logs w ++ new_logs w (run (manageChargingLogic env ev) w).
Proof.
  unfold new_logs, run.
  destruct (overrideRequested (before ev) (after ev)) eqn:Hov.
  - rewrite manageChargingLogic_override by done. simpl.
    destruct (users w !! userId ev); simpl; by rewrite drop_app_length.
  - rewrite manageChargingLogic_no_override by done.
    destruct (justPluggedIn (before ev) (after ev)).
    + rewrite smartCharging_run.
      destruct (settings (after ev)); simpl; [|by rewrite drop_app_length].
      destruct (currentPrice env w); simpl; by rewrite drop_app_length.
    + simpl. by rewrite drop_ge, app_nil_r.
Qed.

End ChargingLogic.

(** The four rules of the decision logic, in their order. *)
Lemma decision_rules (bl et : Z) (p : float) (h : Z) (osh dur : option Z) (tb : Z) :
  (bl < et -> decision bl et p h osh dur tb = START) /\
  (~ bl < et -> (p <? 0)%float = true -> decision bl et p h osh dur tb = START) /\
  (~ bl < et -> (p <? 0)%float = false -> in_window h osh dur /\ bl < tb ->
     decision bl et p h osh dur tb = START) /\
  (~ bl < et -> (p <? 0)%float = false -> ~ (in_window h osh dur /\ bl < tb) ->
     decision bl et p h osh dur tb = STOP).
Proof.
  unfold decision, decisionRule.
  destruct (Z.ltb_spec bl et) as [Hb|Hb].
  { split; [done|]. split; [|split]; intros Hn; by destruct Hn. }
  split; [intros Hlt; exfalso; lia|].
  destruct (p <? 0)%float eqn:Hp.
  { split; [done|]. split; intros _ Hn; discriminate Hn. }
  split; [intros _ Hlt; discriminate Hlt|].
  split.
  - intros _ _ [(o & d & -> & -> & Ho) Htb]. simpl.
    destruct (Z.leb_spec o h); [|lia].
    destruct (Z.ltb_spec h (o + d)); [|lia].
    destruct (Z.ltb_spec bl tb); [done|lia].
  - intros _ _ Hnot.
    destruct (Js.geb h osh && Js.lt_opt h (Js.add osh dur) && (bl <? tb))
      eqn:E; [|done].
    exfalso. apply Hnot.
    apply andb_prop in E as [E Htb]. apply andb_prop in E as [E1 E2].
    destruct osh as [o|]; [|done]. destruct dur as [d|]; [|done].
    simpl in *.
    apply Z.leb_le in E1. apply Z.ltb_lt in E2. apply Z.ltb_lt in Htb.
    split; [exists o, d; repeat split; lia | lia].
Qed.

(** C2: for a plug-in event without override the handler dispatches the
    command chosen by the decision logic, which tries in this order:
    battery below the emergency threshold, negative price, current hour in
    the optimal window with the battery below target, and stops otherwise;
    the two examples of the specification evaluate to START and STOP (the
    prices 0.30 and 0.25 as doubles). *)
Theorem decision_policy_priority :
  (forall bl et p h osh dur tb,
     (bl < et -> decision bl et p h osh dur tb = START) /\
     (~ bl < et -> (p <? 0)%float = true ->
        decision bl et p h osh dur tb = START) /\
     (~ bl < et -> (p <? 0)%float = false -> in_window h osh dur /\ bl < tb ->
        decision bl et p h osh dur tb = START) /\
     (~ bl < et -> (p <? 0)%float = false ->
        ~ (in_window h osh dur /\ bl < tb) ->
        decision bl et p h osh dur tb = STOP)) /\
  (forall env ev w st pd prices rate,
     overrideRequested (before ev) (after ev) = false ->
     justPluggedIn (before ev) (after ev) = true ->
     settings (after ev) = Some st ->
     energy_prices w = Some pd ->
     hourlyRates pd = Some prices ->
     Js.get prices (getHours env) = Some rate ->
     dispatched (run (manageChargingLogic env ev) w) =
     dispatched w ++
       [(teslaRefreshToken (after ev), vin (vehicle (after ev)),
         decision (batteryLevel (vehicle (after ev))) (emergencyThreshold st)
           (price rate) (getHours env) (optimalStartHour st)
           (chargingDuration st) (targetBattery st))]) /\
  decision 15 20 0x1.3333333333333p-2%float 10 (Some 2) (Some 4) 80 = START /\
  (forall et, et <= 50 ->
     decision 50 et 0.25%float 5 (Some 1) (Some 3) 80 = STOP).
Proof.
  split; [apply decision_rules|]. split; [|split].
  - intros env ev w st pd prices rate Hov Hplug Hst Hpd Hrates Hrate.
    unfold run. rewrite manageChargingLogic_no_override by done.
    rewrite Hplug, smartCharging_run, Hst.
    unfold currentPrice. by rewrite Hpd, Hrates, Hrate.
  - reflexivity.
  - intros et Het. unfold decision, decisionRule.
    destruct (Z.ltb_spec 50 et); [lia|]. reflexivity.
Qed.

Lemma decision_policy_priority_witness :
  dispatched
    (run (manageChargingLogic (sample_env 10 true) (plug_in_event 15))
       (sample_world (after (plug_in_event 15)) 0x1.3333333333333p-2%float)) =
  [("refresh"%string, "5YJ3E1EA7KF000001"%string, START)].
Proof.
  exact (proj1 (proj2 decision_policy_priority)
           (sample_env 10 true) (plug_in_event 15)
           (sample_world (after (plug_in_event 15)) 0x1.3333333333333p-2%float)
           sample_settings
           {| lastUpdated := 0; hourlyRates := Some (flat_rates 0x1.3333333333333p-2%float) |}
           (flat_rates 0x1.3333333333333p-2%float)
           {| price := 0x1.3333333333333p-2%float; time := 10 * 3600000 |}
           eq_refl eq_refl eq_refl eq_refl eq_refl eq_refl).
Defined.

(** C3: when the override has just been requested the command handed to
    the dispatcher is START whatever the vehicle state, the settings, the
    prices and the hour are, and no rule of the decision logic is
    evaluated. *)
Theorem override_decides_start (env : Env) (ev : Event) (w : World) :
  overrideRequested (before ev) (after ev) = true ->
  let w' := run (manageChargingLogic env ev) w in
  dispatched w' =
    dispatched w ++
      [(teslaRefreshToken (after ev), vin (vehicle (after ev)), START)] /\
  decisions_logged (new_logs w w') = 0%nat /\
  notifications (new_logs w w') = 0%nat.
Proof.
  intros Hov w'. subst w'. unfold run, new_logs.
  rewrite manageChargingLogic_override by done. simpl.
  destruct (users w !! userId ev); simpl; rewrite drop_app_length;
    unfold dispatch_log; by destruct (tokenEndpoint env _).
Qed.

Lemma override_decides_start_witness :
  overrideRequested (before (override_event (Some true) 100))
    (after (override_event (Some true) 100)) = true /\
  dispatched
    (run (manageChargingLogic (sample_env 23 true) (override_event (Some true) 100))
       (sample_world (after (override_event (Some true) 100)) 10)) =
  [("refresh"%string, "5YJ3E1EA7KF000001"%string, START)].
Proof.
  split; [reflexivity|].
  exact (proj1 (override_decides_start (sample_env 23 true)
                  (override_event (Some true) 100)
                  (sample_world (after (override_event (Some true) 100)) 10)
                  eq_refl)).
Defined.

(** C4: after an override cycle the stored flag is false, whether the
    token exchange of the dispatch succeeded (the action is logged) or was
    rejected (the failure is logged); the update that clears the flag
    cannot request the override again. *)
Theorem override_flag_cleared (env : Env) (ev : Event) (w : World) (d : UserDoc) :
  overrideRequested (before ev) (after ev) = true ->
  users w !! userId ev = Some d ->
  let w' := run (manageChargingLogic env ev) w in
  let t := teslaRefreshToken (after ev) in
  let v := vin (vehicle (after ev)) in
  users w' !! userId ev = Some (set_chargeOverride false d) /\
  chargeOverride (set_chargeOverride false d) = Some false /\
  (tokenEndpoint env t = None ->
     LogSendFailed v RequestFailed ∈ new_logs w w') /\
  (is_Some (tokenEndpoint env t) ->
     LogSendingCommand "charge_start" v ∈ new_logs w w') /\
  (forall b, overrideRequested b (set_chargeOverride false d) = false).
Proof.
  intros Hov Hd w' t v. subst w' t v. unfold run, new_logs.
  rewrite manageChargingLogic_override by done. simpl. rewrite Hd. simpl.
  rewrite drop_app_length. unfold dispatch_log.
  split; [by rewrite lookup_insert_eq|]. split; [done|].
  split; [|split].
  - intros ->. apply list_elem_of_further, list_elem_of_here.
  - intros [a ->]. apply list_elem_of_further, list_elem_of_here.
  - intros b. reflexivity.
Qed.

Lemma override_flag_cleared_witness :
  overrideRequested (before (override_event (Some true) 60))
    (after (override_event (Some true) 60)) = true /\
  users
    (run (manageChargingLogic (sample_env 12 false) (override_event (Some true) 60))
       (sample_world (after (override_event (Some true) 60)) 1))
    !! "u1"%string =
  Some (set_chargeOverride false (after (override_event (Some true) 60))).
Proof.
  split; [reflexivity|].
  exact (proj1 (override_flag_cleared (sample_env 12 false)
                  (override_event (Some true) 60)
                  (sample_world (after (override_event (Some true) 60)) 1)
                  (after (override_event (Some true) 60))
                  eq_refl eq_refl)).
Defined.

(** C10: an update that both requests the override and flips
    [isPluggedIn] from false to true runs the override path only: one
    START command, the flag cleared (the stored [chargeOverride] is
    [false] afterwards), no plug-in notification and no evaluation of the
    decision logic. *)
Theorem override_preempts_plug_in (env : Env) (ev : Event) (w : World) (d : UserDoc) :
  overrideRequested (before ev) (after ev) = true ->
  justPluggedIn (before ev) (after ev) = true ->
  users w !! userId ev = Some d ->
  let w' := run (manageChargingLogic env ev) w in
  dispatched w' =
    dispatched w ++
      [(teslaRefreshToken (after ev), vin (vehicle (after ev)), START)] /\
  users w' !! userId ev = Some (set_chargeOverride false d) /\
  (exists d', users w' !! userId ev = Some d' /\ chargeOverride d' = Some false) /\
  new_logs w w' =
    [LogOverrideDetected (userId ev);
     dispatch_log env (teslaRefreshToken (after ev)) (vin (vehicle (after ev))) START;
     LogOverrideReset (userId ev)] /\
  decisions_logged (new_logs w w') = 0%nat /\
  notifications (new_logs w w') = 0%nat.
Proof.
  intros Hov _ Hd w'. subst w'. unfold run, new_logs.
  rewrite manageChargingLogic_override by done. simpl. rewrite Hd. simpl.
  rewrite drop_app_length, lookup_insert_eq.
  split; [done|]. split; [done|].
  split; [by exists (set_chargeOverride false d)|].
  repeat split; unfold dispatch_log; by destruct (tokenEndpoint env _).
Qed.

Lemma override_preempts_plug_in_witness :
  overrideRequested (before (override_event (Some false) 60))
    (after (override_event (Some false) 60)) = true /\
  justPluggedIn (before (override_event (Some false) 60))
    (after (override_event (Some false) 60)) = true /\
  dispatched
    (run (manageChargingLogic (sample_env 12 true) (override_event (Some false) 60))
       (sample_world (after (override_event (Some false) 60)) 1)) =
  [("refresh"%string, "5YJ3E1EA7KF000001"%string, START)] /\
  (exists d',
     users
       (run (manageChargingLogic (sample_env 12 true) (override_event (Some false) 60))
          (sample_world (after (override_event (Some false) 60)) 1))
       !! "u1"%string = Some d' /\
     chargeOverride d' = Some false).
Proof.
  assert (Hd : users (sample_world (after (override_event (Some false) 60)) 1)
               !! userId (override_event (Some false) 60) =
               Some (after (override_event (Some false) 60))) by reflexivity.
  pose proof (override_preempts_plug_in (sample_env 12 true)
                (override_event (Some false) 60)
                (sample_world (after (override_event (Some false) 60)) 1)
                (after (override_event (Some false) 60))
                eq_refl eq_refl Hd) as H.
  split; [reflexivity|]. split; [reflexivity|].
  split; [exact (proj1 H) | exact (proj1 (proj2 (proj2 H)))].
Defined.

(** * Properties of the Vehicle State Tracker *)

(** The document found by the VIN query is a stored one. *)
Lemma find_by_vin_stored (v : string) (w : World) (uid : string) (d : UserDoc) :
  fst (find_by_vin v w) = Ok (Some (uid, d)) -> users w !! uid = Some d.
Proof.
  unfold find_by_vin. simpl. intros [= Hfind].
  apply find_some in Hfind as [Hin _].
  apply list_elem_of_In in Hin. by apply elem_of_map_to_list in Hin.
Qed.

(** The only write of the webhook merges [vehicleUpdate data] into the
    document that owns the VIN. *)
Lemma telemetryWebhook_users (body : Body) (w : World) (uid : string) (doc : UserDoc) :
  users w !! uid = Some doc ->
  users (run (telemetryWebhook body) w) !! uid = Some doc \/
  exists tel, data body = Some tel /\
    users (run (telemetryWebhook body) w) !! uid =
    Some (applyVehicleUpdate (vehicleUpdate tel) doc).
Proof.
  intros Hdoc. unfold run, telemetryWebhook.
  destruct (body_vin body) as [v|], (data body) as [dat|]; try (by left).
  destruct (negb (Js.truthy_str (Some v))); [by left|].
  unfold try_catch, bind, log, find_by_vin, update_user, ret. simpl.
  destruct (find _ (map_to_list (users w))) as [[uid' d']|] eqn:Hfind;
    [|by left].
  assert (Hd' : users w !! uid' = Some d').
  { apply (find_by_vin_stored v w). unfold find_by_vin. simpl.
    by rewrite Hfind. }
  simpl. destruct (0 <? keys_length (vehicleUpdate dat))%nat; [|by left].
  cbn [users]. rewrite Hd'. cbn [users snd].
  destruct (decide (uid' = uid)) as [->|Hne].
  - right. exists dat. split; [done|].
    rewrite lookup_insert_eq. congruence.
  - left. by rewrite lookup_insert_ne.
Qed.

(** Falsy fields contribute nothing to [vehicleUpdate]. *)
Lemma vehicleUpdate_strip_falsy (tel : TelemetryData) :
  vehicleUpdate (strip_falsy tel) = vehicleUpdate tel.
Proof.
  unfold vehicleUpdate, strip_falsy. simpl.
  destruct (Js.truthy_str (charging_state tel)) eqn:E1,
           (Js.truthy_str (charge_port_latch tel)) eqn:E2,
           (Js.truthy_int (battery_level tel)) eqn:E3;
    simpl; by rewrite ?E1, ?E2, ?E3.
Qed.

(** C8: an update that carries neither [charging_state] nor
    [charge_port_latch] leaves the stored [isCharging] and [isPluggedIn] of
    every user as they were; in general a field absent from the update
    keeps its stored value, and the fields outside [vehicle] and the VIN
    are never written. *)
Theorem telemetry_partial_update (body : Body) (tel : TelemetryData)
    (w : World) (uid : string) (doc : UserDoc) :
  data body = Some tel ->
  users w !! uid = Some doc ->
  exists doc', users (run (telemetryWebhook body) w) !! uid = Some doc' /\
    (charging_state tel = None -> charge_port_latch tel = None ->
       isCharging (vehicle doc') = isCharging (vehicle doc) /\
       isPluggedIn (vehicle doc') = isPluggedIn (vehicle doc)) /\
    (charging_state tel = None ->
       isCharging (vehicle doc') = isCharging (vehicle doc)) /\
    (charge_port_latch tel = None ->
       isPluggedIn (vehicle doc') = isPluggedIn (vehicle doc)) /\
    (battery_level tel = None ->
       batteryLevel (vehicle doc') = batteryLevel (vehicle doc)) /\
    vin (vehicle doc') = vin (vehicle doc) /\
    settings doc' = settings doc /\
    teslaRefreshToken doc' = teslaRefreshToken doc /\
    chargeOverride doc' = chargeOverride doc.
Proof.
  intros Hdata Hdoc.
  destruct (telemetryWebhook_users body w uid doc Hdoc)
    as [Hsame | (tel' & Htel & Hupd)].
  - exists doc. split; [done|]. by repeat split.
  - exists (applyVehicleUpdate (vehicleUpdate tel') doc).
    split; [done|]. assert (tel' = tel) as -> by congruence.
    unfold applyVehicleUpdate, vehicleUpdate. simpl.
    repeat split; try done; intros; by repeat match goal with
      | H : _ = None |- _ => rewrite H
      end.
Qed.

Lemma telemetry_partial_update_witness :
  exists doc',
    users
      (run (telemetryWebhook (telemetry None None (Some 55)))
         (sample_world (sample_user (Some true) 40 None) 1))
      !! "u1"%string = Some doc' /\
    isCharging (vehicle doc') = false /\
    isPluggedIn (vehicle doc') = Some true.
Proof.
  destruct (telemetry_partial_update (telemetry None None (Some 55))
              {| charging_state := None; charge_port_latch := None;
                 battery_level := Some 55 |}
              (sample_world (sample_user (Some true) 40 None) 1)
              "u1"%string (sample_user (Some true) 40 None)
              eq_refl eq_refl) as (doc' & Hdoc' & Hframe & _).
  exists doc'. split; [exact Hdoc'|]. exact (Hframe eq_refl eq_refl).
Defined.

(** C9: a field that is present with a falsy value (battery level 0, an
    empty [charging_state] or [charge_port_latch]) is handled exactly as
    an absent one: the webhook behaves as on the update without that
    field, and the corresponding stored field keeps its value. *)
Theorem falsy_fields_not_applied :
  (forall v tel w,
     telemetryWebhook {| body_vin := v; data := Some tel |} w =
     telemetryWebhook {| body_vin := v; data := Some (strip_falsy tel) |} w) /\
  (forall body tel w uid doc,
     data body = Some tel ->
     users w !! uid = Some doc ->
     exists doc', users (run (telemetryWebhook body) w) !! uid = Some doc' /\
       (battery_level tel = Some 0 ->
          batteryLevel (vehicle doc') = batteryLevel (vehicle doc)) /\
       (charging_state tel = Some ""%string ->
          isCharging (vehicle doc') = isCharging (vehicle doc)) /\
       (charge_port_latch tel = Some ""%string ->
          isPluggedIn (vehicle doc') = isPluggedIn (vehicle doc))).
Proof.
  split.
  - intros v tel w. unfold telemetryWebhook. simpl.
    by rewrite vehicleUpdate_strip_falsy.
  - intros body tel w uid doc Hdata Hdoc.
    destruct (telemetryWebhook_users body w uid doc Hdoc)
      as [Hsame | (tel' & Htel & Hupd)].
    + exists doc. split; [done|]. by repeat split.
    + exists (applyVehicleUpdate (vehicleUpdate tel') doc).
      split; [done|]. assert (tel' = tel) as -> by congruence.
      unfold applyVehicleUpdate, vehicleUpdate. simpl.
      repeat split; intros H; by rewrite H.
Qed.

Lemma falsy_fields_not_applied_witness :
  exists doc',
    users
      (run (telemetryWebhook (telemetry None None (Some 0)))
         (sample_world (sample_user (Some true) 40 None) 1))
      !! "u1"%string = Some doc' /\
    batteryLevel (vehicle doc') = 40.
Proof.
  destruct (proj2 falsy_fields_not_applied (telemetry None None (Some 0))
              {| charging_state := None; charge_port_latch := None;
                 battery_level := Some 0 |}
              (sample_world (sample_user (Some true) 40 None) 1)
              "u1"%string (sample_user (Some true) 40 None)
              eq_refl eq_refl) as (doc' & Hdoc' & Hlevel & _).
  exists doc'. split; [exact Hdoc'|]. exact (Hlevel eq_refl).
Defined.

(** * The plug-in transition *)

Lemma justPluggedIn_spec (b a : UserDoc) :
  justPluggedIn b a = true <->
  isPluggedIn (vehicle b) = Some false /\ isPluggedIn (vehicle a) = Some true.
Proof.
  unfold justPluggedIn, Js.is_false, Js.is_true.
  destruct (isPluggedIn (vehicle b)) as [[]|],
           (isPluggedIn (vehicle a)) as [[]|]; simpl;
    split; try done; intros [? ?]; done.
Qed.

(** An update that does not touch [chargeOverride] never requests the
    override. *)
Lemma overrideRequested_unchanged (b a : UserDoc) :
  chargeOverride a = chargeOverride b -> overrideRequested b a = false.
Proof.
  intros Heq. unfold overrideRequested. rewrite Heq.
  by destruct (Js.is_true (chargeOverride b)).
Qed.

(** Without an override request, one notification on the rising edge and
    none otherwise. *)
Lemma notifications_no_override (env : Env) (ev : Event) (w : World) :
  overrideRequested (before ev) (after ev) = false ->
  notifications (new_logs w (run (manageChargingLogic env ev) w)) =
  if justPluggedIn (before ev) (after ev) then 1%nat else 0%nat.
Proof.
  intros Hov. unfold run, new_logs.
  rewrite manageChargingLogic_no_override by done.
  destruct (justPluggedIn (before ev) (after ev)).
  - rewrite smartCharging_run.
    destruct (settings (after ev)); simpl; [|by rewrite drop_app_length].
    destruct (currentPrice env w); simpl; rewrite drop_app_length;
      [|done].
    unfold dispatch_log. by destruct (tokenEndpoint env _).
  - simpl. by rewrite drop_ge.
Qed.

Lemma notifications_app (l k : list LogEntry) :
  notifications (l ++ k) = (notifications l + notifications k)%nat.
Proof. unfold notifications. by rewrite List.filter_app, length_app. Qed.

Lemma decisions_logged_app (l k : list LogEntry) :
  decisions_logged (l ++ k) = (decisions_logged l + decisions_logged k)%nat.
Proof. unfold decisions_logged. by rewrite List.filter_app, length_app. Qed.

(** What the handler logs and dispatches when the override is not
    requested. *)
Lemma plug_in_branch (env : Env) (ev : Event) (w : World) :
  overrideRequested (before ev) (after ev) = false ->
  let w' := run (manageChargingLogic env ev) w in
  if justPluggedIn (before ev) (after ev)
  then
    match settings (after ev) with
    | None =>
        new_logs w w' = [LogPluggedIn (userId ev)] /\
        dispatched w' = dispatched w
    | Some st =>
        match currentPrice env w with
        | Throw e =>
            new_logs w w' = [LogPluggedIn (userId ev);
                             LogChargingError (userId ev) e] /\
            dispatched w' = dispatched w
        | Ok p =>
            let c :=
              decision (batteryLevel (vehicle (after ev))) (emergencyThreshold st)
                p (getHours env) (optimalStartHour st) (chargingDuration st)
                (targetBattery st) in
            let r :=
              decisionRule (batteryLevel (vehicle (after ev)))
                (emergencyThreshold st) p (getHours env) (optimalStartHour st)
                (chargingDuration st) (targetBattery st) in
            let t := teslaRefreshToken (after ev) in
            let v := vin (vehicle (after ev)) in
            new_logs w w' = [LogPluggedIn (userId ev);
                             LogDecision (userId ev) c r;
                             dispatch_log env t v c] /\
            dispatched w' = dispatched w ++ [(t, v, c)]
        end
    end
  else new_logs w w' = [] /\ dispatched w' = dispatched w.
Proof.
  intros Hov w'. subst w'. unfold run, new_logs.
  rewrite manageChargingLogic_no_override by done.
  destruct (justPluggedIn (before ev) (after ev)).
  - rewrite smartCharging_run.
    destruct (settings (after ev)); simpl; [|by rewrite drop_app_length].
    destruct (currentPrice env w); simpl; by rewrite drop_app_length.
  - simpl. by rewrite drop_ge.
Qed.

(** C6 as stated fails: an update that flips [isPluggedIn] from false to
    true and at the same time requests the override emits no plug-in
    notification; and a plug-in notification is emitted without any
    evaluation of the decision logic when the price document is missing. *)
Lemma plug_in_flip_without_notification :
  let env := sample_env 12 true in
  let ev := override_event (Some false) 60 in
  let w := sample_world (after ev) 1 in
  let w' := run (manageChargingLogic env ev) w in
  let ev2 := plug_in_event 60 in
  let w2 := {| users := {[ "u1"%string := after ev2 ]}; energy_prices := None;
               logs := []; dispatched := [] |} in
  let w2' := run (manageChargingLogic env ev2) w2 in
  (isPluggedIn (vehicle (before ev)) = Some false /\
   isPluggedIn (vehicle (after ev)) = Some true /\
   notifications (new_logs w w') = 0%nat) /\
  (notifications (new_logs w2 w2') = 1%nat /\
   decisions_logged (new_logs w2 w2') = 0%nat /\
   dispatched w2' = []).
Proof. vm_compute. repeat split. Qed.

(** C6, as the code has it: for every update of a user document, the handler emits
    the plug-in notification exactly once if [isPluggedIn] went from false
    to true and the update does not request the override, and not at all
    otherwise (then no rule of the decision logic is evaluated, and
    without an override request no command is dispatched); when it is
    emitted and the user has
    settings and the price of the current hour exists, the decision logic
    is evaluated once and its decision is the command dispatched.  An
    update written by the tracker never requests the override.  Over
    snapshots with [isPluggedIn] true, false, true (no override
    requested) the first update emits nothing and the second emits the
    only notification. *)
Theorem plug_in_notification_rising_edge :
  (forall env ev w,
     let w' := run (manageChargingLogic env ev) w in
     let flip :=
       isPluggedIn (vehicle (before ev)) = Some false /\
       isPluggedIn (vehicle (after ev)) = Some true in
     (flip /\ overrideRequested (before ev) (after ev) = false ->
      notifications (new_logs w w') = 1%nat) /\
     (~ (flip /\ overrideRequested (before ev) (after ev) = false) ->
      notifications (new_logs w w') = 0%nat /\
      decisions_logged (new_logs w w') = 0%nat /\
      (overrideRequested (before ev) (after ev) = false ->
       dispatched w' = dispatched w)) /\
     (flip -> overrideRequested (before ev) (after ev) = false ->
      forall st p,
        settings (after ev) = Some st -> currentPrice env w = Ok p ->
        let c :=
          decision (batteryLevel (vehicle (after ev))) (emergencyThreshold st)
            p (getHours env) (optimalStartHour st) (chargingDuration st)
            (targetBattery st) in
        let r :=
          decisionRule (batteryLevel (vehicle (after ev)))
            (emergencyThreshold st) p (getHours env) (optimalStartHour st)
            (chargingDuration st) (targetBattery st) in
        let t := teslaRefreshToken (after ev) in
        let v := vin (vehicle (after ev)) in
        new_logs w w' = [LogPluggedIn (userId ev); LogDecision (userId ev) c r;
                         dispatch_log env t v c] /\
        decisions_logged (new_logs w w') = 1%nat /\
        dispatched w' = dispatched w ++ [(t, v, c)])) /\
  (forall doc tel,
     overrideRequested doc (applyVehicleUpdate (vehicleUpdate tel) doc) = false) /\
  (forall env uid d0 d1 d2 w,
     let w1 :=
       run (manageChargingLogic env
              {| before := d0; after := d1; userId := uid |}) w in
     let w2 :=
       run (manageChargingLogic env
              {| before := d1; after := d2; userId := uid |}) w1 in
     overrideRequested d0 d1 = false ->
     overrideRequested d1 d2 = false ->
     isPluggedIn (vehicle d0) = Some true ->
     isPluggedIn (vehicle d1) = Some false ->
     isPluggedIn (vehicle d2) = Some true ->
     notifications (new_logs w w1) = 0%nat /\
     notifications (new_logs w1 w2) = 1%nat /\
     notifications (new_logs w w2) = 1%nat).
Proof.
  split; [|split].
  - intros env ev w w' flip. subst w' flip.
    destruct (overrideRequested (before ev) (after ev)) eqn:Hov.
    + split; [intros [_ ?]; done|]. split; [|intros _ ?; done].
      intros _. unfold run, new_logs.
      rewrite manageChargingLogic_override by done. simpl.
      destruct (users w !! userId ev); simpl; rewrite drop_app_length;
        (split; [unfold dispatch_log; by destruct (tokenEndpoint env _)|]);
        (split; [unfold dispatch_log; by destruct (tokenEndpoint env _)|]);
        intros ?; done.
    + pose proof (plug_in_branch env ev w Hov) as Hrun. cbv zeta in Hrun.
      pose proof (notifications_no_override env ev w Hov) as Hn.
      destruct (justPluggedIn (before ev) (after ev)) eqn:Hplug.
      * apply justPluggedIn_spec in Hplug.
        split; [done|]. split; [intros Hnot; by destruct Hnot|].
        intros _ _ st p Hst Hp. rewrite Hst, Hp in Hrun.
        destruct Hrun as [Hlogs Hdisp]. rewrite Hlogs.
        split; [done|]. split; [|done].
        unfold dispatch_log. by destruct (tokenEndpoint env _).
      * assert (Hnf : ~ (isPluggedIn (vehicle (before ev)) = Some false /\
                         isPluggedIn (vehicle (after ev)) = Some true)).
        { intros Hf. apply justPluggedIn_spec in Hf. congruence. }
        split; [intros [Hf _]; done|]. split; [|intros Hf; done].
        intros _. destruct Hrun as [Hlogs Hdisp]. rewrite Hlogs.
        by repeat split.
  - intros doc tel. by apply overrideRequested_unchanged.
  - intros env uid d0 d1 d2 w w1 w2 Hov1 Hov2 H0 H1 H2.
    assert (E1 : notifications (new_logs w w1) = 0%nat).
    { subst w1. rewrite notifications_no_override by done. simpl.
      destruct (justPluggedIn d0 d1) eqn:E; [|done].
      apply justPluggedIn_spec in E as [E _]. congruence. }
    assert (E2 : notifications (new_logs w1 w2) = 1%nat).
    { subst w2. rewrite notifications_no_override by done. simpl.
      destruct (justPluggedIn d1 d2) eqn:E; [done|].
      assert (justPluggedIn d1 d2 = true) by by apply justPluggedIn_spec.
      congruence. }
    split; [done|]. split; [done|].
    assert (Hl1 : logs w1 = logs w ++ new_logs w w1)
      by apply manageChargingLogic_logs.
    assert (Hl2 : logs w2 = logs w1 ++ new_logs w1 w2)
      by apply manageChargingLogic_logs.
    assert (Hall : new_logs w w2 = new_logs w w1 ++ new_logs w1 w2).
    { unfold new_logs at 1. rewrite Hl2, Hl1, <- app_assoc.
      by rewrite drop_app_length. }
    rewrite Hall, notifications_app. lia.
Qed.

Lemma plug_in_notification_rising_edge_witness :
  let env := sample_env 12 true in
  let d0 := sample_user (Some true) 50 None in
  let d1 := sample_user (Some false) 50 None in
  let d2 := sample_user (Some true) 50 None in
  let w := sample_world d0 1 in
  let w1 :=
    run (manageChargingLogic env
           {| before := d0; after := d1; userId := "u1" |}) w in
  let w2 :=
    run (manageChargingLogic env
           {| before := d1; after := d2; userId := "u1" |}) w1 in
  notifications (new_logs w w1) = 0%nat /\
  notifications (new_logs w1 w2) = 1%nat /\
  notifications (new_logs w w2) = 1%nat.
Proof.
  intros env d0 d1 d2 w w1 w2.
  exact (proj2 (proj2 plug_in_notification_rising_edge) env "u1"%string
           d0 d1 d2 w eq_refl eq_refl eq_refl eq_refl eq_refl).
Defined.

(** * Properties of calculateOptimalWindow *)

Section OptimalWindow.

Variable prices : list float.

Lemma add_logs_nil (w : World) : add_logs w [] = w.
Proof. destruct w. unfold add_logs. simpl. by rewrite app_nil_r. Qed.

Lemma add_logs_app (w : World) (l k : list LogEntry) :
  add_logs (add_logs w l) k = add_logs w (l ++ k).
Proof. unfold add_logs. simpl. by rewrite app_assoc. Qed.

(** The callback only logs; it extends the batch for a user that has a
    window and leaves it alone otherwise. *)
Lemma windowForUser_run (batch : list (string * Z)) (id : string)
    (doc : UserDoc) (w : World) :
  exists l batch',
    windowForUser prices batch (id, doc) w = (Ok batch', add_logs w l) /\
    (batch' = batch \/
     exists h, batch' = batch ++ [(id, h)] /\ ~ no_window prices doc).
Proof.
  unfold windowForUser, no_window.
  destruct (settings doc) as [st|].
  2: { exists [LogUserSkipped id], batch. split; [done | by left]. }
  destruct (chargingDuration st) as [h|].
  2: { exists [LogUserSkipped id], batch. split; [done | by left]. }
  simpl. destruct (Z.eqb_spec h 0) as [->|Hh]; simpl.
  { exists [LogUserSkipped id], batch. split; [done | by left]. }
  destruct (Z.eqb_spec (selectWindow prices h) (-1)) as [Hs|Hs]; simpl.
  - exists [], batch. split; [by rewrite add_logs_nil | by left].
  - exists [LogOptimalWindow id h (selectWindow prices h)],
      (batch ++ [(id, selectWindow prices h)]).
    split; [done|]. right. exists (selectWindow prices h). split; [done|].
    intros [Hz|Hlt]; [done|]. by apply Hs, selectWindow_none.
Qed.

Lemma forEach_windowForUser (docs : list (string * UserDoc))
    (batch : list (string * Z)) (w : World) :
  exists l batch',
    forEach docs (windowForUser prices) batch w = (Ok batch', add_logs w l) /\
    forall id h, (id, h) ∈ batch' ->
      (id, h) ∈ batch \/
      exists doc, (id, doc) ∈ docs /\ ~ no_window prices doc.
Proof.
  revert batch w. induction docs as [|[id doc] docs IH]; intros batch w.
  - exists [], batch. simpl. split; [by rewrite add_logs_nil | by left].
  - destruct (windowForUser_run batch id doc w) as (l1 & b1 & Hrun & Hb1).
    destruct (IH b1 (add_logs w l1)) as (l2 & b2 & Hrest & Hb2).
    exists (l1 ++ l2), b2. split.
    + cbn [forEach]. unfold bind. rewrite Hrun, Hrest. by rewrite add_logs_app.
    + intros id' h Hin. destruct (Hb2 id' h Hin) as [Hin1 | (d & Hd & Hw)].
      * destruct Hb1 as [-> | (h1 & -> & Hw)]; [by left|].
        apply elem_of_app in Hin1 as [Hin1|Hin1]; [by left|].
        apply list_elem_of_singleton in Hin1 as [= -> ->].
        right. exists doc. split; [apply list_elem_of_here | done].
      * right. exists d. split; [by apply list_elem_of_further | done].
Qed.

End OptimalWindow.

(** The commit succeeds when every document of the batch exists, and
    writes only those. *)
Lemma commit_run (batch : list (string * Z)) (w : World) :
  (forall id h, (id, h) ∈ batch -> is_Some (users w !! id)) ->
  exists w',
    commit batch w = (Ok tt, w') /\
    logs w' = logs w /\
    (forall uid, (forall h, (uid, h) ∉ batch) -> users w' !! uid = users w !! uid).
Proof.
  revert w. induction batch as [|[id h] batch IH]; intros w Hex.
  - exists w. by repeat split.
  - destruct (Hex id h) as [d Hd]; [apply list_elem_of_here|].
    unfold commit. simpl. unfold bind at 1. unfold update_user at 1.
    simpl. rewrite Hd.
    set (w1 := {| users := <[id := set_optimalStartHour h d]> (users w);
                  energy_prices := energy_prices w; logs := logs w;
                  dispatched := dispatched w |}).
    destruct (IH w1) as (w' & Hrun & Hlogs & Hframe).
    { intros id' h' Hin. simpl. apply lookup_insert_is_Some'.
      right. apply (Hex id' h'). by apply list_elem_of_further. }
    exists w'. split; [exact Hrun|]. split; [done|].
    intros uid Hnot. rewrite Hframe.
    + simpl. apply lookup_insert_ne. intros ->.
      apply (Hnot h), list_elem_of_here.
    + intros h' Hin. apply (Hnot h'). by apply list_elem_of_further.
Qed.

(** C5: a duration longer than the price series (more than 24 hours for a
    day of prices, any duration for an empty series) gives no start hour,
    and [calculateOptimalWindow] then completes without error and leaves
    the stored document of that user, hence its [optimalStartHour], as it
    was; the same holds for a user without settings or with
    [chargingDuration] unset. *)
Theorem no_window_no_update :
  (forall prices d,
     Z.of_nat (length prices) < d -> selectWindow prices d = -1) /\
  (forall priceData w uid doc,
     users w !! uid = Some doc ->
     no_window (prices_of priceData) doc ->
     outcome (calculateOptimalWindow priceData) w = Ok tt /\
     users (run (calculateOptimalWindow priceData) w) !! uid = Some doc).
Proof.
  split; [apply selectWindow_none|].
  intros priceData w uid doc Hdoc Hno.
  assert (Hrun : exists w', calculateOptimalWindow priceData w = (Ok tt, w') /\
                            users w' !! uid = Some doc).
  2: { destruct Hrun as (w' & Hrun & Hw'). unfold outcome, run.
       by rewrite Hrun. }
  unfold calculateOptimalWindow, prices_of in *.
  unfold bind at 1. unfold log at 1.
  destruct (hourlyRates priceData) as [hr|]; [|by eexists].
  unfold bind at 1. unfold get_users at 1. cbn [users].
  destruct (map_to_list (users w)) as [|ud docs] eqn:Hlist; [by eexists|].
  rewrite <- Hlist. unfold bind at 1.
  set (w0 := {| users := users w; energy_prices := energy_prices w;
                logs := logs w ++ [LogWindowRunning];
                dispatched := dispatched w |}).
  destruct (forEach_windowForUser (map price (Js.values hr))
              (map_to_list (users w)) [] w0) as (l & batch & Hrun & Hbatch).
  rewrite Hrun.
  assert (Hstored : forall id h, (id, h) ∈ batch ->
            exists d, users w !! id = Some d /\
                      ~ no_window (map price (Js.values hr)) d).
  { intros id h Hin. destruct (Hbatch id h Hin) as [Hin0 | (d & Hd & Hw)].
    - by apply elem_of_nil in Hin0.
    - exists d. split; [by apply elem_of_map_to_list in Hd | done]. }
  destruct (commit_run batch (add_logs w0 l)) as (w' & Hcommit & _ & Hframe).
  { intros id h Hin. destruct (Hstored id h Hin) as (d & Hd & _).
    by exists d. }
  unfold bind. rewrite Hcommit. eexists. split; [reflexivity|].
  cbn [users log snd]. rewrite Hframe; [exact Hdoc|].
  intros h Hin. destruct (Hstored uid h Hin) as (d & Hd & Hw).
  apply Hw. congruence.
Qed.

Lemma no_window_no_update_witness :
  let priceData := {| lastUpdated := 0; hourlyRates := Some (flat_rates 1) |} in
  let w := sample_world long_duration_user 1 in
  no_window (prices_of priceData) long_duration_user /\
  outcome (calculateOptimalWindow priceData) w = Ok tt /\
  users (run (calculateOptimalWindow priceData) w) !! "u1"%string =
  Some long_duration_user.
Proof.
  intros priceData w.
  assert (Hno : no_window (prices_of priceData) long_duration_user)
    by (right; reflexivity).
  split; [exact Hno|].
  exact (proj2 no_window_no_update priceData w "u1"%string
           long_duration_user eq_refl Hno).
Defined.

(** * Properties of the Price Normalizer *)

(** The fields of a time value. *)
Lemma time_fields (t : Z) :
  t = Js.Day t * 86400000 + Js.HourFromTime t * 3600000
      + Js.MinFromTime t * 60000 + Js.SecFromTime t * 1000 + Js.msFromTime t /\
  0 <= Js.HourFromTime t < 24 /\
  0 <= Js.MinFromTime t < 60 /\
  0 <= Js.SecFromTime t < 60 /\
  0 <= Js.msFromTime t < 1000 /\
  (0 <= t -> 0 <= Js.Day t).
Proof.
  unfold Js.Day, Js.HourFromTime, Js.MinFromTime, Js.SecFromTime,
    Js.msFromTime, Js.msPerDay, Js.msPerHour, Js.msPerMinute, Js.msPerSecond.
  Z.div_mod_to_equations. lia.
Qed.

(** From the epoch on, and as long as the result is in the range of Date,
    [setHours] adds the hours exactly. *)
Lemma addHours_exact (t hour : Z) :
  0 <= t -> 0 <= hour -> t + hour * 3600000 <= 8640000000000000 ->
  addHours (Some t) hour = Some (t + hour * 3600000).
Proof.
  intros Ht Hh Hr.
  unfold addHours, Js.setHours, Js.getHours, Js.MakeDate, Js.MakeTime.
  destruct (time_fields t) as (E & H1 & H2 & H3 & H4 & H5). specialize (H5 Ht).
  unfold Js.msPerDay, Js.msPerHour, Js.msPerMinute, Js.msPerSecond.
  set (D := Js.Day t) in *. set (h0 := Js.HourFromTime t) in *.
  set (m := Js.MinFromTime t) in *. set (s := Js.SecFromTime t) in *.
  set (ms := Js.msFromTime t) in *. clearbody D h0 m s ms.
  rewrite (round_small (h0 + hour)) by lia.
  rewrite (round_small ((h0 + hour) * 3600000)) by lia.
  rewrite (round_small ((h0 + hour) * 3600000 + m * 60000)) by lia.
  rewrite (round_small ((h0 + hour) * 3600000 + m * 60000 + s * 1000)) by lia.
  rewrite (round_small ((h0 + hour) * 3600000 + m * 60000 + s * 1000 + ms)) by lia.
  rewrite (round_small
             (D * 86400000
              + ((h0 + hour) * 3600000 + m * 60000 + s * 1000 + ms))) by lia.
  unfold Js.TimeClip.
  destruct (Z.leb_spec
              (Z.abs (D * 86400000
                      + ((h0 + hour) * 3600000 + m * 60000 + s * 1000 + ms)))
              8640000000000000); [f_equal; lia | lia].
Qed.

(** Beyond the range of Date the result is the invalid Date, whatever the
    rounding of the intermediate doubles. *)
Lemma addHours_out_of_range (t hour : Z) :
  0 <= t -> 0 <= hour -> 8640000000000000 < t + hour * 3600000 ->
  addHours (Some t) hour = None.
Proof.
  intros Ht Hh Hr.
  unfold addHours, Js.setHours, Js.getHours, Js.MakeDate, Js.MakeTime.
  destruct (time_fields t) as (E & H1 & H2 & H3 & H4 & H5). specialize (H5 Ht).
  unfold Js.msPerDay, Js.msPerHour, Js.msPerMinute, Js.msPerSecond.
  set (D := Js.Day t) in *. set (h0 := Js.HourFromTime t) in *.
  set (m := Js.MinFromTime t) in *. set (s := Js.SecFromTime t) in *.
  set (ms := Js.msFromTime t) in *. clearbody D h0 m s ms.
  pose proof (round_ge (h0 + hour)) as R0.
  set (h := Js.round (h0 + hour)) in *. clearbody h.
  pose proof (round_ge (h * 3600000)) as R1.
  set (x1 := Js.round (h * 3600000)) in *. clearbody x1.
  pose proof (round_ge (x1 + m * 60000)) as R2.
  set (x2 := Js.round (x1 + m * 60000)) in *. clearbody x2.
  pose proof (round_ge (x2 + s * 1000)) as R3.
  set (x3 := Js.round (x2 + s * 1000)) in *. clearbody x3.
  pose proof (round_ge (x3 + ms)) as R4.
  set (x4 := Js.round (x3 + ms)) in *. clearbody x4.
  pose proof (round_ge (D * 86400000 + x4)) as R5.
  set (x5 := Js.round (D * 86400000 + x4)) in *. clearbody x5.
  assert (B0 : 0 <= h) by lia.
  assert (B1 : 0 <= x1) by lia.
  assert (B2 : 0 <= x2) by lia.
  assert (B3 : 0 <= x3) by lia.
  assert (B4 : 0 <= x4) by lia.
  unfold Js.TimeClip.
  destruct (Z.leb_spec (Z.abs x5) 8640000000000000); [|done].
  exfalso. lia.
Qed.

(** The hour of a point at a position of at least 1. *)
Lemma hour_of_position (p : Z) :
  1 <= p ->
  Z.min (p - 1) 9007199254740991 <= Js.round (Js.round p - 1) /\
  (p <= 9007199254740992 -> Js.round (Js.round p - 1) = p - 1).
Proof.
  intros Hp. split.
  - pose proof (round_ge p) as R0.
    pose proof (round_ge (Js.round p - 1)) as R1. lia.
  - intros Hle. rewrite (round_small p) by lia. apply round_small. lia.
Qed.

(** The time of a point, for a period that starts from the epoch on. *)
Lemma point_time (t p : Z) :
  0 <= t -> 1 <= p ->
  (t + (p - 1) * 3600000 <= 8640000000000000 ->
   Js.round (Js.round p - 1) = p - 1 /\
   addHours (Some t) (p - 1) = Some (t + (p - 1) * 3600000)) /\
  (8640000000000000 < t + (p - 1) * 3600000 ->
   addHours (Some t) (Js.round (Js.round p - 1)) = None).
Proof.
  intros Ht Hp. destruct (hour_of_position p Hp) as [Hge Hex]. split.
  - intros Hr. split; [apply Hex; lia|]. apply addHours_exact; lia.
  - intros Hr. apply addHours_out_of_range; lia.
Qed.

Lemma newDate_valid (t : Z) :
  0 <= t <= 8640000000000000 -> Js.newDate (Js.Num t) = Some t.
Proof.
  intros Ht. unfold Js.newDate, Js.TimeClip.
  by destruct (Z.leb_spec (Z.abs t) 8640000000000000); [|lia].
Qed.

(** Reading and writing the properties of an object. *)
Lemma get_set_eq {V} (o : Js.obj V) (k : Z) (v : V) :
  Js.get (Js.set o k v) k = Some v.
Proof.
  induction o as [|[k' v'] o IH]; simpl.
  - by rewrite Z.eqb_refl.
  - destruct (Z.eqb_spec k' k) as [->|Hne]; simpl.
    + by rewrite Z.eqb_refl.
    + destruct (Js.is_index k && (negb (Js.is_index k') || (k <? k'))); simpl.
      * by rewrite Z.eqb_refl.
      * destruct (Z.eqb_spec k' k); [done | exact IH].
Qed.

Lemma get_set_ne {V} (o : Js.obj V) (k k0 : Z) (v : V) :
  k <> k0 -> Js.get (Js.set o k v) k0 = Js.get o k0.
Proof.
  intros Hne. induction o as [|[k' v'] o IH]; simpl.
  - by destruct (Z.eqb_spec k k0).
  - destruct (Z.eqb_spec k' k) as [->|Hk]; simpl.
    + by destruct (Z.eqb_spec k k0).
    + destruct (Js.is_index k && (negb (Js.is_index k') || (k <? k'))); simpl.
      * by destruct (Z.eqb_spec k k0).
      * by rewrite IH.
Qed.

(** The callback throws exactly on a bad point, and adds the entry of the
    point otherwise; it touches nothing but its accumulator. *)
Lemma addPoint_cases (ps : option Z) (pt : RawPoint) :
  (bad_point ps pt /\ point_entry ps pt = None /\
   exists e, forall acc w, addPoint ps acc pt w = (Throw e, w)) \/
  (~ bad_point ps pt /\
   exists hour rate, point_entry ps pt = Some (hour, rate) /\
     forall acc w, addPoint ps acc pt w = (Ok (Js.set acc hour rate), w)).
Proof.
  unfold addPoint, point_entry, bad_point.
  destruct (position pt) as [| |z] eqn:Hpos.
  - left. split; [by left|]. split; [done|]. by eexists.
  - left. split; [by right; left|]. split; [done|].
    destruct (price_amount pt); by eexists.
  - destruct (price_amount pt) as [amount|] eqn:Hprice.
    2: { left. split; [by right; right; left|]. split; [done|]. by eexists. }
    destruct (addHours ps (Js.round (Js.round z - 1))) as [t|] eqn:Ht.
    + right. split.
      * intros [?|[?|[?|(z' & [= <-] & Hn)]]]; congruence.
      * eexists _, _. split; [done|]. intros acc w.
        done.
    + left. split; [right; right; right; by exists z|]. split; [done|].
      exists RangeError. intros acc w.
      done.
Qed.

Lemma forEach_addPoint (ps : option Z) (points : list RawPoint)
    (acc : Js.obj Rate) :
  (Exists (bad_point ps) points /\
   exists e, forall w, forEach points (addPoint ps) acc w = (Throw e, w)) \/
  (~ Exists (bad_point ps) points /\
   forall w, forEach points (addPoint ps) acc w =
             (Ok (entriesOf ps points acc), w)).
Proof.
  revert acc. induction points as [|pt rest IH]; intros acc.
  - right. split; [by intros Hex%Exists_nil | done].
  - cbn [forEach]. unfold bind.
    destruct (addPoint_cases ps pt)
      as [(Hbad & _ & e & Hrun) | (Hok & hour & rate & Hentry & Hrun)].
    + left. split; [by apply Exists_cons_hd|]. exists e. intros w.
      by rewrite Hrun.
    + destruct (IH (Js.set acc hour rate)) as [(Hex & e & Hrest) | (Hnex & Hrest)].
      * left. split; [by apply Exists_cons_tl|]. exists e. intros w.
        by rewrite Hrun, Hrest.
      * right. split.
        -- intros [Hhd|Htl]%Exists_cons; done.
        -- intros w. rewrite Hrun, Hrest. unfold entriesOf. simpl.
           by rewrite Hentry.
Qed.

(** The two outcomes of the normalizer. *)
Lemma normalizePrices_cases (env : Env) (doc : MarketDocument) :
  (rejected doc /\
   exists e, forall w, normalizePrices env doc w = (Throw e, w)) \/
  (~ rejected doc /\
   exists rates,
     (forall w,
        normalizePrices env doc w =
        (Ok tt,
         {| users := users w;
            energy_prices :=
              Some {| lastUpdated := now env; hourlyRates := Some rates |};
            logs := logs w ++ [LogPricesSaved (length rates)];
            dispatched := dispatched w |})) /\
     exists start points,
       relevant_points doc = Some (start, points) /\
       rates = entriesOf (Js.newDate start) points []).
Proof.
  unfold rejected, relevant_points, normalizePrices.
  destruct (TimeSeries doc) as [[|ts0 tss]|]; try (left; split; [done | by eexists]).
  destruct (Period (List.last tss ts0)) as [|period ?];
    [left; split; [done | by eexists]|].
  destruct (Point period) as [[|pt rest]|]; try (left; split; [done | by eexists]).
  destruct (forEach_addPoint (Js.newDate (timeInterval_start period))
              (pt :: rest) [])
    as [(Hex & e & Hrun) | (Hnex & Hrun)].
  - left. split; [by right|].
    destruct (timeInterval_start period); [by eexists | |];
      exists e; intros w; unfold bind; by rewrite Hrun.
  - right.
    assert (Hstart : Js.newDate (timeInterval_start period) <> None).
    { intros Hnone. apply Hnex. apply Exists_cons_hd. rewrite Hnone.
      unfold bad_point.
      destruct (position pt) as [| |z]; [by left | by right; left|].
      right; right; right. by exists z. }
    split; [intros [?|?]; done|].
    eexists. split; [|by eexists _, _].
    intros w. destruct (timeInterval_start period); [done | done |].
    unfold bind. by rewrite Hrun.
Qed.

(** Later points with another position leave the rate of an hour alone. *)
Lemma ratesOf_other (t : Z) (points : list RawPoint) (acc : Js.obj Rate) (p : Z) :
  Forall (fun q => position q <> Js.Num p) points ->
  Js.get (ratesOf t points acc) (p - 1) = Js.get acc (p - 1).
Proof.
  intros Hall. revert acc.
  induction Hall as [|pt rest Hpt _ IH]; intros acc; [done|].
  unfold ratesOf in *. simpl. rewrite IH.
  destruct (position pt) as [| |q]; [done | done |].
  destruct (price_amount pt); [|done].
  apply get_set_ne. intros Heq. apply Hpt. f_equal. lia.
Qed.

Lemma ratesOf_app (t : Z) (l1 l2 : list RawPoint) (acc : Js.obj Rate) :
  ratesOf t (l1 ++ l2) acc = ratesOf t l2 (ratesOf t l1 acc).
Proof. unfold ratesOf. apply fold_left_app. Qed.

(** The rate stored for the last point at a position. *)
Lemma ratesOf_last (t : Z) (earlier later : list RawPoint) (pt : RawPoint)
    (p : Z) (amount : float) :
  position pt = Js.Num p -> price_amount pt = Some amount ->
  Forall (fun q => position q <> Js.Num p) later ->
  Js.get (ratesOf t (earlier ++ pt :: later) []) (p - 1) =
  Some (rateOf t p amount).
Proof.
  intros Hp Ha Hlater.
  rewrite ratesOf_app. change (pt :: later) with ([pt] ++ later).
  rewrite ratesOf_app, ratesOf_other by done.
  unfold ratesOf at 1. simpl. rewrite Hp, Ha. apply get_set_eq.
Qed.

(** For a feed of the usual kind every point is stored under
    hour = position - 1, at the period start plus that many hours. *)
Lemma publishable_entries (t : Z) (points : list RawPoint) (acc : Js.obj Rate) :
  publishable t points ->
  ~ Exists (bad_point (Some t)) points /\
  entriesOf (Some t) points acc = ratesOf t points acc.
Proof.
  intros [Ht Hall]. revert acc.
  induction Hall as [|pt rest (p & amount & Hp & Ha & Hp1 & Hr) _ IH];
    intros acc.
  - split; [by intros Hex%Exists_nil | done].
  - destruct (point_time t p Ht Hp1) as [Hin _].
    destruct (Hin Hr) as [Hhour Htime].
    assert (Hentry : point_entry (Some t) pt = Some (p - 1, rateOf t p amount)).
    { unfold point_entry. rewrite Hp, Ha. cbv zeta. by rewrite Hhour, Htime. }
    destruct (IH (Js.set acc (p - 1) (rateOf t p amount))) as [Hnex Heq].
    split.
    + intros [Hbad|Htl]%Exists_cons; [|done].
      destruct (addPoint_cases (Some t) pt) as [(_ & Hnone & _) | (Hok & _)];
        [congruence | done].
    + unfold entriesOf, ratesOf in *. simpl. by rewrite Hentry, Hp, Ha.
Qed.

Lemma publishable_start (t : Z) (points : list RawPoint) :
  points <> [] -> publishable t points -> 0 <= t <= 8640000000000000.
Proof.
  intros Hne [Ht Hall]. destruct Hall as [|pt rest (p & a & _ & _ & Hp & Hr) _];
    [done|]. lia.
Qed.

Lemma relevant_points_nonempty (doc : MarketDocument) (start : Js.Field)
    (points : list RawPoint) :
  relevant_points doc = Some (start, points) -> points <> [].
Proof.
  unfold relevant_points.
  destruct (TimeSeries doc) as [[|ts0 tss]|]; try done.
  destruct (Period (List.last tss ts0)) as [|period ?]; [done|].
  destruct (Point period) as [[|pt rest]|]; try done.
  by intros [= _ <-].
Qed.

(** A feed of the usual kind is accepted and published. *)
Lemma publishable_accepted (doc : MarketDocument) (t : Z) (points : list RawPoint) :
  relevant_points doc = Some (Js.Num t, points) ->
  publishable t points ->
  ~ rejected doc /\
  entriesOf (Js.newDate (Js.Num t)) points [] = ratesOf t points [].
Proof.
  intros Hrel Hpub.
  pose proof (publishable_start t points
                (relevant_points_nonempty _ _ _ Hrel) Hpub) as Ht.
  destruct (publishable_entries t points [] Hpub) as [Hnex Heq].
  unfold rejected. rewrite Hrel, (newDate_valid t Ht).
  split; [intros [?|?]; done | done].
Qed.

Lemma fetchEnergyPrices_publishes (env : Env) (doc : MarketDocument)
    (t : Z) (points : list RawPoint) (w : World) :
  relevant_points doc = Some (Js.Num t, points) ->
  publishable t points ->
  energy_prices (run (fetchEnergyPrices env (Ok doc)) w) =
  Some {| lastUpdated := now env; hourlyRates := Some (ratesOf t points []) |}.
Proof.
  intros Hrel Hpub.
  destruct (publishable_accepted doc t points Hrel Hpub) as [Hok Heq].
  unfold run, fetchEnergyPrices, try_catch, bind, log, ret. simpl.
  destruct (normalizePrices_cases env doc)
    as [(Hrej & _) | (_ & rates & Hrun & start & points' & Hrel' & ->)];
    [done|].
  rewrite Hrun. simpl. rewrite Hrel in Hrel'. injection Hrel' as <- <-.
  by rewrite Heq.
Qed.

Example normalizer_rejects_far_position :
  outcome
    (normalizePrices (sample_env 0 true)
       {| TimeSeries := Some [ {| Period :=
            [ {| timeInterval_start := Js.Num 0;
                 Point := Some [ {| position := Js.Num 1;
                                    price_amount := Some 50%float |};
                                 {| position := Js.Num 3000000000;
                                    price_amount := Some 70%float |} ] |} ] |} ] |})
    (sample_world (sample_user None 50 None) 0) = Throw RangeError.
Proof. vm_compute. reflexivity. Qed.

Example normalizer_rejects_missing_price :
  outcome
    (normalizePrices (sample_env 0 true)
       {| TimeSeries := Some [ {| Period :=
            [ {| timeInterval_start := Js.Num 0;
                 Point := Some [ {| position := Js.Num 1;
                                    price_amount := None |} ] |} ] |} ] |})
    (sample_world (sample_user None 50 None) 0) = Throw TypeError.
Proof. vm_compute. reflexivity. Qed.

(** A price that is not a number is published as it is. *)
Example normalizer_publishes_nan_price :
  outcome
    (normalizePrices (sample_env 0 true)
       {| TimeSeries := Some [ {| Period :=
            [ {| timeInterval_start := Js.Num 0;
                 Point := Some [ {| position := Js.Num 1;
                                    price_amount := Some nan |} ] |} ] |} ] |})
    (sample_world (sample_user None 50 None) 0) = Ok tt.
Proof. vm_compute. reflexivity. Qed.

(** C7 as stated fails: a feed whose positions are 1 and 3, which is not
    a contiguous range, is normalized and published, with one rate for
    hour 0 and one for hour 2. *)
Lemma normalizer_accepts_position_gap :
  malformed_feed gap_feed /\
  outcome (normalizePrices (sample_env 0 true) gap_feed)
    (sample_world (sample_user None 50 None) 0) = Ok tt /\
  energy_prices
    (run (fetchEnergyPrices (sample_env 0 true) (Ok gap_feed))
       (sample_world (sample_user None 50 None) 0)) =
  Some {| lastUpdated := 1700000000000;
          hourlyRates :=
            Some [(0, {| price := (50 / 1000)%float; time := 0 |});
                  (2, {| price := (70 / 1000)%float; time := 7200000 |})] |}.
Proof.
  split; [right; reflexivity|]. split; vm_compute; reflexivity.
Qed.

(** C7, as the code has it: the normalizer fails, and publishes nothing, exactly
    when the document has no TimeSeries, Period or price point, when the
    period start is missing or is not a date, when a point lacks its
    position or its price, when a position is not a number, or when the
    time of a point is outside the range of Date; in every other case it
    publishes the series.  For a period that starts from the epoch on and
    a position of at least 1 the time of the point is outside the range
    exactly when period start + (position - 1) hours exceeds 8.64e15 ms.
    The positions need not be a contiguous range 1..N: when the period
    starts from the epoch on and every point has a position of at least
    1, a price, and a time in the range, the feed is published with each
    point under hour = position - 1 (the last point of a position wins),
    its price divided by 1000 and that time. *)
Theorem normalizer_failure_conditions (env : Env) (doc : MarketDocument) (w : World) :
  ((exists e, outcome (normalizePrices env doc) w = Throw e) <-> rejected doc) /\
  (rejected doc ->
     run (normalizePrices env doc) w = w /\
     energy_prices (run (fetchEnergyPrices env (Ok doc)) w) = energy_prices w) /\
  (~ rejected doc ->
     exists start points,
       relevant_points doc = Some (start, points) /\
       let rates := entriesOf (Js.newDate start) points [] in
       outcome (normalizePrices env doc) w = Ok tt /\
       energy_prices (run (normalizePrices env doc) w) =
         Some {| lastUpdated := now env; hourlyRates := Some rates |} /\
       energy_prices (run (fetchEnergyPrices env (Ok doc)) w) =
         Some {| lastUpdated := now env; hourlyRates := Some rates |}) /\
  (forall t p,
     0 <= t <= 8640000000000000 -> 1 <= p ->
     (addHours (Js.newDate (Js.Num t)) (Js.round (Js.round p - 1)) = None <->
      8640000000000000 < t + (p - 1) * 3600000)) /\
  (forall t points,
     relevant_points doc = Some (Js.Num t, points) ->
     publishable t points ->
     ~ rejected doc /\
     energy_prices (run (fetchEnergyPrices env (Ok doc)) w) =
       Some {| lastUpdated := now env;
               hourlyRates := Some (ratesOf t points []) |} /\
     forall earlier pt later p amount,
       points = earlier ++ pt :: later ->
       position pt = Js.Num p -> price_amount pt = Some amount ->
       Forall (fun q => position q <> Js.Num p) later ->
       Js.get (ratesOf t points []) (p - 1) =
       Some {| price := (amount / 1000)%float;
               time := t + (p - 1) * 3600000 |}).
Proof.
  split; [|split; [|split; [|split]]].
  - unfold outcome.
    destruct (normalizePrices_cases env doc)
      as [(Hrej & e & Hrun) | (Hok & rates & Hrun & _)]; rewrite Hrun; simpl.
    + split; [done | by eexists].
    + split; [intros [e He]; discriminate | done].
  - intros Hrej.
    unfold run, fetchEnergyPrices, try_catch, bind, log, ret. simpl.
    destruct (normalizePrices_cases env doc)
      as [(_ & e & Hrun) | (Hok & _)]; [|done].
    by rewrite !Hrun.
  - intros Hok.
    unfold outcome, run, fetchEnergyPrices, try_catch, bind, log, ret. simpl.
    destruct (normalizePrices_cases env doc)
      as [(Hrej & _) | (_ & rates & Hrun & start & points & Hrel & ->)];
      [done|].
    exists start, points. split; [done|]. cbv zeta. by rewrite !Hrun.
  - intros t p Ht Hp. rewrite (newDate_valid t Ht).
    destruct (point_time t p (proj1 Ht) Hp) as [Hin Hout]. split.
    + intros Hnone.
      destruct (Z_le_gt_dec (t + (p - 1) * 3600000) 8640000000000000)
        as [Hle|Hgt]; [|lia].
      destruct (Hin Hle) as [Hhour Htime]. rewrite Hhour in Hnone. congruence.
    + exact Hout.
  - intros t points Hrel Hpub.
    split; [by apply (publishable_accepted doc t points)|].
    split; [by apply fetchEnergyPrices_publishes|].
    intros earlier pt later p amount -> Hp Ha Hlater.
    by apply ratesOf_last.
Qed.

Lemma normalizer_failure_conditions_witness :
  rejected
    {| TimeSeries := Some [ {| Period :=
         [ {| timeInterval_start := Js.NaN;
              Point := Some [ {| position := Js.Num 1;
                                 price_amount := Some 50%float |} ] |} ] |} ] |} /\
  run (normalizePrices (sample_env 0 true)
    {| TimeSeries := Some [ {| Period :=
         [ {| timeInterval_start := Js.NaN;
              Point := Some [ {| position := Js.Num 1;
                                 price_amount := Some 50%float |} ] |} ] |} ] |})
    (sample_world (sample_user None 50 None) 0) =
  sample_world (sample_user None 50 None) 0.
Proof.
  split; [by left|].
  apply (normalizer_failure_conditions (sample_env 0 true) _
           (sample_world (sample_user None 50 None) 0)).
  by left.
Defined.

(** * Further properties of the Window Selector *)

(** X1: on a price series of any length n (a day of 23 or 25 hours, a
    shorter feed) and a duration 1 <= d <= n, when some window has a mean
    below [Infinity] (means as the loop computes them, in double
    arithmetic): the selected start hour lies in [0, n - d], no window has
    a mean below that of the selected one, every earlier start hour has a
    mean above it or a [NaN] mean, and it is the only start hour of which
    this holds. *)
Theorem selectWindow_cheapest_any_length (prices : list float) (d : Z) :
  let n := Z.of_nat (length prices) in
  1 <= d <= n ->
  (exists s', 0 <= s' <= n - d /\ (mean prices s' d <? infinity)%float = true) ->
  let s := selectWindow prices d in
  0 <= s <= n - d /\
  (mean prices s d <? infinity)%float = true /\
  (forall s', 0 <= s' <= n - d ->
     (mean prices s' d <? mean prices s d)%float = false) /\
  (forall s', 0 <= s' < s ->
     (mean prices s d <? mean prices s' d)%float = true \/
     is_nan (mean prices s' d) = true) /\
  (forall s0, 0 <= s0 <= n - d ->
     (mean prices s0 d <? infinity)%float = true ->
     (forall s', 0 <= s' <= n - d ->
        (mean prices s' d <? mean prices s0 d)%float = false) ->
     (forall s', 0 <= s' < s0 ->
        (mean prices s0 d <? mean prices s' d)%float = true \/
        is_nan (mean prices s' d) = true) ->
     s0 = s).
Proof.
  intros n Hd (s1 & Hs1 & Hfin1) s.
  pose proof (selectWindow_general prices d) as H. cbv zeta in H.
  specialize (H Hd). change (selectWindow prices d) with s in H.
  change (Z.of_nat (length prices)) with n in H.
  destruct H as [[_ Hnone] | (Hs & Hfin & Hmin & Hfirst)].
  { rewrite Hnone in Hfin1 by done. discriminate. }
  split; [done|]. split; [done|]. split; [done|]. split; [done|].
  intros s0 Hs0 Hfin0 Hmin0 Hfirst0.
  destruct (Z.lt_trichotomy s0 s) as [Hlt | [Heq | Hgt]]; [|done|].
  - exfalso. destruct (Hfirst s0 ltac:(lia)) as [Hb | Hnan].
    + rewrite Hmin0 in Hb by lia. discriminate.
    + rewrite (nan_ltb _ _ Hnan) in Hfin0. discriminate.
  - exfalso. destruct (Hfirst0 s ltac:(lia)) as [Hb | Hnan].
    + rewrite Hmin in Hb by lia. discriminate.
    + rewrite (nan_ltb _ _ Hnan) in Hfin. discriminate.
Qed.

Lemma selectWindow_cheapest_any_length_witness :
  selectWindow long_day 2 = 23 /\
  0 <= selectWindow long_day 2 <= Z.of_nat (length long_day) - 2.
Proof.
  split; [vm_compute; reflexivity|].
  apply (selectWindow_cheapest_any_length long_day 2).
  - vm_compute. split; discriminate.
  - exists 0. split; [vm_compute; split; discriminate | vm_compute; reflexivity].
Defined.

(** X2: the loop leaves [bestStartHour] at -1 exactly when no start hour
    it tries has an average below [Infinity]: in particular when the
    duration exceeds the number of prices (no start hour is tried), and
    when every window holds a [NaN] price; any other result is a start
    hour in [0, n - d]. *)
Theorem selectWindow_no_solution_iff (prices : list float) (d : Z) :
  let n := Z.of_nat (length prices) in
  (selectWindow prices d = -1 <->
   forall j, 0 <= j <= n - d ->
     (averagePrice prices d j <? infinity)%float = false) /\
  (n < d -> selectWindow prices d = -1) /\
  (1 <= d ->
   (forall j, 0 <= j <= n - d ->
      exists i, j <= i < j + d /\
                is_nan (nth (Z.to_nat i) prices 0%float) = true) ->
   selectWindow prices d = -1) /\
  (selectWindow prices d <> -1 -> 0 <= selectWindow prices d <= n - d).
Proof.
  intros n.
  pose proof (selectWindow_averages prices d) as H. cbv zeta in H.
  change (Z.of_nat (length prices)) with n in H.
  assert (Hiff : selectWindow prices d = -1 <->
            forall j, 0 <= j <= n - d ->
              (averagePrice prices d j <? infinity)%float = false).
  { destruct H as [[Hs Hnone] | (Hs & Hfin & _)].
    - split; done.
    - split; [lia|]. intros Hnone. rewrite Hnone in Hfin by lia. discriminate. }
  split; [exact Hiff|]. split; [apply selectWindow_none|]. split.
  - intros Hd Hnan. apply Hiff. intros j Hj.
    destruct (Hnan j Hj) as (i & Hi & Hni).
    apply nan_ltb. rewrite averagePrice_mean by lia.
    by apply (mean_nan prices j d i); [lia | lia |].
  - intros Hne. destruct H as [[Hs _] | (Hs & _)]; [done | lia].
Qed.

Lemma selectWindow_no_solution_iff_witness :
  selectWindow [1; nan; 2]%float 2 = -1.
Proof.
  apply (selectWindow_no_solution_iff [1; nan; 2]%float 2); [lia|].
  intros j Hj. exists 1.
  split; [simpl in Hj; lia | reflexivity].
Defined.

(** A negative duration is not refused: the window is cut by [slice], and
    a start hour is found. *)
Example selectWindow_negative_duration :
  selectWindow (map Js.of_Z [3; 1; 2]) (-1) = 0.
Proof. vm_compute. reflexivity. Qed.

(** * Further properties of calculateOptimalWindow *)

Section OptimalWindowStore.

Variable prices : list float.

Let step (m : gmap string UserDoc) (op : string * Z) : gmap string UserDoc :=
  alter (set_optimalStartHour op.2) op.1 m.

(** The callback appends the batch entry of the user, if there is one. *)
Lemma windowForUser_exact (batch : list (string * Z)) (id : string)
    (doc : UserDoc) (w : World) :
  exists l,
    windowForUser prices batch (id, doc) w =
    (Ok (batch ++ option_list (batchOp prices (id, doc))), add_logs w l).
Proof.
  unfold windowForUser, batchOp, windowOf. simpl.
  destruct (settings doc) as [st|].
  2: { exists [LogUserSkipped id]. simpl. by rewrite app_nil_r. }
  destruct (chargingDuration st) as [h|].
  2: { exists [LogUserSkipped id]. simpl. by rewrite app_nil_r. }
  simpl. destruct (h =? 0); simpl.
  { exists [LogUserSkipped id]. by rewrite app_nil_r. }
  destruct (selectWindow prices h =? -1); simpl.
  - exists []. by rewrite add_logs_nil, app_nil_r.
  - by exists [LogOptimalWindow id h (selectWindow prices h)].
Qed.

Lemma forEach_windowForUser_exact (docs : list (string * UserDoc))
    (batch : list (string * Z)) (w : World) :
  exists l,
    forEach docs (windowForUser prices) batch w =
    (Ok (batch ++ omap (batchOp prices) docs), add_logs w l).
Proof.
  revert batch w. induction docs as [|[id doc] docs IH]; intros batch w.
  - exists []. simpl. by rewrite add_logs_nil, app_nil_r.
  - destruct (windowForUser_exact batch id doc w) as (l1 & Hrun).
    destruct (IH (batch ++ option_list (batchOp prices (id, doc)))
                (add_logs w l1)) as (l2 & Hrest).
    exists (l1 ++ l2). cbn [forEach]. unfold bind.
    rewrite Hrun, Hrest, add_logs_app, <- app_assoc.
    cbn [omap list_omap]. by destruct (batchOp prices (id, doc)).
Qed.

(** The commit of a batch whose documents exist, as a fold over the
    store. *)
Lemma commit_exact (batch : list (string * Z)) (w : World) :
  (forall op, op ∈ batch -> is_Some (users w !! op.1)) ->
  commit batch w =
  (Ok tt, {| users := foldl step (users w) batch;
             energy_prices := energy_prices w;
             logs := logs w; dispatched := dispatched w |}).
Proof.
  revert w. induction batch as [|[id h] batch IH]; intros w Hex.
  - by destruct w.
  - destruct (Hex (id, h)) as [d Hd]; [apply list_elem_of_here|].
    unfold commit. cbn [forEach]. unfold bind at 1. unfold update_user at 1.
    simpl in *. rewrite Hd. fold (commit batch). rewrite IH.
    + simpl. replace (step (users w) (id, h))
        with (<[id:=set_optimalStartHour h d]> (users w)); [done|].
      unfold step. simpl. by rewrite (alter_alt_Some _ _ _ d).
    + intros op Hin. simpl. apply lookup_insert_is_Some'. right.
      apply Hex. by apply list_elem_of_further.
Qed.

(** The store after the batch of the users [docs]. *)
Lemma apply_batch_lookup (docs : list (string * UserDoc))
    (m : gmap string UserDoc) (uid : string) :
  NoDup docs.*1 ->
  (forall id doc, (id, doc) ∈ docs -> m !! id = Some doc) ->
  foldl step m (omap (batchOp prices) docs) !! uid =
  if decide (uid ∈ docs.*1) then withWindow prices <$> m !! uid else m !! uid.
Proof.
  revert m. induction docs as [|[id doc] docs IH]; intros m Hnd Hm.
  - done.
  - apply NoDup_cons in Hnd as [Hid Hnd]. simpl in Hid.
    assert (Hdoc : m !! id = Some doc) by apply Hm, list_elem_of_here.
    assert (Hrest : forall id' doc', (id', doc') ∈ docs -> id' <> id).
    { intros id' doc' Hin ->. apply Hid.
      by apply (list_elem_of_fmap_2 fst) in Hin. }
    cbn [omap list_omap]. unfold batchOp at 1. simpl.
    destruct (windowOf prices doc) as [h|] eqn:Hw; simpl.
    + rewrite IH; [|done|].
      2: { intros id' doc' Hin. unfold step. simpl.
           rewrite lookup_alter_ne; [|by intros <-; eapply Hrest].
           apply Hm. by apply list_elem_of_further. }
      unfold step at 1 2. simpl.
      destruct (decide (uid = id)) as [->|Hne].
      * rewrite decide_False by done. rewrite decide_True by apply list_elem_of_here.
        rewrite lookup_alter_eq, Hdoc. simpl. unfold withWindow. by rewrite Hw.
      * rewrite lookup_alter_ne by done.
        destruct (decide (uid ∈ docs.*1)).
        -- rewrite decide_True; [done | by apply list_elem_of_further].
        -- rewrite decide_False; [done|].
           intros Hin. apply elem_of_cons in Hin as [|]; done.
    + rewrite IH; [|done|].
      2: { intros id' doc' Hin. apply Hm. by apply list_elem_of_further. }
      destruct (decide (uid = id)) as [->|Hne].
      * rewrite decide_False by done. rewrite decide_True by apply list_elem_of_here.
        rewrite Hdoc. simpl. unfold withWindow. by rewrite Hw.
      * destruct (decide (uid ∈ docs.*1)).
        -- rewrite decide_True; [done | by apply list_elem_of_further].
        -- rewrite decide_False; [done|].
           intros Hin. apply elem_of_cons in Hin as [|]; done.
Qed.

Lemma apply_batch_store (m : gmap string UserDoc) :
  foldl step m (omap (batchOp prices) (map_to_list m)) = withWindow prices <$> m.
Proof.
  apply map_eq. intros uid.
  rewrite apply_batch_lookup.
  - rewrite lookup_fmap. destruct (decide (uid ∈ (map_to_list m).*1)) as [|Hn]; [done|].
    destruct (m !! uid) as [d|] eqn:Hd; [|done].
    exfalso. apply Hn. apply elem_of_map_to_list in Hd.
    by apply (list_elem_of_fmap_2 fst) in Hd.
  - apply NoDup_fst_map_to_list.
  - intros id doc Hin. by apply elem_of_map_to_list.
Qed.

End OptimalWindowStore.

(** The whole function in closed form: it completes, and the store
    afterwards is the store before with the window of each user written. *)
Lemma calculateOptimalWindow_run (priceData : PriceDoc) (w : World) :
  exists l,
    calculateOptimalWindow priceData w =
    (Ok tt,
     {| users :=
          match hourlyRates priceData with
          | Some _ => withWindow (prices_of priceData) <$> users w
          | None => users w
          end;
        energy_prices := energy_prices w;
        logs := logs w ++ l;
        dispatched := dispatched w |}).
Proof.
  unfold calculateOptimalWindow, prices_of.
  unfold bind at 1. unfold log at 1.
  destruct (hourlyRates priceData) as [hr|].
  2: { exists [LogWindowRunning; LogNoHourlyRates]. unfold log. simpl.
       by rewrite <- app_assoc. }
  unfold bind at 1. unfold get_users at 1. cbn [users].
  destruct (map_to_list (users w)) as [|ud docs] eqn:Hlist.
  { exists [LogWindowRunning; LogNoUsers]. unfold log. simpl.
    apply map_to_list_empty_iff in Hlist. rewrite Hlist, fmap_empty.
    by rewrite <- app_assoc. }
  rewrite <- Hlist. unfold bind at 1.
  set (w0 := {| users := users w; energy_prices := energy_prices w;
                logs := logs w ++ [LogWindowRunning];
                dispatched := dispatched w |}).
  destruct (forEach_windowForUser_exact (map price (Js.values hr))
              (map_to_list (users w)) [] w0) as (l & Hrun).
  rewrite Hrun. unfold bind. rewrite commit_exact.
  - exists ([LogWindowRunning] ++ l ++ [LogWindowFinished]).
    unfold log. simpl. rewrite apply_batch_store.
    by rewrite <- !app_assoc.
  - intros [id h] Hin. simpl in *.
    apply list_elem_of_omap in Hin as ([id' doc] & Hin & Hop).
    unfold batchOp in Hop. simpl in Hop.
    destruct (windowOf _ doc); [|done]. injection Hop as -> _.
    apply elem_of_map_to_list in Hin. by exists doc.
Qed.

(** The start hour written for a user. *)
Lemma windowOf_spec (prices : list float) (doc : UserDoc) (h : Z) :
  windowOf prices doc = Some h <->
  exists st d, settings doc = Some st /\ chargingDuration st = Some d /\
               d <> 0 /\ selectWindow prices d = h /\ h <> -1.
Proof.
  unfold windowOf. split.
  - destruct (settings doc) as [st|]; [|done].
    destruct (chargingDuration st) as [d|] eqn:Hd; [|done].
    destruct (Z.eqb_spec d 0); [done|].
    destruct (Z.eqb_spec (selectWindow prices d) (-1)); [done|].
    intros [= <-]. by exists st, d.
  - intros (st & d & -> & -> & Hd & <- & Hs).
    destruct (Z.eqb_spec d 0); [done|].
    by destruct (Z.eqb_spec (selectWindow prices d) (-1)).
Qed.

(** X3: [calculateOptimalWindow] always completes without error, and when
    the price document has [hourlyRates] the user collection afterwards is
    the collection before with, for each user that has settings, a
    non-zero [chargingDuration] d and a start hour other than -1 selected
    for d, [optimalStartHour] stored as that start hour, and every other
    user document as it was; without [hourlyRates] nothing is written. *)
Theorem calculateOptimalWindow_store (priceData : PriceDoc) (w : World) :
  let prices := prices_of priceData in
  let w' := run (calculateOptimalWindow priceData) w in
  outcome (calculateOptimalWindow priceData) w = Ok tt /\
  (is_Some (hourlyRates priceData) ->
     users w' = withWindow prices <$> users w /\
     forall uid doc, users w !! uid = Some doc ->
       (forall st d,
          settings doc = Some st -> chargingDuration st = Some d ->
          d <> 0 -> selectWindow prices d <> -1 ->
          exists doc' st',
            users w' !! uid = Some doc' /\
            settings doc' = Some st' /\
            optimalStartHour st' = Some (selectWindow prices d)) /\
       (windowOf prices doc = None -> users w' !! uid = Some doc)) /\
  (hourlyRates priceData = None -> users w' = users w).
Proof.
  intros prices w'. subst w'.
  destruct (calculateOptimalWindow_run priceData w) as (l & Hrun).
  unfold outcome, run. rewrite Hrun. simpl.
  split; [done|]. split.
  - intros [hr ->]. split; [done|].
    intros uid doc Hdoc. rewrite lookup_fmap, Hdoc. simpl. split.
    + intros st d Hst Hd Hd0 Hs.
      assert (Hw : windowOf prices doc = Some (selectWindow prices d)).
      { apply windowOf_spec. by exists st, d. }
      unfold withWindow. fold prices. rewrite Hw.
      unfold set_optimalStartHour. rewrite Hst. by eexists _, _.
    + intros Hw. unfold withWindow. fold prices. by rewrite Hw.
  - by intros ->.
Qed.

Lemma calculateOptimalWindow_store_witness :
  exists doc' st',
    users
      (run (calculateOptimalWindow
              {| lastUpdated := 0; hourlyRates := Some (flat_rates 1) |})
         (sample_world (sample_user None 50 None) 1))
      !! "u1"%string = Some doc' /\
    settings doc' = Some st' /\
    optimalStartHour st' = Some 0.
Proof.
  assert (Hdoc : users (sample_world (sample_user None 50 None) 1)
                   !! "u1"%string = Some (sample_user None 50 None))
    by reflexivity.
  assert (Hs : selectWindow
                 (prices_of {| lastUpdated := 0;
                               hourlyRates := Some (flat_rates 1) |}) 4 = 0)
    by (vm_compute; reflexivity).
  destruct (proj1 (proj2 (calculateOptimalWindow_store
              {| lastUpdated := 0; hourlyRates := Some (flat_rates 1) |}
              (sample_world (sample_user None 50 None) 1)))
              (ex_intro _ (flat_rates 1) eq_refl)) as [_ Hst].
  destruct (proj1 (Hst "u1"%string (sample_user None 50 None) Hdoc)
              sample_settings 4 eq_refl eq_refl ltac:(lia)
              ltac:(rewrite Hs; lia))
    as (doc' & st' & Hdoc' & Hst' & Hopt).
  exists doc', st'. split; [exact Hdoc'|]. split; [exact Hst'|].
  rewrite Hopt, Hs. reflexivity.
Defined.

(** X4: [calculateOptimalWindow] writes nothing but
    [settings.optimalStartHour]: the price document and the dispatched
    commands are untouched, no user document is created or deleted, and
    the vehicle, the refresh token, the override flag and the other
    settings of every user keep their values. *)
Theorem calculateOptimalWindow_frame (priceData : PriceDoc) (w : World) :
  let w' := run (calculateOptimalWindow priceData) w in
  energy_prices w' = energy_prices w /\
  dispatched w' = dispatched w /\
  (forall uid, users w !! uid = None -> users w' !! uid = None) /\
  (forall uid doc, users w !! uid = Some doc ->
     exists doc', users w' !! uid = Some doc' /\
       vehicle doc' = vehicle doc /\
       teslaRefreshToken doc' = teslaRefreshToken doc /\
       chargeOverride doc' = chargeOverride doc /\
       chargingDuration <$> settings doc' = chargingDuration <$> settings doc /\
       emergencyThreshold <$> settings doc' = emergencyThreshold <$> settings doc /\
       targetBattery <$> settings doc' = targetBattery <$> settings doc).
Proof.
  intros w'. subst w'.
  destruct (calculateOptimalWindow_run priceData w) as (l & Hrun).
  unfold run. rewrite Hrun. simpl.
  split; [done|]. split; [done|]. split.
  - intros uid Hnone. destruct (hourlyRates priceData); [|done].
    by rewrite lookup_fmap, Hnone.
  - intros uid doc Hdoc. destruct (hourlyRates priceData).
    2: { exists doc. by repeat split. }
    exists (withWindow (prices_of priceData) doc).
    rewrite lookup_fmap, Hdoc. split; [done|].
    unfold withWindow. destruct (windowOf _ doc); [|by repeat split].
    unfold set_optimalStartHour. simpl.
    destruct (settings doc); by repeat split.
Qed.

Lemma calculateOptimalWindow_frame_witness :
  exists doc',
    users
      (run (calculateOptimalWindow
              {| lastUpdated := 0; hourlyRates := Some (flat_rates 1) |})
         (sample_world (sample_user (Some true) 50 (Some true)) 1))
      !! "u1"%string = Some doc' /\
    vehicle doc' = vehicle (sample_user (Some true) 50 (Some true)).
Proof.
  assert (Hdoc : users (sample_world (sample_user (Some true) 50 (Some true)) 1)
                   !! "u1"%string = Some (sample_user (Some true) 50 (Some true)))
    by reflexivity.
  destruct (proj2 (proj2 (proj2
              (calculateOptimalWindow_frame
                 {| lastUpdated := 0; hourlyRates := Some (flat_rates 1) |}
                 (sample_world (sample_user (Some true) 50 (Some true)) 1))))
              "u1"%string (sample_user (Some true) 50 (Some true)) Hdoc)
    as (doc' & Hdoc' & Hv & _).
  exists doc'. split; [exact Hdoc' | exact Hv].
Defined.

(** X5: after [calculateOptimalWindow], for a user whose
    [chargingDuration] d satisfies 1 <= d <= number of prices, when some
    window of d prices has a mean below [Infinity]: the stored
    [optimalStartHour] is the index s that the loop selects in the list
    of the prices taken in the enumeration order of [hourlyRates], it
    lies in [0, n - d], and no window of d consecutive prices of that
    list has a mean below that of the window at s (means as the loop
    computes them). *)
Theorem calculateOptimalWindow_stores_cheapest (priceData : PriceDoc)
    (w : World) (uid : string) (doc : UserDoc) (st : Settings) (d : Z) :
  let prices := prices_of priceData in
  let n := Z.of_nat (length prices) in
  is_Some (hourlyRates priceData) ->
  users w !! uid = Some doc ->
  settings doc = Some st ->
  chargingDuration st = Some d ->
  1 <= d <= n ->
  (exists s', 0 <= s' <= n - d /\ (mean prices s' d <? infinity)%float = true) ->
  exists doc' st' s,
    users (run (calculateOptimalWindow priceData) w) !! uid = Some doc' /\
    settings doc' = Some st' /\
    optimalStartHour st' = Some s /\
    s = selectWindow prices d /\
    0 <= s <= n - d /\
    (forall s', 0 <= s' <= n - d ->
       (mean prices s' d <? mean prices s d)%float = false).
Proof.
  intros prices n [hr Hhr] Hdoc Hst Hd Hrange (s1 & Hs1 & Hfin1).
  destruct (calculateOptimalWindow_run priceData w) as (l & Hrun).
  pose proof (selectWindow_general prices d) as H. cbv zeta in H.
  specialize (H Hrange). change (Z.of_nat (length prices)) with n in H.
  destruct H as [[_ Hnone] | (Hs & _ & Hmin & _)].
  { rewrite Hnone in Hfin1 by done. discriminate. }
  exists (withWindow prices doc),
    {| chargingDuration := chargingDuration st;
       emergencyThreshold := emergencyThreshold st;
       targetBattery := targetBattery st;
       optimalStartHour := Some (selectWindow prices d) |},
    (selectWindow prices d).
  unfold run. rewrite Hrun. simpl. rewrite Hhr, lookup_fmap, Hdoc. simpl.
  split; [done|].
  assert (Hw : windowOf prices doc = Some (selectWindow prices d)).
  { apply windowOf_spec. exists st, d. repeat split; try done; lia. }
  unfold withWindow. rewrite Hw. unfold set_optimalStartHour. rewrite Hst.
  by repeat split; try lia.
Qed.

Lemma calculateOptimalWindow_stores_cheapest_witness :
  exists doc' st' s,
    users
      (run (calculateOptimalWindow
              {| lastUpdated := 0; hourlyRates := Some (flat_rates 1) |})
         (sample_world (sample_user None 50 None) 1))
      !! "u1"%string = Some doc' /\
    settings doc' = Some st' /\
    optimalStartHour st' = Some s /\
    s = 0.
Proof.
  assert (Hdoc : users (sample_world (sample_user None 50 None) 1)
                   !! "u1"%string = Some (sample_user None 50 None))
    by reflexivity.
  assert (Hrange : 1 <= 4 <= Z.of_nat (length (prices_of
            {| lastUpdated := 0; hourlyRates := Some (flat_rates 1) |})))
    by (vm_compute; split; discriminate).
  assert (Hfin : exists s',
            0 <= s' <= Z.of_nat (length (prices_of
              {| lastUpdated := 0; hourlyRates := Some (flat_rates 1) |})) - 4 /\
            (mean (prices_of
                {| lastUpdated := 0; hourlyRates := Some (flat_rates 1) |})
               s' 4 <? infinity)%float = true).
  { exists 0. split; [vm_compute; split; discriminate | vm_compute; reflexivity]. }
  destruct (calculateOptimalWindow_stores_cheapest
              {| lastUpdated := 0; hourlyRates := Some (flat_rates 1) |}
              (sample_world (sample_user None 50 None) 1)
              "u1"%string (sample_user None 50 None) sample_settings 4
              (ex_intro _ (flat_rates 1) eq_refl) Hdoc eq_refl eq_refl
              Hrange Hfin)
    as (doc' & st' & s & Hdoc' & Hst' & Hs & Heq & _).
  exists doc', st', s.
  split; [exact Hdoc'|]. split; [exact Hst'|]. split; [exact Hs|].
  rewrite Heq. vm_compute. reflexivity.
Defined.

(** The stored start hour is an index into the enumerated prices, not an
    hour of the day: with rates for the hours 5, 6 and 7 only, the
    cheapest hour 6 is stored as 1. *)
Example optimalStartHour_is_an_index :
  selectWindow
    (prices_of
       {| lastUpdated := 0;
          hourlyRates :=
            Some [(5, {| price := 3; time := 18000000 |});
                  (6, {| price := 1; time := 21600000 |});
                  (7, {| price := 2; time := 25200000 |})] |}) 1 = 1.
Proof. vm_compute. reflexivity. Qed.

(** * Further properties of the Price Normalizer *)

(** X6: when the period starts from the epoch on and every point has a
    position of at least 1, a price, and a time within the range of Date,
    the point that is the last one with position p is published under
    hour p - 1, with its price divided by 1000 and the period start plus
    p - 1 hours as time; an earlier point with the same position is
    overwritten. *)
Theorem published_rate_of_point (env : Env) (doc : MarketDocument) (w : World)
    (t : Z) (earlier later : list RawPoint) (pt : RawPoint) (p : Z)
    (amount : float) :
  relevant_points doc = Some (Js.Num t, earlier ++ pt :: later) ->
  publishable t (earlier ++ pt :: later) ->
  position pt = Js.Num p ->
  price_amount pt = Some amount ->
  Forall (fun q => position q <> Js.Num p) later ->
  exists rates,
    energy_prices (run (fetchEnergyPrices env (Ok doc)) w) =
      Some {| lastUpdated := now env; hourlyRates := Some rates |} /\
    Js.get rates (p - 1) =
      Some {| price := (amount / 1000)%float;
              time := t + (p - 1) * 3600000 |}.
Proof.
  intros Hrel Hpub Hp Ha Hlater.
  exists (ratesOf t (earlier ++ pt :: later) []).
  split; [by apply fetchEnergyPrices_publishes|].
  by apply ratesOf_last.
Qed.

Lemma gap_feed_publishable :
  publishable 0
    [ {| position := Js.Num 1; price_amount := Some 50%float |};
      {| position := Js.Num 3; price_amount := Some 70%float |} ].
Proof.
  split; [lia|].
  repeat constructor; eexists _, _;
    (split; [reflexivity|]; split; [reflexivity|]; lia).
Qed.

Lemma published_rate_of_point_witness :
  exists rates,
    energy_prices
      (run (fetchEnergyPrices (sample_env 0 true) (Ok gap_feed))
         (sample_world (sample_user None 50 None) 0)) =
      Some {| lastUpdated := 1700000000000; hourlyRates := Some rates |} /\
    Js.get rates (3 - 1) =
      Some {| price := (70 / 1000)%float;
              time := 0 + (3 - 1) * 3600000 |}.
Proof.
  apply (published_rate_of_point (sample_env 0 true) gap_feed
           (sample_world (sample_user None 50 None) 0) 0
           [ {| position := Js.Num 1; price_amount := Some 50%float |} ] []
           {| position := Js.Num 3; price_amount := Some 70%float |} 3 70%float).
  - reflexivity.
  - exact gap_feed_publishable.
  - reflexivity.
  - reflexivity.
  - constructor.
Defined.

(** A key above all the keys of the object, which are array indices, is
    appended. *)
Lemma set_append {V} (o : Js.obj V) (k : Z) (v : V) :
  Forall (fun kv => 0 <= kv.1 < k) o -> k < 4294967295 ->
  Js.set o k v = o ++ [(k, v)].
Proof.
  intros Hall Hk.
  induction Hall as [|[k' v'] o [Hk0 Hk'] _ IH]; [done|]. simpl in *.
  destruct (Z.eqb_spec k' k); [lia|].
  unfold Js.is_index.
  destruct (Z.leb_spec 0 k'); [|lia]. destruct (Z.ltb_spec k' 4294967295); [|lia].
  destruct (Z.ltb_spec k k'); [lia|].
  simpl. rewrite andb_false_r. by rewrite IH.
Qed.

Lemma ratesOf_cons (t : Z) (pt : RawPoint) (rest : list RawPoint)
    (acc : Js.obj Rate) (p : Z) (amount : float) :
  position pt = Js.Num p -> price_amount pt = Some amount ->
  ratesOf t (pt :: rest) acc =
  ratesOf t rest (Js.set acc (p - 1) (rateOf t p amount)).
Proof. intros Hp Ha. unfold ratesOf. simpl. by rewrite Hp, Ha. Qed.

Lemma ratesOf_in_order (t : Z) (points : list RawPoint) (amounts : list float)
    (acc : Js.obj Rate) (i : nat) :
  map position points =
    map (fun j => Js.Num (Z.of_nat j)) (seq (S i) (length points)) ->
  map price_amount points = map Some amounts ->
  Z.of_nat i + Z.of_nat (length points) <= 4294967295 ->
  Forall (fun kv => 0 <= kv.1 < Z.of_nat i) acc ->
  map price (Js.values (ratesOf t points acc)) =
  map price (Js.values acc) ++ map (fun a => (a / 1000)%float) amounts.
Proof.
  revert amounts acc i.
  induction points as [|pt rest IH]; intros amounts acc i Hpos Hprice Hlen Hacc.
  - destruct amounts; [|done]. simpl. by rewrite app_nil_r.
  - destruct amounts as [|a amounts]; [done|].
    simpl in Hpos, Hprice, Hlen.
    injection Hpos as Hp Hrest. injection Hprice as Ha Hprice.
    rewrite (ratesOf_cons _ _ _ _ _ _ Hp Ha).
    replace (Z.of_nat (S i) - 1) with (Z.of_nat i) by lia.
    rewrite set_append by (done || lia).
    rewrite (IH amounts _ (S i)); [|done|done|lia|].
    + unfold Js.values. rewrite !map_app. simpl. by rewrite <- app_assoc.
    + apply Forall_app. split.
      * eapply Forall_impl; [exact Hacc|]. simpl. intros kv Hkv. lia.
      * constructor; [simpl; lia | constructor].
Qed.

(** X7: when the period starts from the epoch on and the points carry the
    positions 1, 2, ..., N in document order, each with a price and a
    time within the range of Date, the price list that
    [calculateOptimalWindow] reads from the published document is the
    list of the raw prices divided by 1000, in the same order. *)
Theorem published_prices_in_order (env : Env) (doc : MarketDocument) (w : World)
    (t : Z) (points : list RawPoint) (amounts : list float) :
  relevant_points doc = Some (Js.Num t, points) ->
  0 <= t ->
  t + (Z.of_nat (length points) - 1) * 3600000 <= 8640000000000000 ->
  map position points =
    map (fun j => Js.Num (Z.of_nat j)) (seq 1 (length points)) ->
  map price_amount points = map Some amounts ->
  exists priceDoc,
    energy_prices (run (fetchEnergyPrices env (Ok doc)) w) = Some priceDoc /\
    prices_of priceDoc = map (fun a => (a / 1000)%float) amounts.
Proof.
  intros Hrel Ht Hrange Hpos Hprice.
  assert (Hpub : publishable t points).
  { split; [done|]. apply List.Forall_forall. intros pt Hin.
    pose proof (in_map position _ _ Hin) as Hp. rewrite Hpos in Hp.
    apply in_map_iff in Hp as (j & Hj & Hjin). apply in_seq in Hjin.
    pose proof (in_map price_amount _ _ Hin) as Ha. rewrite Hprice in Ha.
    apply in_map_iff in Ha as (a & Ha & _).
    exists (Z.of_nat j), a. split; [done|]. split; [done|]. lia. }
  eexists. split; [by apply fetchEnergyPrices_publishes|].
  unfold prices_of. simpl.
  by rewrite (ratesOf_in_order t points amounts [] 0) by (done || lia).
Qed.

Lemma published_prices_in_order_witness :
  exists priceDoc,
    energy_prices
      (run (fetchEnergyPrices (sample_env 0 true) (Ok ordered_feed))
         (sample_world (sample_user None 50 None) 0)) = Some priceDoc /\
    prices_of priceDoc = [(50 / 1000)%float; (70 / 1000)%float; (60 / 1000)%float].
Proof.
  apply (published_prices_in_order (sample_env 0 true) ordered_feed
           (sample_world (sample_user None 50 None) 0) 0
           [ {| position := Js.Num 1; price_amount := Some 50%float |};
             {| position := Js.Num 2; price_amount := Some 70%float |};
             {| position := Js.Num 3; price_amount := Some 60%float |} ]
           [50; 70; 60]%float);
    [reflexivity | lia | simpl; lia | reflexivity | reflexivity].
Defined.

(** The keys of an object after [set]. *)
Lemma set_keys {V} (o : Js.obj V) (k : Z) (v : V) (x : Z) :
  x ∈ map fst (Js.set o k v) -> x = k \/ x ∈ map fst o.
Proof.
  induction o as [|[k' v'] o IH]; simpl.
  - intros Hx. apply list_elem_of_singleton in Hx. by left.
  - destruct (Z.eqb_spec k' k) as [->|Hne]; simpl.
    + intros Hx. right. exact Hx.
    + destruct (Js.is_index k && (negb (Js.is_index k') || (k <? k'))); simpl.
      * intros Hx. apply elem_of_cons in Hx as [->|Hx]; [by left | by right].
      * intros Hx. apply elem_of_cons in Hx as [->|Hx].
        -- right. apply list_elem_of_here.
        -- destruct (IH Hx) as [->|Hin]; [by left|].
           right. by apply list_elem_of_further.
Qed.

(** Array-index keys stay in strictly increasing order. *)
Lemma set_sorted {V} (o : Js.obj V) (k : Z) (v : V) :
  0 <= k < 4294967295 ->
  Forall (fun x => 0 <= x < 4294967295) (map fst o) ->
  StronglySorted Z.lt (map fst o) ->
  Forall (fun x => 0 <= x < 4294967295) (map fst (Js.set o k v)) /\
  StronglySorted Z.lt (map fst (Js.set o k v)).
Proof.
  intros Hk. induction o as [|[k' v'] o IH]; simpl; intros Hpos Hsorted.
  - split; repeat constructor; lia.
  - apply Forall_cons in Hpos as [Hk' Hpos].
    apply StronglySorted_inv in Hsorted as [Hsorted Hlt]. simpl in *.
    destruct (Z.eqb_spec k' k) as [->|Hne]; simpl.
    + split; [by constructor|]. by constructor.
    + unfold Js.is_index.
      destruct (Z.leb_spec 0 k); [|lia]. destruct (Z.ltb_spec k 4294967295); [|lia].
      destruct (Z.leb_spec 0 k'); [|lia]. destruct (Z.ltb_spec k' 4294967295); [|lia].
      simpl. destruct (Z.ltb_spec k k') as [Hkk|Hkk]; simpl.
      * split; [by repeat constructor|].
        constructor; [by constructor|].
        constructor; [done|].
        eapply Forall_impl; [exact Hlt|]. simpl. intros x Hx. lia.
      * destruct (IH Hpos Hsorted) as [Hpos' Hsorted'].
        split; [by constructor|]. constructor; [done|].
        apply Forall_forall. intros x Hx.
        destruct (set_keys o k v x Hx) as [->|Hin]; [lia|].
        rewrite Forall_forall in Hlt. by apply Hlt.
Qed.

Lemma ratesOf_sorted (t : Z) (points : list RawPoint) (acc : Js.obj Rate) :
  publishable t points ->
  Forall (fun x => 0 <= x < 4294967295) (map fst acc) ->
  StronglySorted Z.lt (map fst acc) ->
  StronglySorted Z.lt (map fst (ratesOf t points acc)).
Proof.
  intros [Ht Hall]. revert acc.
  induction Hall as [|pt rest (p & a & Hp & Ha & Hp1 & Hr) _ IH];
    intros acc Hpos Hsorted; [done|].
  rewrite (ratesOf_cons _ _ _ _ _ _ Hp Ha).
  destruct (set_sorted acc (p - 1) (rateOf t p a))
    as [Hpos' Hsorted']; [lia | done | done |].
  by apply IH.
Qed.

(** X8: when the period starts from the epoch on and every point has a
    position of at least 1, a price, and a time within the range of Date,
    the hours of the published [hourlyRates] enumerate in strictly
    increasing order, in whatever order (and however often) the points
    arrive; so the price list of [calculateOptimalWindow] is ordered by
    hour. *)
Theorem published_hours_increasing (env : Env) (doc : MarketDocument) (w : World)
    (t : Z) (points : list RawPoint) :
  relevant_points doc = Some (Js.Num t, points) ->
  publishable t points ->
  exists rates,
    energy_prices (run (fetchEnergyPrices env (Ok doc)) w) =
      Some {| lastUpdated := now env; hourlyRates := Some rates |} /\
    StronglySorted Z.lt (map fst rates).
Proof.
  intros Hrel Hpub. exists (ratesOf t points []). split.
  - by apply fetchEnergyPrices_publishes.
  - apply ratesOf_sorted; [done | constructor | constructor].
Qed.

Lemma published_hours_increasing_witness :
  exists rates,
    energy_prices
      (run (fetchEnergyPrices (sample_env 0 true) (Ok gap_feed))
         (sample_world (sample_user None 50 None) 0)) =
      Some {| lastUpdated := 1700000000000; hourlyRates := Some rates |} /\
    StronglySorted Z.lt (map fst rates).
Proof.
  apply (published_hours_increasing (sample_env 0 true) gap_feed
           (sample_world (sample_user None 50 None) 0) 0
           [ {| position := Js.Num 1; price_amount := Some 50%float |};
             {| position := Js.Num 3; price_amount := Some 70%float |} ]).
  - reflexivity.
  - exact gap_feed_publishable.
Defined.

(** The outcome of the normalizer is decided by the feed alone. *)
Lemma normalizePrices_uniform (doc : MarketDocument) :
  (rejected doc /\
   exists e, forall env w, normalizePrices env doc w = (Throw e, w)) \/
  (~ rejected doc /\
   exists rates, forall env w,
     normalizePrices env doc w =
     (Ok tt,
      {| users := users w;
         energy_prices :=
           Some {| lastUpdated := now env; hourlyRates := Some rates |};
         logs := logs w ++ [LogPricesSaved (length rates)];
         dispatched := dispatched w |})).
Proof.
  unfold rejected, relevant_points, normalizePrices.
  destruct (TimeSeries doc) as [[|ts0 tss]|]; try (left; split; [done | by eexists]).
  destruct (Period (List.last tss ts0)) as [|period ?];
    [left; split; [done | by eexists]|].
  destruct (Point period) as [[|pt rest]|]; try (left; split; [done | by eexists]).
  destruct (forEach_addPoint (Js.newDate (timeInterval_start period))
              (pt :: rest) [])
    as [(Hex & e & Hrun) | (Hnex & Hrun)].
  - left. split; [by right|].
    destruct (timeInterval_start period); [by eexists | |];
      exists e; intros env w; unfold bind; by rewrite Hrun.
  - right.
    assert (Hstart : Js.newDate (timeInterval_start period) <> None).
    { intros Hnone. apply Hnex. apply Exists_cons_hd. rewrite Hnone.
      unfold bad_point.
      destruct (position pt) as [| |z]; [by left | by right; left|].
      right; right; right. by exists z. }
    split; [intros [?|?]; done|].
    exists (entriesOf (Js.newDate (timeInterval_start period)) (pt :: rest) []).
    intros env w. destruct (timeInterval_start period); [done | done |].
    unfold bind. by rewrite Hrun.
Qed.

(** X9: the series published for an accepted feed is a function of the
    feed alone: it does not depend on the price document stored before
    (the write replaces it, nothing is merged) nor on the clock, so a
    second refresh with the same feed republishes the same rates. *)
Theorem fetchEnergyPrices_overwrites (doc : MarketDocument) :
  ~ rejected doc ->
  exists rates,
    (forall env w,
       energy_prices (run (fetchEnergyPrices env (Ok doc)) w) =
       Some {| lastUpdated := now env; hourlyRates := Some rates |}) /\
    (forall env w,
       energy_prices
         (run (fetchEnergyPrices env (Ok doc))
            (run (fetchEnergyPrices env (Ok doc)) w)) =
       energy_prices (run (fetchEnergyPrices env (Ok doc)) w)).
Proof.
  intros Hok.
  assert (Hpub : exists rates, forall env w,
            energy_prices (run (fetchEnergyPrices env (Ok doc)) w) =
            Some {| lastUpdated := now env; hourlyRates := Some rates |}).
  { destruct (normalizePrices_uniform doc) as [(Hrej & _) | (_ & rates & Hrun)];
      [done|].
    exists rates. intros env w.
    unfold run, fetchEnergyPrices, try_catch, bind, log, ret. simpl.
    by rewrite Hrun. }
  destruct Hpub as (rates & Hpub). exists rates.
  split; [exact Hpub|]. intros env w. by rewrite !Hpub.
Qed.

Lemma ordered_feed_accepted : ~ rejected ordered_feed.
Proof.
  apply (publishable_accepted ordered_feed 0
           [ {| position := Js.Num 1; price_amount := Some 50%float |};
             {| position := Js.Num 2; price_amount := Some 70%float |};
             {| position := Js.Num 3; price_amount := Some 60%float |} ]);
    [reflexivity|].
  split; [lia|].
  repeat constructor; eexists _, _;
    (split; [reflexivity|]; split; [reflexivity|]; lia).
Qed.

Lemma fetchEnergyPrices_overwrites_witness :
  exists rates,
    forall env w,
      energy_prices (run (fetchEnergyPrices env (Ok ordered_feed)) w) =
      Some {| lastUpdated := now env; hourlyRates := Some rates |}.
Proof.
  destruct (fetchEnergyPrices_overwrites ordered_feed ordered_feed_accepted)
    as (rates & Hpub & _).
  by exists rates.
Defined.

(** X10: [fetchEnergyPrices] never throws and writes nothing but the price
    document: users and dispatched commands are untouched; when the HTTP
    request or the XML parse fails, or the feed is rejected, the price
    document stays as it was and the error is logged. *)
Theorem fetchEnergyPrices_never_throws (env : Env)
    (response : Result MarketDocument) (w : World) :
  let w' := run (fetchEnergyPrices env response) w in
  outcome (fetchEnergyPrices env response) w = Ok tt /\
  users w' = users w /\
  dispatched w' = dispatched w /\
  (forall e, response = Throw e ->
     energy_prices w' = energy_prices w /\
     new_logs w w' = [LogFetchRunning; LogFetching; LogFetchError e]) /\
  (forall doc, response = Ok doc -> rejected doc ->
     energy_prices w' = energy_prices w /\
     exists e, new_logs w w' = [LogFetchRunning; LogFetching; LogFetchError e]).
Proof.
  intros w'. subst w'.
  unfold outcome, run, new_logs, fetchEnergyPrices, try_catch, bind, log,
    ret, throw.
  simpl. destruct response as [doc|e]; simpl.
  - destruct (normalizePrices_cases env doc)
      as [(Hrej & e & Hrun) | (Hok & rates & Hrun & _)]; rewrite Hrun; simpl.
    + split; [done|]. split; [done|]. split; [done|].
      split; [intros e' [=]|]. intros doc' [= <-] _. split; [done|].
      exists e. rewrite <- !app_assoc. by rewrite drop_app_length.
    + split; [done|]. split; [done|]. split; [done|].
      split; [intros e' [=]|]. by intros doc' [= <-] Hrej.
  - split; [done|]. split; [done|]. split; [done|]. split.
    + intros e' [= <-]. split; [done|].
      rewrite <- !app_assoc. by rewrite drop_app_length.
    + intros doc [=].
Qed.

Lemma fetchEnergyPrices_never_throws_witness :
  energy_prices
    (run (fetchEnergyPrices (sample_env 0 true) (Throw RequestFailed))
       (sample_world (sample_user None 50 None) 1)) =
  energy_prices (sample_world (sample_user None 50 None) 1).
Proof.
  exact (proj1 (proj1 (proj2 (proj2 (proj2
           (fetchEnergyPrices_never_throws (sample_env 0 true)
              (Throw RequestFailed)
              (sample_world (sample_user None 50 None) 1)))))
           RequestFailed eq_refl)).
Defined.

(** * Further properties of the Vehicle State Tracker *)

(** The outcomes of the webhook. *)
Lemma telemetryWebhook_cases (body : Body) (w : World) :
  exists r w',
    telemetryWebhook body w = (Ok r, w') /\
    energy_prices w' = energy_prices w /\
    dispatched w' = dispatched w /\
    ((status r = 400 /\
      (Js.truthy_str (body_vin body) = false \/ data body = None) /\
      users w' = users w) \/
     (status r = 200 /\
      Js.truthy_str (body_vin body) = true /\ is_Some (data body) /\
      (users w' = users w \/
       exists v tel uid d,
         body_vin body = Some v /\ data body = Some tel /\
         users w !! uid = Some d /\ vin (vehicle d) = v /\
         users w' = <[uid := applyVehicleUpdate (vehicleUpdate tel) d]> (users w)))).
Proof.
  unfold telemetryWebhook.
  destruct (body_vin body) as [v|] eqn:Hv, (data body) as [tel|] eqn:Htel;
    try (eexists _, _; split; [reflexivity|]; split; [done|]; split; [done|];
         left; split; [done|]; split; [|done]; by auto).
  destruct (Js.truthy_str (Some v)) eqn:Htruthy; simpl.
  2: { eexists _, _. split; [reflexivity|]. split; [done|]. split; [done|].
       left. split; [done|]. split; [by left | done]. }
  unfold try_catch, bind, log, find_by_vin, update_user, ret. simpl.
  destruct (find _ (map_to_list (users w))) as [[uid d]|] eqn:Hfind.
  2: { eexists _, _. split; [reflexivity|]. split; [done|]. split; [done|].
       right. split; [done|]. split; [done|]. split; [by eexists | by left]. }
  assert (Hd : users w !! uid = Some d).
  { apply (find_by_vin_stored v w). unfold find_by_vin. simpl.
    by rewrite Hfind. }
  assert (Hvin : vin (vehicle d) = v).
  { apply find_some in Hfind as [_ Heq]. simpl in Heq.
    by apply String.eqb_eq in Heq. }
  simpl. destruct (0 <? keys_length (vehicleUpdate tel))%nat.
  - cbn [users]. rewrite Hd. eexists _, _. split; [reflexivity|].
    split; [done|]. split; [done|].
    right. split; [done|]. split; [done|]. split; [by eexists|].
    right. by exists v, tel, uid, d.
  - eexists _, _. split; [reflexivity|]. split; [done|]. split; [done|].
    right. split; [done|]. split; [done|]. split; [by eexists | by left].
Qed.

(** X11: the webhook always answers, with status 400 exactly when the body
    has no (or an empty) [vin] or no [data], and with 200 otherwise, also
    for a VIN that no user owns; with 400 no document is written. *)
Theorem telemetryWebhook_status (body : Body) (w : World) :
  exists r,
    outcome (telemetryWebhook body) w = Ok r /\
    (status r = 200 \/ status r = 400) /\
    (status r = 400 <->
     Js.truthy_str (body_vin body) = false \/ data body = None) /\
    (status r = 400 -> users (run (telemetryWebhook body) w) = users w).
Proof.
  destruct (telemetryWebhook_cases body w)
    as (r & w' & Hrun & _ & _ & [(Hs & Hbad & Husers) | (Hs & Hv & Hd & _)]);
    exists r; unfold outcome, run; rewrite Hrun; simpl.
  - split; [done|]. split; [by right|]. split; [done|]. done.
  - split; [done|]. split; [by left|]. split.
    + split; [intros H400; congruence|].
      intros [Hbad | Hbad]; [congruence|]. rewrite Hbad in Hd.
      by destruct Hd.
    + intros H400. congruence.
Qed.

Lemma telemetryWebhook_status_witness :
  exists r,
    outcome
      (telemetryWebhook
         {| body_vin := Some "unknown"%string;
            data := Some {| charging_state := None; charge_port_latch := None;
                            battery_level := Some 55 |} |})
      (sample_world (sample_user None 50 None) 1) = Ok r /\
    (status r = 200 \/ status r = 400).
Proof.
  destruct (telemetryWebhook_status
              {| body_vin := Some "unknown"%string;
                 data := Some {| charging_state := None; charge_port_latch := None;
                                 battery_level := Some 55 |} |}
              (sample_world (sample_user None 50 None) 1))
    as (r & Hr & Hs & _).
  exists r. split; [exact Hr | exact Hs].
Defined.

(** X12: a telemetry event changes at most one user document, and only a
    document whose stored VIN is the VIN of the event; the price document
    and the dispatched commands are never touched.  In particular an event
    for a VIN that no user owns changes nothing. *)
Theorem telemetryWebhook_only_owner (body : Body) (w : World) :
  let w' := run (telemetryWebhook body) w in
  energy_prices w' = energy_prices w /\
  dispatched w' = dispatched w /\
  (forall uid, users w' !! uid <> users w !! uid ->
     exists doc, users w !! uid = Some doc /\
                 body_vin body = Some (vin (vehicle doc))) /\
  (forall uid1 uid2,
     users w' !! uid1 <> users w !! uid1 ->
     users w' !! uid2 <> users w !! uid2 -> uid1 = uid2) /\
  ((forall uid doc, users w !! uid = Some doc ->
      body_vin body <> Some (vin (vehicle doc))) ->
   users w' = users w).
Proof.
  intros w'. subst w'.
  destruct (telemetryWebhook_cases body w)
    as (r & w' & Hrun & Hp & Hdisp & Hcases).
  unfold run. rewrite Hrun. simpl.
  split; [done|]. split; [done|].
  assert (Hu : users w' = users w \/
    exists v tel uid d,
      body_vin body = Some v /\ data body = Some tel /\
      users w !! uid = Some d /\ vin (vehicle d) = v /\
      users w' = <[uid := applyVehicleUpdate (vehicleUpdate tel) d]> (users w)).
  { destruct Hcases as [(_ & _ & Hu) | (_ & _ & _ & Hu)]; [by left | done]. }
  destruct Hu as [-> | (v & tel & uid & d & Hv & Htel & Hd & Hvin & ->)].
  { split; [done|]. split; done. }
  assert (Hchanged : forall uid0,
            <[uid := applyVehicleUpdate (vehicleUpdate tel) d]> (users w) !! uid0
              <> users w !! uid0 -> uid0 = uid).
  { intros uid0 Hne. destruct (decide (uid = uid0)) as [|Hneq]; [done|].
    by rewrite lookup_insert_ne in Hne. }
  split; [|split].
  - intros uid0 Hne. apply Hchanged in Hne as ->.
    exists d. split; [done|]. by rewrite Hv, Hvin.
  - intros uid1 uid2 H1 H2. apply Hchanged in H1, H2. congruence.
  - intros Hunknown. exfalso. apply (Hunknown uid d Hd). by rewrite Hv, Hvin.
Qed.

Lemma telemetryWebhook_only_owner_witness :
  users
    (run (telemetryWebhook
            {| body_vin := Some "unknown"%string;
               data := Some {| charging_state := None; charge_port_latch := None;
                               battery_level := Some 55 |} |})
       (sample_world (sample_user None 50 None) 1)) =
  users (sample_world (sample_user None 50 None) 1).
Proof.
  apply (telemetryWebhook_only_owner
           {| body_vin := Some "unknown"%string;
              data := Some {| charging_state := None; charge_port_latch := None;
                              battery_level := Some 55 |} |}
           (sample_world (sample_user None 50 None) 1)).
  intros uid doc Hdoc. simpl in Hdoc.
  apply lookup_singleton_Some in Hdoc as [_ <-]. discriminate.
Defined.

(** * Further properties of manageChargingLogic *)

(** X13: on a plug-in event without override, when the price document is
    missing, has no [hourlyRates], or has no rate for the current hour,
    the handler completes normally, dispatches no command, writes nothing
    and logs the error after the plug-in message. *)
Theorem plug_in_without_price (env : Env) (ev : Event) (w : World) (st : Settings) :
  overrideRequested (before ev) (after ev) = false ->
  justPluggedIn (before ev) (after ev) = true ->
  settings (after ev) = Some st ->
  (energy_prices w = None \/
   exists pd, energy_prices w = Some pd /\
     (hourlyRates pd = None \/
      exists prices, hourlyRates pd = Some prices /\
                     Js.get prices (getHours env) = None)) ->
  let w' := run (manageChargingLogic env ev) w in
  outcome (manageChargingLogic env ev) w = Ok tt /\
  dispatched w' = dispatched w /\
  users w' = users w /\
  energy_prices w' = energy_prices w /\
  exists e,
    new_logs w w' = [LogPluggedIn (userId ev); LogChargingError (userId ev) e].
Proof.
  intros Hov Hplug Hst Hprice w'. subst w'.
  assert (Hcur : exists e, currentPrice env w = Throw e).
  { unfold currentPrice.
    destruct Hprice as [-> | (pd & -> & [-> | (prices & -> & ->)])];
      by eexists. }
  destruct Hcur as (e & Hcur).
  unfold outcome, run, new_logs.
  rewrite manageChargingLogic_no_override by done.
  rewrite Hplug, smartCharging_run, Hst, Hcur. simpl.
  repeat split; try done. exists e. by rewrite drop_app_length.
Qed.

Lemma plug_in_without_price_witness :
  let w :=
    run (fetchEnergyPrices (sample_env 1 true) (Ok gap_feed))
      (sample_world (after (plug_in_event 50)) 0) in
  dispatched (run (manageChargingLogic (sample_env 1 true) (plug_in_event 50)) w)
  = dispatched w.
Proof.
  intros w.
  apply (plug_in_without_price (sample_env 1 true) (plug_in_event 50) w
           sample_settings eq_refl eq_refl eq_refl).
  right. eexists. split; [reflexivity|]. right. eexists. by split.
Defined.

(** X14: on a plug-in event without override for a user without
    [settings], the handler logs the plug-in message and then throws a
    TypeError that nothing catches; no command is dispatched. *)
Theorem plug_in_without_settings (env : Env) (ev : Event) (w : World) :
  overrideRequested (before ev) (after ev) = false ->
  justPluggedIn (before ev) (after ev) = true ->
  settings (after ev) = None ->
  let w' := run (manageChargingLogic env ev) w in
  outcome (manageChargingLogic env ev) w = Throw TypeError /\
  dispatched w' = dispatched w /\
  users w' = users w /\
  new_logs w w' = [LogPluggedIn (userId ev)].
Proof.
  intros Hov Hplug Hst w'. subst w'. unfold outcome, run, new_logs.
  rewrite manageChargingLogic_no_override by done.
  rewrite Hplug, smartCharging_run, Hst. simpl.
  repeat split; try done. by rewrite drop_app_length.
Qed.

Lemma plug_in_without_settings_witness :
  let ev :=
    {| before := set_vehicle (vehicle (sample_user (Some false) 50 None)) long_duration_user;
       after :=
         {| settings := None;
            vehicle := vehicle (sample_user (Some true) 50 None);
            teslaRefreshToken := "refresh"; chargeOverride := None |};
       userId := "u1" |} in
  outcome (manageChargingLogic (sample_env 3 true) ev)
    (sample_world (after ev) 1) = Throw TypeError.
Proof.
  intros ev.
  apply (plug_in_without_settings (sample_env 3 true) ev
           (sample_world (after ev) 1));
    reflexivity.
Defined.

(** X15: for a user document that has its [vehicle] map, the updates
    that the functions themselves write do not start a new action: the
    handler does nothing on the update that clears the override flag, on
    an update of [optimalStartHour] or of the refresh token, and on a
    telemetry update that does not report the charge port as engaged (an
    unplug never sends a command). *)
Theorem own_writes_are_quiescent (env : Env) (d : UserDoc) (uid : string) (w : World) :
  (manageChargingLogic env
     {| before := d; after := set_chargeOverride false d; userId := uid |} w
   = (Ok tt, w)) /\
  (forall h,
     manageChargingLogic env
       {| before := d; after := set_optimalStartHour h d; userId := uid |} w
     = (Ok tt, w)) /\
  (forall t,
     manageChargingLogic env
       {| before := d; after := Callable.set_teslaRefreshToken t d; userId := uid |} w
     = (Ok tt, w)) /\
  (forall tel,
     charge_port_latch tel <> Some "Engaged"%string ->
     manageChargingLogic env
       {| before := d; after := applyVehicleUpdate (vehicleUpdate tel) d;
          userId := uid |} w
     = (Ok tt, w)).
Proof.
  assert (Hsame : forall a,
            overrideRequested d a = false ->
            (isPluggedIn (vehicle a) = isPluggedIn (vehicle d) \/
             isPluggedIn (vehicle a) <> Some true) ->
            manageChargingLogic env {| before := d; after := a; userId := uid |} w
            = (Ok tt, w)).
  { intros a Hov Hplug. rewrite manageChargingLogic_no_override by done.
    simpl. destruct (justPluggedIn d a) eqn:E; [|done].
    apply justPluggedIn_spec in E as [E1 E2].
    destruct Hplug as [Heq | Hne]; congruence. }
  split; [|split; [|split]].
  - apply Hsame; [done | by left].
  - intros h. apply Hsame; [by apply overrideRequested_unchanged | by left].
  - intros t. apply Hsame; [by apply overrideRequested_unchanged | by left].
  - intros tel Hlatch. apply Hsame; [by apply overrideRequested_unchanged|].
    unfold applyVehicleUpdate, vehicleUpdate. simpl.
    destruct (Js.truthy_str (charge_port_latch tel)); [|by left].
    right. intros [= Hb]. apply bool_decide_eq_true in Hb. done.
Qed.

Lemma own_writes_are_quiescent_witness :
  manageChargingLogic (sample_env 3 true)
    {| before := sample_user (Some true) 50 None;
       after :=
         applyVehicleUpdate
           (vehicleUpdate {| charging_state := None;
                             charge_port_latch := Some "Disengaged"%string;
                             battery_level := None |})
           (sample_user (Some true) 50 None);
       userId := "u1" |}
    (sample_world (sample_user (Some true) 50 None) 1)
  = (Ok tt, sample_world (sample_user (Some true) 50 None) 1).
Proof.
  apply (own_writes_are_quiescent (sample_env 3 true)
           (sample_user (Some true) 50 None) "u1"%string
           (sample_world (sample_user (Some true) 50 None) 1)).
  discriminate.
Defined.



(** X17: on an override request whose updated data has its [vehicle]
    map (so that the arguments of the dispatcher can be read), for a user
    whose document exists, a rejected token exchange does not reach the
    handler's [catch]: the log reads failure of the command followed by
    the message of a successful override; for such a request the error
    message of the override is logged, and the handler rejects, only when
    the user document is missing. *)
Theorem override_error_only_for_missing_document (env : Env) (ev : Event) (w : World) :
  overrideRequested (before ev) (after ev) = true ->
  let w' := run (manageChargingLogic env ev) w in
  let t := teslaRefreshToken (after ev) in
  let v := vin (vehicle (after ev)) in
  (is_Some (users w !! userId ev) ->
     outcome (manageChargingLogic env ev) w = Ok tt /\
     (tokenEndpoint env t = None ->
        new_logs w w' =
        [LogOverrideDetected (userId ev); LogSendFailed v RequestFailed;
         LogOverrideReset (userId ev)])) /\
  (users w !! userId ev = None ->
     outcome (manageChargingLogic env ev) w = Throw NotFound /\
     users w' = users w /\
     LogOverrideError (userId ev) NotFound ∈ new_logs w w') /\
  (forall e, LogOverrideError (userId ev) e ∈ new_logs w w' ->
     users w !! userId ev = None).
Proof.
  intros Hov w' t v. subst w' t v. unfold outcome, run, new_logs.
  rewrite manageChargingLogic_override by done. simpl.
  destruct (users w !! userId ev) as [d|] eqn:Hd; simpl;
    rewrite drop_app_length.
  - split; [|split].
    + intros _. split; [done|]. intros Htok. unfold dispatch_log.
      by rewrite Htok.
    + done.
    + intros e Hin. exfalso. unfold dispatch_log in Hin.
      destruct (tokenEndpoint env _);
        repeat (apply elem_of_cons in Hin as [Hin|Hin]; [discriminate|]);
        by apply elem_of_nil in Hin.
  - split; [|split].
    + by intros [? ?].
    + intros _. split; [done|]. split; [done|].
      do 2 apply list_elem_of_further. apply list_elem_of_here.
    + done.
Qed.

Lemma override_error_only_for_missing_document_witness :
  new_logs (sample_world (after (override_event (Some true) 60)) 1)
    (run (manageChargingLogic (sample_env 12 false) (override_event (Some true) 60))
       (sample_world (after (override_event (Some true) 60)) 1)) =
  [LogOverrideDetected "u1"; LogSendFailed "5YJ3E1EA7KF000001" RequestFailed;
   LogOverrideReset "u1"].
Proof.
  assert (Hdoc : is_Some (users (sample_world (after (override_event (Some true) 60)) 1)
                            !! "u1"%string)) by (by eexists).
  exact (proj2 (proj1 (override_error_only_for_missing_document
                         (sample_env 12 false) (override_event (Some true) 60)
                         (sample_world (after (override_event (Some true) 60)) 1)
                         eq_refl) Hdoc) eq_refl).
Defined.

(** * Properties of exchangeAuthCodeForToken *)

(** X18: when the caller is authenticated, passes a non-empty code, Tesla
    answers with a non-empty refresh token and the caller's document
    exists, the call returns success and stores exactly that token in the
    caller's document: the other fields of the document, the other users,
    the price document and the dispatched commands are unchanged. *)
Theorem exchange_stores_token (tokenRequest : string -> Result (option string))
    (request : Callable.Request) (w : World)
    (uid c t : string) (d : UserDoc) :
  Callable.auth request = Some uid ->
  Callable.data request = Some {| Callable.code := Some c |} ->
  c <> ""%string ->
  tokenRequest c = Ok (Some t) -> t <> ""%string ->
  users w !! uid = Some d ->
  let r := Callable.exchangeAuthCodeForToken tokenRequest request w in
  let w' := Callable.store_after r in
  Callable.reply r =
    inl {| Callable.success := true;
           Callable.message := "Tesla account connected!" |} /\
  (exists d', users w' !! uid = Some d' /\
     teslaRefreshToken d' = t /\
     settings d' = settings d /\ vehicle d' = vehicle d /\
     chargeOverride d' = chargeOverride d) /\
  (forall uid', uid' <> uid -> users w' !! uid' = users w !! uid') /\
  energy_prices w' = energy_prices w /\
  dispatched w' = dispatched w /\
  Callable.call_logs r =
    [Callable.LogExchanging uid; Callable.LogTokenStored uid].
Proof.
  intros Hauth Hcode Hc Htok Ht Hd r w'. subst r w'.
  unfold Callable.exchangeAuthCodeForToken, Callable.reply,
    Callable.store_after, Callable.call_logs.
  rewrite Hauth, Hcode. simpl.
  destruct (String.eqb_spec c ""); [done|]. simpl. rewrite Htok. simpl.
  destruct (String.eqb_spec t ""); [done|]. simpl.
  unfold update_user. rewrite Hd. simpl.
  split; [done|]. split.
  - exists (Callable.set_teslaRefreshToken t d).
    by rewrite lookup_insert_eq.
  - split; [|done]. intros uid' Hne. by rewrite lookup_insert_ne.
Qed.

Lemma exchange_stores_token_witness :
  let r :=
    Callable.exchangeAuthCodeForToken (fun _ => Ok (Some "new-refresh"%string))
      {| Callable.auth := Some "u1"%string;
         Callable.data := Some {| Callable.code := Some "abc"%string |} |}
      (sample_world (sample_user None 50 None) 1) in
  exists d',
    users (Callable.store_after r) !! "u1"%string = Some d' /\
    teslaRefreshToken d' = "new-refresh"%string.
Proof.
  intros r.
  assert (Hdoc : users (sample_world (sample_user None 50 None) 1)
                   !! "u1"%string = Some (sample_user None 50 None))
    by reflexivity.
  destruct (exchange_stores_token (fun _ => Ok (Some "new-refresh"%string))
              {| Callable.auth := Some "u1"%string;
                 Callable.data := Some {| Callable.code := Some "abc"%string |} |}
              (sample_world (sample_user None 50 None) 1)
              "u1"%string "abc"%string "new-refresh"%string
              (sample_user None 50 None)
              eq_refl eq_refl ltac:(discriminate) eq_refl ltac:(discriminate)
              Hdoc)
    as (_ & (d' & Hd' & Ht & _) & _).
  exists d'. split; [exact Hd' | exact Ht].
Defined.

(** X19: every failure of the call leaves the store as it was.  A call
    without authentication, with a payload that has no or an empty code,
    a rejected request, a response without refresh token and a missing
    user document are thrown as a ReferenceError, because the identifier
    [functions] of [new functions.https.HttpsError] is not declared; an
    authenticated call without payload throws a TypeError when
    [request.data.code] is read, and this is the only TypeError.  A call
    without authentication, without payload or without code is refused
    before anything is logged. *)
Theorem exchange_failures (tokenRequest : string -> Result (option string))
    (request : Callable.Request) (w : World) :
  let r := Callable.exchangeAuthCodeForToken tokenRequest request w in
  (forall rep, Callable.reply r = inl rep ->
     exists uid c t,
       Callable.auth request = Some uid /\
       Callable.data request = Some {| Callable.code := Some c |} /\
       c <> ""%string /\
       tokenRequest c = Ok (Some t) /\ t <> ""%string /\
       is_Some (users w !! uid)) /\
  (forall e, Callable.reply r = inr e -> Callable.store_after r = w) /\
  (Callable.auth request = None ->
     Callable.reply r = inr Callable.ReferenceError /\
     Callable.call_logs r = []) /\
  (is_Some (Callable.auth request) -> Callable.data request = None ->
     Callable.reply r = inr Callable.TypeError /\
     Callable.call_logs r = []) /\
  (forall payload,
     is_Some (Callable.auth request) ->
     Callable.data request = Some payload ->
     Js.truthy_str (Callable.code payload) = false ->
     Callable.reply r = inr Callable.ReferenceError /\
     Callable.call_logs r = []) /\
  (Callable.reply r = inr Callable.TypeError ->
     is_Some (Callable.auth request) /\ Callable.data request = None).
Proof.
  intros r. subst r.
  unfold Callable.exchangeAuthCodeForToken, Callable.reply,
    Callable.store_after, Callable.call_logs.
  destruct (Callable.auth request) as [uid|]; simpl.
  2: { split; [done|]. split; [done|]. split; [done|].
       split; [by intros [? ?]|]. split; [by intros ? [? ?]|]. done. }
  destruct (Callable.data request) as [[code]|]; simpl.
  2: { split; [done|]. split; [done|]. split; [done|]. split; [done|].
       split; [done|]. intros _. split; [by eexists | done]. }
  destruct code as [c|]; simpl.
  2: { split; [done|]. split; [done|]. split; [done|]. split; [done|].
       split; [by intros ? _ [= <-]|]. done. }
  destruct (String.eqb_spec c "") as [->|Hc]; simpl.
  { split; [done|]. split; [done|]. split; [done|]. split; [done|].
    split; [by intros ? _ [= <-]|]. done. }
  assert (Hcode : forall payload : Callable.Payload,
            Some {| Callable.code := Some c |} = Some payload ->
            Js.truthy_str (Callable.code payload) = false -> False).
  { intros payload [= <-]. simpl. by destruct (String.eqb_spec c ""). }
  destruct (tokenRequest c) as [[t|]|e] eqn:Htok; simpl.
  - destruct (String.eqb_spec t "") as [->|Ht]; simpl.
    { split; [done|]. split; [done|]. split; [done|]. split; [done|].
      split; [|done]. intros payload _ Hp Hf. by destruct (Hcode payload Hp Hf). }
    unfold update_user. destruct (users w !! uid) as [d|] eqn:Hd; simpl.
    + split.
      { intros rep _. exists uid, c, t. by repeat split. }
      split; [done|]. split; [done|]. split; [done|].
      split; [|done]. intros payload _ Hp Hf. by destruct (Hcode payload Hp Hf).
    + split; [done|]. split; [done|]. split; [done|]. split; [done|].
      split; [|done]. intros payload _ Hp Hf. by destruct (Hcode payload Hp Hf).
  - split; [done|]. split; [done|]. split; [done|]. split; [done|].
    split; [|done]. intros payload _ Hp Hf. by destruct (Hcode payload Hp Hf).
  - split; [done|]. split; [done|]. split; [done|]. split; [done|].
    split; [|done]. intros payload _ Hp Hf. by destruct (Hcode payload Hp Hf).
Qed.

Lemma exchange_failures_witness :
  Callable.reply
    (Callable.exchangeAuthCodeForToken (fun _ => Ok (Some "new-refresh"%string))
       {| Callable.auth := Some "u1"%string; Callable.data := None |}
       (sample_world (sample_user None 50 None) 1))
  = inr Callable.TypeError.
Proof.
  apply (exchange_failures (fun _ => Ok (Some "new-refresh"%string))
           {| Callable.auth := Some "u1"%string; Callable.data := None |}
           (sample_world (sample_user None 50 None) 1));
    [by eexists | reflexivity].
Defined.

(** * Composition of the functions *)

(** X20: after a refresh with a feed whose period starts from the epoch
    on and whose points all have a position of at least 1, a price, and a
    time within the range of Date, a plug-in event (no override, settings
    present) handled at the hour p - 1 for which the feed's last point of
    position p gives the price dispatches exactly one command: the
    decision taken with that point's price divided by 1000. *)
Theorem plug_in_after_refresh (env : Env) (doc : MarketDocument) (w : World)
    (t : Z) (earlier later : list RawPoint) (pt : RawPoint) (p : Z)
    (amount : float) (ev : Event) (st : Settings) :
  relevant_points doc = Some (Js.Num t, earlier ++ pt :: later) ->
  publishable t (earlier ++ pt :: later) ->
  position pt = Js.Num p ->
  price_amount pt = Some amount ->
  Forall (fun q => position q <> Js.Num p) later ->
  getHours env = p - 1 ->
  overrideRequested (before ev) (after ev) = false ->
  justPluggedIn (before ev) (after ev) = true ->
  settings (after ev) = Some st ->
  let w1 := run (fetchEnergyPrices env (Ok doc)) w in
  dispatched (run (manageChargingLogic env ev) w1) =
  dispatched w ++
    [(teslaRefreshToken (after ev), vin (vehicle (after ev)),
      decision (batteryLevel (vehicle (after ev))) (emergencyThreshold st)
        (amount / 1000)%float (p - 1) (optimalStartHour st)
        (chargingDuration st) (targetBattery st))].
Proof.
  intros Hrel Hpub Hp Ha Hlater Hhour Hov Hplug Hst w1.
  assert (Hdoc : energy_prices w1 =
            Some {| lastUpdated := now env;
                    hourlyRates := Some (ratesOf t (earlier ++ pt :: later) []) |})
    by by apply fetchEnergyPrices_publishes.
  assert (Hdisp : dispatched w1 = dispatched w).
  { subst w1. unfold run, fetchEnergyPrices, try_catch, bind, log, ret. simpl.
    destruct (normalizePrices_cases env doc)
      as [(_ & e & Hrun) | (_ & rates & Hrun & _)]; by rewrite Hrun. }
  unfold run. rewrite manageChargingLogic_no_override by done.
  rewrite Hplug, smartCharging_run, Hst.
  unfold currentPrice. rewrite Hdoc. simpl.
  rewrite Hhour, (ratesOf_last t earlier later pt p amount Hp Ha Hlater). simpl.
  by rewrite Hdisp.
Qed.

Lemma plug_in_after_refresh_witness :
  dispatched
    (run (manageChargingLogic (sample_env 2 true) (plug_in_event 50))
       (run (fetchEnergyPrices (sample_env 2 true) (Ok gap_feed))
          (sample_world (after (plug_in_event 50)) 0))) =
  [("refresh"%string, "5YJ3E1EA7KF000001"%string, START)].
Proof.
  apply (plug_in_after_refresh (sample_env 2 true) gap_feed
           (sample_world (after (plug_in_event 50)) 0) 0
           [ {| position := Js.Num 1; price_amount := Some 50%float |} ] []
           {| position := Js.Num 3; price_amount := Some 70%float |} 3 70%float
           (plug_in_event 50) sample_settings).
  - reflexivity.
  - exact gap_feed_publishable.
  - reflexivity.
  - reflexivity.
  - constructor.
  - reflexivity.
  - reflexivity.
  - reflexivity.
  - reflexivity.
Defined.

(** X21: a telemetry event for a VIN that exactly one user owns is applied
    to that user's document: a non-empty [charge_port_latch] sets
    [isPluggedIn] to whether it is 'Engaged', a non-empty [charging_state]
    sets [isCharging] to whether it is 'Charging', and a non-zero
    [battery_level] is stored as reported. *)
Theorem telemetry_applied_to_owner (v : string) (tel : TelemetryData)
    (w : World) (uid : string) (d : UserDoc) :
  v <> ""%string ->
  users w !! uid = Some d ->
  vin (vehicle d) = v ->
  (forall uid' d', users w !! uid' = Some d' -> vin (vehicle d') = v -> uid' = uid) ->
  let w' := run (telemetryWebhook {| body_vin := Some v; data := Some tel |}) w in
  exists d', users w' !! uid = Some d' /\
    (forall s, charge_port_latch tel = Some s -> s <> ""%string ->
       isPluggedIn (vehicle d') = Some (bool_decide (s = "Engaged"%string))) /\
    (forall s, charging_state tel = Some s -> s <> ""%string ->
       isCharging (vehicle d') = bool_decide (s = "Charging"%string)) /\
    (forall n, battery_level tel = Some n -> n <> 0 ->
       batteryLevel (vehicle d') = n).
Proof.
  intros Hv Hd Hvin Huniq w'. subst w'.
  unfold run, telemetryWebhook. simpl.
  destruct (String.eqb_spec v ""); [done|]. simpl.
  unfold try_catch, bind, log, find_by_vin, update_user, ret. simpl.
  destruct (find _ (map_to_list (users w))) as [[uid' d']|] eqn:Hfind.
  2: { exfalso. apply elem_of_map_to_list, list_elem_of_In in Hd.
       apply (find_none _ _ Hfind) in Hd. simpl in Hd.
       apply String.eqb_neq in Hd. done. }
  assert (Hd' : users w !! uid' = Some d').
  { apply find_some in Hfind as [Hin _].
    by apply list_elem_of_In, elem_of_map_to_list in Hin. }
  assert (Hvin' : vin (vehicle d') = v).
  { apply find_some in Hfind as [_ Heq]. by apply String.eqb_eq in Heq. }
  assert (uid' = uid) as -> by by apply (Huniq uid' d').
  assert (d' = d) as -> by congruence.
  simpl.
  destruct (0 <? keys_length (vehicleUpdate tel))%nat eqn:Hkeys.
  - cbn [users]. rewrite Hd. cbn [users snd]. rewrite lookup_insert_eq.
    eexists. split; [reflexivity|].
    unfold applyVehicleUpdate, vehicleUpdate. simpl.
    split; [|split].
    + intros s Hs Hne. rewrite Hs. simpl.
      destruct (String.eqb_spec s ""); [done|]. simpl.
      do 2 f_equal. apply bool_decide_ext. split; congruence.
    + intros s Hs Hne. rewrite Hs. simpl.
      destruct (String.eqb_spec s ""); [done|]. simpl.
      apply bool_decide_ext. split; congruence.
    + intros n0 Hn Hne. rewrite Hn. simpl.
      by destruct (Z.eqb_spec n0 0).
  - exists d. split; [done|].
    unfold keys_length, vehicleUpdate in Hkeys. simpl in Hkeys.
    split; [|split].
    + intros s Hs Hne. rewrite Hs in Hkeys. simpl in Hkeys.
      destruct (String.eqb_spec s ""); [done|]. simpl in Hkeys.
      by destruct (Js.truthy_str (charging_state tel)).
    + intros s Hs Hne. rewrite Hs in Hkeys. simpl in Hkeys.
      destruct (String.eqb_spec s ""); [done|]. done.
    + intros n0 Hn Hne. rewrite Hn in Hkeys. simpl in Hkeys.
      destruct (Z.eqb_spec n0 0); [done|]. simpl in Hkeys.
      by destruct (Js.truthy_str (charging_state tel)),
                  (Js.truthy_str (charge_port_latch tel)).
Qed.

Lemma telemetry_applied_to_owner_witness :
  exists d',
    users
      (run (telemetryWebhook (telemetry (Some "Complete"%string)
                                (Some "Engaged"%string) (Some 80)))
         (sample_world (sample_user (Some false) 40 None) 1))
      !! "u1"%string = Some d' /\
    isPluggedIn (vehicle d') = Some true /\
    batteryLevel (vehicle d') = 80.
Proof.
  assert (Hdoc : users (sample_world (sample_user (Some false) 40 None) 1)
                   !! "u1"%string = Some (sample_user (Some false) 40 None))
    by reflexivity.
  destruct (telemetry_applied_to_owner "5YJ3E1EA7KF000001"%string
              {| charging_state := Some "Complete"%string;
                 charge_port_latch := Some "Engaged"%string;
                 battery_level := Some 80 |}
              (sample_world (sample_user (Some false) 40 None) 1)
              "u1"%string (sample_user (Some false) 40 None)
              ltac:(discriminate) Hdoc eq_refl)
    as (d' & Hd' & Hlatch & _ & Hlevel).
  - intros uid' d' Hin _. simpl in Hin.
    by apply lookup_singleton_Some in Hin as [<- _].
  - exists d'. split; [exact Hd'|]. split.
    + exact (Hlatch "Engaged"%string eq_refl ltac:(discriminate)).
    + exact (Hlevel 80 eq_refl ltac:(discriminate)).
Defined.

(** * The selector under a change of unit *)

(** X22: the selection is not invariant under a change of unit: the
    division by 1000 of the refresh function can change the selected
    window.  Prices whose windows tie in EUR/MWh, so that the first one
    is selected, no longer tie once they are divided, because the sums
    are rounded. *)
Example selectWindow_not_invariant_under_scaling :
  let raw := map Js.of_Z ([100; 200; 300; 200; 100] ++ repeat 900 19) in
  selectWindow raw 3 = 0 /\
  selectWindow (map (fun x => x / 1000)%float raw) 3 = 2.
Proof. split; vm_compute; reflexivity. Qed.
